(** * GitHub connections for App Hosting: provisioning and discovery

    A shallow embedding of [init/features/apphosting/githubConnections.ts]
    (resource-name codec, get-or-create provisioners, the two installation
    loops, eligibility filter and repository discovery) together with the
    properties stated about it.

    Layout.  Definitions: JavaScript string primitives; the fragment of
    the regular expression language used by the three patterns of the
    module, with a backtracking matcher; the pure functions of the module;
    the data model of the Developer Connect resources; plain objects used
    as dictionaries; a state-and-exception monad over the external
    collaborators (remote API, operation poller, prompt, browser, logger)
    that logs every call; the effectful functions of the module; the
    vocabulary of the statements and a scripted outside world.  Then the
    facts: strings and matcher, resource names, repository ids, the
    eligibility pattern, the provisioners, the two loops, eligible
    connections, repository discovery, and runs against the stubs. *)

From Stdlib Require Import String Ascii List Bool Arith ZArith NArith Lia Permutation.
Import ListNotations.
Open Scope string_scope.

(** ** JavaScript string primitives *)

Module Str.

(** [all p s]: every character of [s] satisfies [p]. *)
Fixpoint all (p : ascii -> bool) (s : string) : bool :=
  match s with
  | EmptyString => true
  | String c s' => p c && all p s'
  end.

(** [stripPrefix p s] is the rest of [s] after the prefix [p], if any. *)
Fixpoint stripPrefix (p s : string) : option string :=
  match p, s with
  | EmptyString, _ => Some s
  | String _ _, EmptyString => None
  | String a p', String b s' =>
      if Ascii.eqb a b then stripPrefix p' s' else None
  end.

(** [s.replace(pat, rep)] with a string pattern: only the first
    occurrence is replaced.  The replacement is taken literally (the
    replacement used by the source contains no [$]). *)
Fixpoint replace (pat rep s : string) : string :=
  match stripPrefix pat s with
  | Some rest => rep ++ rest
  | None =>
      match s with
      | EmptyString => EmptyString
      | String c s' => String c (replace pat rep s')
      end
  end.

(** [s.replaceAll(pat, rep)] for a search string [pat] of one character. *)
Fixpoint replaceAll (pat : ascii) (rep : string) (s : string) : string :=
  match s with
  | EmptyString => EmptyString
  | String c s' =>
      if Ascii.eqb c pat then rep ++ replaceAll pat rep s'
      else String c (replaceAll pat rep s')
  end.

(** [s.slice(n)] for a non-negative start index. *)
Fixpoint slice (n : nat) (s : string) : string :=
  match n, s with
  | O, _ => s
  | S _, EmptyString => EmptyString
  | S n', String _ s' => slice n' s'
  end.

(** [contains c s]: the character [c] occurs in [s]. *)
Fixpoint contains (c : ascii) (s : string) : bool :=
  match s with
  | EmptyString => false
  | String d s' => Ascii.eqb c d || contains c s'
  end.

(** Number of occurrences of the character [c] in [s]. *)
Fixpoint count (c : ascii) (s : string) : nat :=
  match s with
  | EmptyString => 0
  | String d s' => (if Ascii.eqb c d then 1 else 0) + count c s'
  end.

(** [endsWith s suf]. *)
Fixpoint endsWith (s suf : string) : bool :=
  String.eqb s suf ||
  match s with
  | EmptyString => false
  | String _ s' => endsWith s' suf
  end.

End Str.

(** ** Regular expressions

    The fragment used by [APPHOSTING_CONN_PATTERN], [CONNECTION_NAME_REGEX]
    and the slug pattern of [extractRepoSlugFromUri]: literal characters,
    [.], negated character sets, greedy [+] over a character class,
    capturing groups over such a repetition, and the assertions [^] and
    [$].  None of the patterns carries a flag, so [^] and [$] assert the
    two ends of the input and matching is stateless. *)

Module RegExp.

Inductive cclass : Type :=
| Dot                        (* [.]      *)
| NoneOf (cs : list ascii).  (* [[^cs]]  *)

Inductive node : Type :=
| Chr (c : ascii)                          (* a literal character *)
| One (k : cclass)                         (* one character of a class *)
| Plus (k : cclass)                        (* [k+], greedy *)
| Group (name : option string) (k : cclass) (* [(k+)] or [(?<name>k+)] *)
| Bol                                      (* [^] *)
| Eol.                                     (* [$] *)

Definition regexp := list node.

(** Captures in the order of their opening parenthesis; the name is kept
    for named groups. *)
Definition captures := list (option string * string).

(** Line terminators are excluded by [.]: line feed and carriage return
    (U+2028 and U+2029 lie outside the 8-bit alphabet of this model). *)
Definition isLineTerminator (c : ascii) : bool :=
  Ascii.eqb c "010" || Ascii.eqb c "013".

Definition accepts (k : cclass) (c : ascii) : bool :=
  match k with
  | Dot => negb (isLineTerminator c)
  | NoneOf cs => negb (existsb (Ascii.eqb c) cs)
  end.

(** Literal text as a sequence of [Chr] nodes. *)
Fixpoint lit (w : string) : regexp :=
  match w with
  | EmptyString => []
  | String c w' => Chr c :: lit w'
  end.

(** Greedy repetition [k+] followed by the continuation [cont], which
    receives the repeated text and the rest of the input: one character
    is mandatory, longer repetitions are tried before shorter ones. *)
Fixpoint greedy {A} (k : cclass) (cont : string -> string -> option A)
    (s : string) : option A :=
  match s with
  | EmptyString => None
  | String c s' =>
      if accepts k c then
        match greedy k (fun x rest => cont (String c x) rest) s' with
        | Some r => Some r
        | None => cont (String c EmptyString) s'
        end
      else None
  end.

(** [matchHere r bol s caps]: match [r] against a prefix of [s]; [bol]
    tells whether [s] starts at index 0 of the input; [caps] are the
    captures so far, most recent first. *)
Fixpoint matchHere (r : regexp) (bol : bool) (s : string) (caps : captures)
    : option captures :=
  match r with
  | [] => Some (rev caps)
  | Chr c :: r' =>
      match s with
      | String d s' => if Ascii.eqb c d then matchHere r' false s' caps else None
      | EmptyString => None
      end
  | One k :: r' =>
      match s with
      | String d s' => if accepts k d then matchHere r' false s' caps else None
      | EmptyString => None
      end
  | Plus k :: r' =>
      greedy k (fun _ rest => matchHere r' false rest caps) s
  | Group name k :: r' =>
      greedy k (fun x rest => matchHere r' false rest ((name, x) :: caps)) s
  | Bol :: r' => if bol then matchHere r' bol s caps else None
  | Eol :: r' =>
      match s with
      | EmptyString => matchHere r' bol s caps
      | String _ _ => None
      end
  end.

(** Leftmost match: start indices are tried from 0 upwards. *)
Fixpoint search (r : regexp) (bol : bool) (s : string) : option captures :=
  match matchHere r bol s [] with
  | Some caps => Some caps
  | None =>
      match s with
      | EmptyString => None
      | String _ s' => search r false s'
      end
  end.

(** [re.exec(s)]: the captures of the leftmost match, or [None] for
    JavaScript's [null]. *)
Definition exec (r : regexp) (s : string) : option captures := search r true s.

(** [re.test(s)]. *)
Definition test (r : regexp) (s : string) : bool :=
  match exec r s with Some _ => true | None => false end.

(** [match[i]] for [i >= 1]. *)
Definition nthCapture (i : nat) (m : captures) : option string :=
  option_map snd (nth_error m (i - 1)).

(** [match.groups.name]. *)
Fixpoint namedCapture (name : string) (m : captures) : option string :=
  match m with
  | [] => None
  | (Some n, x) :: m' => if String.eqb n name then Some x else namedCapture name m'
  | (None, _) :: m' => namedCapture name m'
  end.

(** Declarative reading of the fragment: [Matches r bol s m] holds when a
    prefix of [s] matches [r] with captures [m]. *)
Inductive Matches : regexp -> bool -> string -> captures -> Prop :=
| M_nil bol s : Matches [] bol s []
| M_chr c r bol s m :
    Matches r false s m -> Matches (Chr c :: r) bol (String c s) m
| M_one k c r bol s m :
    accepts k c = true -> Matches r false s m ->
    Matches (One k :: r) bol (String c s) m
| M_plus k x r bol s m :
    x <> "" -> Str.all (accepts k) x = true -> Matches r false s m ->
    Matches (Plus k :: r) bol (x ++ s) m
| M_group name k x r bol s m :
    x <> "" -> Str.all (accepts k) x = true -> Matches r false s m ->
    Matches (Group name k :: r) bol (x ++ s) ((name, x) :: m)
| M_bol r s m : Matches r true s m -> Matches (Bol :: r) true s m
| M_eol r bol m : Matches r bol "" m -> Matches (Eol :: r) bol "" m.

End RegExp.

Import RegExp.

(** ** Constants and pure functions of the module *)

Record ConnectionNameParts : Type := mkParts {
  projectId : string;
  location : string;
  id : string
}.

(** [/.+\/apphosting-github-conn-.+$/] *)
Definition APPHOSTING_CONN_PATTERN : regexp :=
  ([Plus Dot] ++ lit "/apphosting-github-conn-" ++ [Plus Dot; Eol])%list.

Definition APPHOSTING_OAUTH_CONN_NAME : string := "apphosting-github-oauth".

(** [/^projects\/(?<projectId>[^\/]+)\/locations\/(?<location>[^\/]+)\/connections\/(?<id>[^\/]+)$/] *)
Definition CONNECTION_NAME_REGEX : regexp :=
  ([Bol] ++ lit "projects/" ++ [Group (Some "projectId") (NoneOf ["/"%char])]
   ++ lit "/locations/" ++ [Group (Some "location") (NoneOf ["/"%char])]
   ++ lit "/connections/" ++ [Group (Some "id") (NoneOf ["/"%char])]
   ++ [Eol])%list.

(** [parseConnectionName]: [undefined] is [None].  The second disjunct of
    the guard, [typeof match.groups === undefined], compares a string with
    [undefined] and is never true. *)
Definition parseConnectionName (name : string) : option ConnectionNameParts :=
  match exec CONNECTION_NAME_REGEX name with
  | None => None
  | Some m =>
      match namedCapture "projectId" m, namedCapture "location" m,
            namedCapture "id" m with
      | Some p, Some l, Some i => Some (mkParts p l i)
      | _, _, _ => None
      end
  end.

(** [/github.com\/(.+).git/]: both dots outside the group are unescaped. *)
Definition REPO_SLUG_REGEX : regexp :=
  (lit "github" ++ [One Dot] ++ lit "com/" ++ [Group None Dot; One Dot]
   ++ lit "git")%list.

Definition extractRepoSlugFromUri (cloneUri : string) : option string :=
  match exec REPO_SLUG_REGEX cloneUri with
  | None => None
  | Some m => nthCapture 1 m
  end.

Definition generateRepositoryId (remoteUri : string) : option string :=
  option_map (Str.replaceAll "/" "-") (extractRepoSlugFromUri remoteUri).

(** [generateConnectionId]: the argument [random36] stands for the text
    [Math.random().toString(36)], for instance ["0.4fzyo82mvyr"], or
    ["0.i"] when the generator returns one half. *)
Definition generateConnectionId (random36 : string) : string :=
  let randomHash := Str.slice 6 random36 in
  "apphosting-github-conn-" ++ randomHash.

(** ** Data model of the Developer Connect resources

    The declarations live in [gcp/devConnect]; the fields are those the
    module and its tests read and build.  The installation stage is a
    string at run time and is compared as such. *)

Record InstallationState : Type := mkInstallationState {
  stage : string;
  message : string;
  actionUri : string
}.

Record GitHubConfig : Type := mkGitHubConfig {
  authorizerCredential : option string;
  appInstallationId : option string
}.

Module Connection.
Record t : Type := mk {
  name : string;
  disabled : bool;
  createTime : string;
  updateTime : string;
  installationState : InstallationState;
  reconciling : bool;
  githubConfig : option GitHubConfig
}.
End Connection.
Abbreviation Connection := Connection.t.

Module GitRepositoryLink.
Record t : Type := mk {
  name : string;
  cloneUri : string;
  createTime : string;
  updateTime : string;
  deleteTime : string;
  reconciling : bool;
  uid : string
}.
End GitRepositoryLink.
Abbreviation GitRepositoryLink := GitRepositoryLink.t.

Module LinkableGitRepository.
Record t : Type := mk { cloneUri : string }.
End LinkableGitRepository.
Abbreviation LinkableGitRepository := LinkableGitRepository.t.

Module Operation.
Record t : Type := mk { name : string; done : bool }.
End Operation.
Abbreviation Operation := Operation.t.

Module poller.
Record OperationPollerOptions : Type := mkOptions {
  apiOrigin : string;
  apiVersion : string;
  masterTimeout : Z;
  maxBackoff : Z;
  pollerName : string;
  operationResourceName : string
}.
End poller.

(** The question handed to [promptOnce]. *)
Record Question : Type := mkQuestion { qtype : string; qmessage : string }.

(** ** Thrown values *)

(** An error object as the module sees it: its message and its [status]
    property, [None] when the object has none (a [TypeError], say). *)
Record JsError : Type := mkError {
  errName : string;
  errMessage : string;
  status : option Z
}.

(** The [TypeError] raised when [undefined] is destructured, as in
    [const { location, id } = parseConnectionName(conn.name)!]. *)
Definition TypeError : JsError := mkError "TypeError" "" None.

(** [err.status === n] *)
Definition statusIs (err : JsError) (n : Z) : bool :=
  match status err with
  | Some z => Z.eqb z n
  | None => false
  end.

(** A settled promise. *)
Inductive Settled (A : Type) : Type :=
| Resolved (a : A)
| Rejected (e : JsError).
Arguments Resolved {A} a.
Arguments Rejected {A} e.

(** ** Plain objects used as dictionaries

    [own] lists the own enumerable string-keyed properties in creation
    order.  Assigning to the key [__proto__] of an object created by [{}]
    runs the accessor inherited from [Object.prototype]: the value (an
    object) becomes the prototype and no own property is created.
    [Object.keys] lists array indices first, in ascending numeric order,
    then the other keys in creation order. *)

Module Obj.

Record t (V : Type) : Type := mk {
  prototype : option V;   (* [None]: [Object.prototype] *)
  own : list (string * V)
}.
Arguments mk {V}.
Arguments prototype {V}.
Arguments own {V}.

Definition empty {V} : t V := mk None [].

Fixpoint upsert {V} (k : string) (v : V) (l : list (string * V)) : list (string * V) :=
  match l with
  | [] => [(k, v)]
  | (k', v') :: l' =>
      if String.eqb k' k then (k', v) :: l' else (k', v') :: upsert k v l'
  end.

(** [o[k] = v] *)
Definition set {V} (k : string) (v : V) (o : t V) : t V :=
  if String.eqb k "__proto__" then mk (Some v) (own o)
  else mk (prototype o) (upsert k v (own o)).

Fixpoint assoc {V} (k : string) (l : list (string * V)) : option V :=
  match l with
  | [] => None
  | (k', v) :: l' => if String.eqb k' k then Some v else assoc k l'
  end.

(** The own property [k] of [o], if any. *)
Definition getOwn {V} (k : string) (o : t V) : option V := assoc k (own o).

Definition isDigit (c : ascii) : bool :=
  (48 <=? nat_of_ascii c)%nat && (nat_of_ascii c <=? 57)%nat.

Fixpoint decimal (acc : N) (s : string) : N :=
  match s with
  | EmptyString => acc
  | String c s' => decimal (acc * 10 + N.of_nat (nat_of_ascii c - 48)) s'
  end.

(** The array index denoted by a key: a canonical decimal numeral below
    [2^32 - 1]. *)
Definition arrayIndex (k : string) : option N :=
  match k with
  | EmptyString => None
  | String c k' =>
      if Str.all isDigit k && (negb (Ascii.eqb c "0") || String.eqb k' "")
      then let n := decimal 0 k in
           if (n <? 4294967295)%N then Some n else None
      else None
  end.

Fixpoint insertByIndex (n : N) (k : string) (l : list (N * string)) : list (N * string) :=
  match l with
  | [] => [(n, k)]
  | (n', k') :: l' =>
      if (n <=? n')%N then (n, k) :: l else (n', k') :: insertByIndex n k l'
  end.

Fixpoint indexKeys (ks : list string) : list (N * string) :=
  match ks with
  | [] => []
  | k :: ks' =>
      match arrayIndex k with
      | Some n => insertByIndex n k (indexKeys ks')
      | None => indexKeys ks'
      end
  end.

Definition isPlainKey (k : string) : bool :=
  match arrayIndex k with Some _ => false | None => true end.

(** [Object.keys(o)] *)
Definition keys {V} (o : t V) : list string :=
  let ks := map fst (own o) in
  (map snd (indexKeys ks) ++ filter isPlainKey ks)%list.

End Obj.

(** ** External collaborators and the calls made to them *)

(** One entry per call that leaves the module, with what it settled to. *)
Inductive Event : Type :=
| EGetConnection (projectId location connectionId : string)
    (r : Settled Connection)
| ECreateConnection (projectId location connectionId : string)
    (githubConfig : option GitHubConfig) (r : Settled Operation)
| EGetGitRepositoryLink (projectId location connectionId repositoryId : string)
    (r : Settled GitRepositoryLink)
| ECreateGitRepositoryLink
    (projectId location connectionId repositoryId cloneUri : string)
    (r : Settled Operation)
| EListAllConnections (projectId location : string)
    (r : Settled (list Connection))
| EListAllLinkableGitRepositories (projectId location connectionId : string)
    (r : Settled (list LinkableGitRepository))
| EPollConnection (options : poller.OperationPollerOptions)
    (r : Settled Connection)
| EPollRepository (options : poller.OperationPollerOptions)
    (r : Settled GitRepositoryLink)
| EPromptOnce (question : Question) (r : Settled string)
| EOpenInBrowser (uri : string) (r : Settled unit)
| EOpenInBrowserPopup (uri title : string) (r : Settled string)
| ECleanup
| ELogBullet (msg : string)
| ELogSuccess (msg : string).

(** The collaborators, over a state [W] of the outside world (remote
    service, human, browser): each call answers from the current state
    and moves it on.  [pollOperation<T>] is used at two result types. *)
Class Collaborators (W : Type) : Type := {
  devConnect_getConnection :
    string -> string -> string -> W -> Settled Connection * W;
  devConnect_createConnection :
    string -> string -> string -> option GitHubConfig -> W -> Settled Operation * W;
  devConnect_getGitRepositoryLink :
    string -> string -> string -> string -> W -> Settled GitRepositoryLink * W;
  devConnect_createGitRepositoryLink :
    string -> string -> string -> string -> string -> W -> Settled Operation * W;
  devConnect_listAllConnections :
    string -> string -> W -> Settled (list Connection) * W;
  devConnect_listAllLinkableGitRepositories :
    string -> string -> string -> W -> Settled (list LinkableGitRepository) * W;
  poller_pollConnection :
    poller.OperationPollerOptions -> W -> Settled Connection * W;
  poller_pollRepository :
    poller.OperationPollerOptions -> W -> Settled GitRepositoryLink * W;
  prompt_promptOnce : Question -> W -> Settled string * W;
  utils_openInBrowser : string -> W -> Settled unit * W;
  utils_openInBrowserPopup : string -> string -> W -> Settled string * W;
  developerConnectOrigin : string;
  JSON_stringify : Connection -> string;
  FirebaseError_defaultStatus : Z
}.

(** ** The monad of the module: world state, thrown values, call log *)

Inductive Outcome (A : Type) : Type :=
| Returned (a : A)
| Thrown (e : JsError)
| OutOfFuel.
Arguments Returned {A} a.
Arguments Thrown {A} e.
Arguments OutOfFuel {A}.

Definition M (W A : Type) : Type := W -> Outcome A * W * list Event.

Definition ret {W A} (a : A) : M W A := fun w => (Returned a, w, []).

Definition throw {W A} (e : JsError) : M W A := fun w => (Thrown e, w, []).

Definition bind {W A B} (m : M W A) (f : A -> M W B) : M W B :=
  fun w =>
    match m w with
    | (Returned a, w1, t1) =>
        let '(o, w2, t2) := f a w1 in (o, w2, (t1 ++ t2)%list)
    | (Thrown e, w1, t1) => (Thrown e, w1, t1)
    | (OutOfFuel, w1, t1) => (OutOfFuel, w1, t1)
    end.

(** [try { m } catch (err) { handler err }] *)
Definition tryCatch {W A} (m : M W A) (handler : JsError -> M W A) : M W A :=
  fun w =>
    match m w with
    | (Thrown e, w1, t1) =>
        let '(o, w2, t2) := handler e w1 in (o, w2, (t1 ++ t2)%list)
    | r => r
    end.

(** [await] of a collaborator call: log it, continue or throw. *)
Definition call {W A} (oracle : W -> Settled A * W) (record : Settled A -> Event)
    : M W A :=
  fun w =>
    let '(r, w') := oracle w in
    match r with
    | Resolved a => (Returned a, w', [record r])
    | Rejected e => (Thrown e, w', [record r])
    end.

(** A call that cannot fail and returns nothing. *)
Definition emit {W} (e : Event) : M W unit := fun w => (Returned tt, w, [e]).

Declare Scope js_scope.
Delimit Scope js_scope with js.
Notation "x <- m ;; k" := (bind m (fun x => k))
  (at level 61, m at next level, right associativity) : js_scope.
Notation "m ;; k" := (bind m (fun _ => k))
  (at level 61, right associativity) : js_scope.
Open Scope js_scope.

(** Control flow out of a loop body: go on with the loop variables [s],
    or leave the enclosing function with [return a]. *)
Inductive Flow (S A : Type) : Type :=
| Next (s : S)
| Return (a : A).
Arguments Next {S A} s.
Arguments Return {S A} a.

(** [while (cond) { body }] over loop variables [s]; [fuel] bounds the
    number of iterations the model follows. *)
Fixpoint while {W S A} (fuel : nat) (cond : S -> bool)
    (body : S -> M W (Flow S A)) (s : S) : M W (Flow S A) :=
  if cond s then
    match fuel with
    | O => fun w => (OutOfFuel, w, [])
    | Datatypes.S fuel' =>
        f <- body s ;;
        match f with
        | Next s' => while fuel' cond body s'
        | Return a => ret (Return a)
        end
    end
  else ret (Next s).

(** [for (const x of xs) { body }] over loop variables [s]. *)
Fixpoint forOf {W X S} (xs : list X) (body : X -> S -> M W S) (s : S) : M W S :=
  match xs with
  | [] => ret s
  | x :: xs' => s' <- body x s ;; forOf xs' body s'
  end.

(** ** The functions of the module *)

Section Provisioning.

Context {W : Type} {env : Collaborators W}.

(** [await devConnect.getConnection(projectId, location, connectionId)] *)
Definition getConnection (projectId location connectionId : string)
    : M W Connection :=
  call (devConnect_getConnection projectId location connectionId)
       (EGetConnection projectId location connectionId).

Definition logBullet (msg : string) : M W unit := emit (ELogBullet msg).

Definition promptOnce (q : Question) : M W string :=
  call (prompt_promptOnce q) (EPromptOnce q).

(** [new FirebaseError(message)] *)
Definition FirebaseError (message : string) : JsError :=
  mkError "FirebaseError" message (Some FirebaseError_defaultStatus).

Definition devConnectPollerOptions (pollerName operationResourceName : string)
    : poller.OperationPollerOptions :=
  poller.mkOptions developerConnectOrigin "v1" (25 * 60 * 1000) 10000
    pollerName operationResourceName.

Definition createConnection (projectId location connectionId : string)
    (githubConfig : option GitHubConfig) : M W Connection :=
  op <- call (devConnect_createConnection projectId location connectionId githubConfig)
             (ECreateConnection projectId location connectionId githubConfig) ;;
  let options :=
    devConnectPollerOptions ("create-" ++ location ++ "-" ++ connectionId)
      (Operation.name op) in
  conn <- call (poller_pollConnection options) (EPollConnection options) ;;
  ret conn.

Definition getOrCreateConnection (projectId location connectionId : string)
    (githubConfig : option GitHubConfig) : M W Connection :=
  conn <- tryCatch (getConnection projectId location connectionId)
            (fun err =>
               if statusIs err 404 then
                 logBullet "creating connection" ;;
                 createConnection projectId location connectionId githubConfig
               else throw err) ;;
  ret conn.

(** The double-quote character. *)
Definition dquote : ascii := "034".

(** The string behind a truthy [string | undefined]: [undefined] and the
    empty string are falsy, so [!repositoryId] holds for both. *)
Definition truthy (v : option string) : option string :=
  match v with
  | Some x => if String.eqb x "" then None else Some x
  | None => None
  end.

Definition getOrCreateRepository (projectId location connectionId cloneUri : string)
    : M W GitRepositoryLink :=
  match truthy (generateRepositoryId cloneUri) with
  | None =>
      throw (FirebaseError
               ("Failed to generate repositoryId for URI " ++ String dquote cloneUri
                  ++ String dquote "."))
  | Some repositoryId =>
      repo <- tryCatch
                (call (devConnect_getGitRepositoryLink projectId location
                         connectionId repositoryId)
                      (EGetGitRepositoryLink projectId location connectionId
                         repositoryId))
                (fun err =>
                   if statusIs err 404 then
                     op <- call (devConnect_createGitRepositoryLink projectId
                                   location connectionId repositoryId cloneUri)
                                (ECreateGitRepositoryLink projectId location
                                   connectionId repositoryId cloneUri) ;;
                     let options :=
                       devConnectPollerOptions
                         ("create-" ++ location ++ "-" ++ connectionId ++ "-"
                            ++ repositoryId)
                         (Operation.name op) in
                     call (poller_pollRepository options) (EPollRepository options)
                   else throw err) ;;
      ret repo
  end.

(** The loop is written [while (stage !== "COMPLETE") { ...; return ... }]. *)
Definition ensureFullyInstalledConnection (fuel : nat)
    (projectId location connectionId : string) (oauthConn : Connection)
    : M W Connection :=
  f <- while fuel
         (fun _ : unit =>
            negb (String.eqb
                    (stage (Connection.installationState oauthConn)) "COMPLETE"))
         (fun _ =>
            logBullet
              "Install the Firebase GitHub app to enable access to GitHub repositories" ;;
            let targetUri :=
              Str.replace "install_v2" "direct_install_v2"
                (actionUri (Connection.installationState oauthConn)) in
            logBullet targetUri ;;
            call (utils_openInBrowser targetUri) (EOpenInBrowser targetUri) ;;
            let q :=
              mkQuestion "input"
                "Press Enter once you have installed or configured the Firebase GitHub app to access your GitHub repo." in
            promptOnce q ;;
            conn <- getConnection projectId location connectionId ;;
            ret (Return conn))
         tt ;;
  match f with
  | Return conn => ret conn
  | Next _ => ret oauthConn
  end.

Definition getOrCreateOauthConnection (fuel : nat) (projectId location : string)
    : M W Connection :=
  conn <- getOrCreateConnection projectId location APPHOSTING_OAUTH_CONN_NAME None ;;
  logBullet ("debug: connection from getOrCreateConnection: " ++ JSON_stringify conn) ;;
  f <- while fuel
         (fun conn : Connection =>
            String.eqb (stage (Connection.installationState conn))
              "PENDING_USER_OAUTH")
         (fun conn =>
            logBullet "You must authorize the Firebase GitHub app." ;;
            logBullet "Sign in to GitHub and authorize Firebase GitHub app:" ;;
            let uri := actionUri (Connection.installationState conn) in
            url <- call (utils_openInBrowserPopup uri "Authorize the GitHub app")
                        (EOpenInBrowserPopup uri "Authorize the GitHub app") ;;
            logBullet (String "009" url) ;;
            promptOnce (mkQuestion "input" "Press Enter once you have authorized the app") ;;
            emit ECleanup ;;
            match parseConnectionName (Connection.name conn) with
            | None => throw TypeError
            | Some (mkParts projectId location id) =>
                conn' <- getConnection projectId location id ;;
                ret (Next conn')
            end)
         conn ;;
  match f with
  | Return conn => ret conn
  | Next conn => ret conn
  end.

Definition isAppHostingConnection (conn : Connection) : bool :=
  test APPHOSTING_CONN_PATTERN (Connection.name conn)
  && String.eqb (stage (Connection.installationState conn)) "COMPLETE"
  && negb (Connection.disabled conn).

Definition listAppHostingConnections (projectId : string) : M W (list Connection) :=
  conns <- call (devConnect_listAllConnections projectId "-")
                (EListAllConnections projectId "-") ;;
  ret (filter isAppHostingConnection conns).

Definition fetchAllRepositories (projectId : string) (connections : list Connection)
    : M W (list string * Obj.t Connection) :=
  cloneUriToConnection <-
    forOf connections
      (fun conn cloneUriToConnection =>
         match parseConnectionName (Connection.name conn) with
         | None => throw TypeError
         | Some (mkParts _ location id) =>
             connectionRepos <-
               call (devConnect_listAllLinkableGitRepositories projectId location id)
                    (EListAllLinkableGitRepositories projectId location id) ;;
             ret (fold_left
                    (fun o repo => Obj.set (LinkableGitRepository.cloneUri repo) conn o)
                    connectionRepos cloneUriToConnection)
         end)
      Obj.empty ;;
  ret (Obj.keys cloneUriToConnection, cloneUriToConnection).

End Provisioning.

(** ** Vocabulary of the statements *)

(** The canonical resource name
    [projects/{projectId}/locations/{location}/connections/{id}]. *)
Definition connectionName (p l c : string) : string :=
  "projects/" ++ p ++ "/locations/" ++ l ++ "/connections/" ++ c.

Definition slashFree (x : string) : Prop := Str.contains "/" x = false.

(** A well-formed connection name: three non-empty, slash-free parts. *)
Definition wellFormedName (s : string) (parts : ConnectionNameParts) : Prop :=
  s = connectionName (projectId parts) (location parts) (id parts)
  /\ projectId parts <> "" /\ location parts <> "" /\ id parts <> ""
  /\ slashFree (projectId parts) /\ slashFree (location parts)
  /\ slashFree (id parts).

(** Free of line terminators. *)
Definition lineFree (x : string) : Prop :=
  Str.all (fun c => negb (isLineTerminator c)) x = true.

(** A fetch URL, as the clone URI of a repository is one: a scheme, the
    separator [://], and the rest. *)
Definition fetchUrl (uri : string) : Prop :=
  exists scheme rest, uri = scheme ++ "://" ++ rest.

(** The shape [.../owner/repo.git] of a clone URL. *)
Definition cloneUrlShape (s : string) : Prop :=
  exists pre owner repo,
    s = pre ++ "/" ++ owner ++ "/" ++ repo ++ ".git"
    /\ owner <> "" /\ repo <> "" /\ slashFree owner /\ slashFree repo.

(** [slugOccurrence s slug]: in [s] the text [slug], non-empty and free of
    line terminators, stands after [github], one character and [com/], and
    before one character and [git]. *)
Definition slugOccurrence (s slug : string) : Prop :=
  exists pre c c' post,
    s = pre ++ "github" ++ String c ("com/" ++ slug ++ String c' ("git" ++ post))
    /\ isLineTerminator c = false /\ isLineTerminator c' = false
    /\ slug <> "" /\ lineFree slug.

(** [s] holds the text [github.com/slug.git]. *)
Definition dottedSlugOccurrence (s slug : string) : Prop :=
  exists pre post,
    s = pre ++ "github.com/" ++ slug ++ ".git" ++ post
    /\ slug <> "" /\ lineFree slug.

(** What [APPHOSTING_CONN_PATTERN] looks for: the text
    [/apphosting-github-conn-] with at least one character before it, on
    its line, and a non-empty rest of the input free of line terminators
    after it. *)
Definition appHostingOccurrence (s : string) : Prop :=
  exists pre a b,
    s = pre ++ a ++ "/apphosting-github-conn-" ++ b
    /\ a <> "" /\ lineFree a /\ b <> "" /\ lineFree b.

(** The error a call was rejected with, if it was. *)
Definition rejectionOf {A} (r : Settled A) : option JsError :=
  match r with
  | Resolved _ => None
  | Rejected e => Some e
  end.

Definition rejection (ev : Event) : option JsError :=
  match ev with
  | EGetConnection _ _ _ r => rejectionOf r
  | ECreateConnection _ _ _ _ r => rejectionOf r
  | EGetGitRepositoryLink _ _ _ _ r => rejectionOf r
  | ECreateGitRepositoryLink _ _ _ _ _ r => rejectionOf r
  | EListAllConnections _ _ r => rejectionOf r
  | EListAllLinkableGitRepositories _ _ _ r => rejectionOf r
  | EPollConnection _ r => rejectionOf r
  | EPollRepository _ r => rejectionOf r
  | EPromptOnce _ r => rejectionOf r
  | EOpenInBrowser _ r => rejectionOf r
  | EOpenInBrowserPopup _ _ r => rejectionOf r
  | ECleanup | ELogBullet _ | ELogSuccess _ => None
  end.

(** The rejection recorded by the last call of a log. *)
Definition lastRejection (tr : list Event) : option JsError :=
  match rev tr with
  | ev :: _ => rejection ev
  | [] => None
  end.

Definition isCreate (ev : Event) : bool :=
  match ev with
  | ECreateConnection _ _ _ _ _ | ECreateGitRepositoryLink _ _ _ _ _ _ => true
  | _ => false
  end.

Definition isFetch (ev : Event) : bool :=
  match ev with
  | EGetConnection _ _ _ _ => true
  | _ => false
  end.

Definition isPrompt (ev : Event) : bool :=
  match ev with
  | EPromptOnce _ _ => true
  | _ => false
  end.

Definition stageOf (conn : Connection) : string :=
  stage (Connection.installationState conn).

(** ** A scripted outside world

    The stubs of the unit tests: every collaborator answers from a
    script, [getConnection], [listAllLinkableGitRepositories] and
    [promptOnce] by the rank of the call. *)

Record Stubs : Type := mkStubs {
  getConnectionStub : nat -> Settled Connection;
  createConnectionStub : Settled Operation;
  pollConnectionStub : Settled Connection;
  getRepositoryStub : Settled GitRepositoryLink;
  createRepositoryStub : Settled Operation;
  pollRepositoryStub : Settled GitRepositoryLink;
  listConnectionsStub : Settled (list Connection);
  fetchLinkableRepositoriesStub : nat -> Settled (list LinkableGitRepository);
  promptOnceStub : nat -> Settled string
}.

(** Calls made so far to the three ranked stubs. *)
Record StubWorld : Type := mkWorld {
  getConnectionCalls : nat;
  fetchLinkableCalls : nat;
  promptCalls : nat
}.

Definition freshWorld : StubWorld := mkWorld 0 0 0.

Definition unexpected {A} (what : string) : Settled A :=
  Rejected (mkError ("Unexpected " ++ what ++ " call") "" None).

#[local] Instance stubbed (st : Stubs) : Collaborators StubWorld := {
  devConnect_getConnection _ _ _ w :=
    (getConnectionStub st (getConnectionCalls w),
     mkWorld (S (getConnectionCalls w)) (fetchLinkableCalls w) (promptCalls w));
  devConnect_createConnection _ _ _ _ w := (createConnectionStub st, w);
  devConnect_getGitRepositoryLink _ _ _ _ w := (getRepositoryStub st, w);
  devConnect_createGitRepositoryLink _ _ _ _ _ w := (createRepositoryStub st, w);
  devConnect_listAllConnections _ _ w := (listConnectionsStub st, w);
  devConnect_listAllLinkableGitRepositories _ _ _ w :=
    (fetchLinkableRepositoriesStub st (fetchLinkableCalls w),
     mkWorld (getConnectionCalls w) (S (fetchLinkableCalls w)) (promptCalls w));
  poller_pollConnection _ w := (pollConnectionStub st, w);
  poller_pollRepository _ w := (pollRepositoryStub st, w);
  prompt_promptOnce _ w :=
    (promptOnceStub st (promptCalls w),
     mkWorld (getConnectionCalls w) (fetchLinkableCalls w) (S (promptCalls w)));
  utils_openInBrowser _ w := (Resolved tt, w);
  utils_openInBrowserPopup uri _ w := (Resolved uri, w);
  developerConnectOrigin := "https://developerconnect.googleapis.com";
  JSON_stringify conn := Connection.name conn;
  FirebaseError_defaultStatus := 500%Z
}.

(** The stubs installed by [beforeEach]. *)
Definition defaultStubs : Stubs :=
  mkStubs (fun _ => unexpected "getConnection")
    (unexpected "createConnection") (unexpected "pollOperation")
    (unexpected "getGitRepositoryLink") (unexpected "createGitRepositoryLink")
    (unexpected "pollOperation") (unexpected "listAllConnections")
    (fun _ => unexpected "listAllLinkableGitRepositories")
    (fun _ => unexpected "promptOnce").

(** Fixtures of the unit tests. *)
Definition mockConnAt (stage id : string) : Connection :=
  Connection.mk (connectionName "projectId" "us-central1" id) false "0" "1"
    (mkInstallationState stage "complete" "https://google.com") false None.

Definition mockConn (id : string) : Connection := mockConnAt "COMPLETE" id.

Definition pendingConn : Connection :=
  Connection.mk (connectionName "projectId" "us-central1" "apphosting-us-central1")
    false "0" "1"
    (mkInstallationState "PENDING_USER_OAUTH" "pending" "https://google.com")
    false None.

Definition completeConn : Connection := mockConn "apphosting-us-central1".

Definition mockOp : Operation :=
  Operation.mk (connectionName "projectId" "us-central1" "apphosting-us-central1") true.

Definition mockRepo (name : string) : GitRepositoryLink :=
  GitRepositoryLink.mk name ("https://github.com/test/" ++ name ++ ".git") "" "" ""
    false "".

Definition notFound : JsError := mkError "FirebaseError" "error" (Some 404%Z).

(** The calls of one pass of the authorisation loop of
    [getOrCreateOauthConnection] on [conn]: the action URI is surfaced in a
    popup, the human confirms, and the connection is fetched again by the
    parts of its name. *)
Definition oauthRound (conn : Connection) (url answer : string)
    (parts : ConnectionNameParts) (r : Settled Connection) : list Event :=
  [ELogBullet "You must authorize the Firebase GitHub app.";
   ELogBullet "Sign in to GitHub and authorize Firebase GitHub app:";
   EOpenInBrowserPopup (actionUri (Connection.installationState conn))
     "Authorize the GitHub app" (Resolved url);
   ELogBullet (String "009" url);
   EPromptOnce (mkQuestion "input" "Press Enter once you have authorized the app")
     (Resolved answer);
   ECleanup;
   EGetConnection (projectId parts) (location parts) (id parts) r].

(** [OauthRounds conn tr conn']: the log [tr] is a sequence of passes, each
    on a connection pending user authorisation, leading from [conn] to a
    connection [conn'] that is not. *)
Inductive OauthRounds : Connection -> list Event -> Connection -> Prop :=
| rounds_done conn :
    stageOf conn <> "PENDING_USER_OAUTH" -> OauthRounds conn [] conn
| rounds_next conn url answer parts conn' tr conn'' :
    stageOf conn = "PENDING_USER_OAUTH" ->
    parseConnectionName (Connection.name conn) = Some parts ->
    OauthRounds conn' tr conn'' ->
    OauthRounds conn (oauthRound conn url answer parts (Resolved conn') ++ tr)%list
      conn''.

(** ** Repository discovery *)

Definition repoUris (repos : list LinkableGitRepository) : list string :=
  map LinkableGitRepository.cloneUri repos.

(** The assignments [cloneUriToConnection[repo.cloneUri] = conn] in the
    order in which they are made, given what each connection listed. *)
Definition assignments (cl : list (Connection * list LinkableGitRepository))
    : list (string * Connection) :=
  flat_map (fun '(conn, repos) => map (fun uri => (uri, conn)) (repoUris repos)) cl.




(** The log of a discovery in which connection after connection answered
    with its listing. *)
Definition listingEvents (projectId : string)
    (cl : list (Connection * list LinkableGitRepository)) : list Event :=
  flat_map
    (fun '(conn, repos) =>
       match parseConnectionName (Connection.name conn) with
       | Some parts =>
           [EListAllLinkableGitRepositories projectId (location parts) (id parts)
              (Resolved repos)]
       | None => []
       end)
    cl.


(** Scripts of the runs examined below. *)

(** Not found, then created: the poll resolves to a connection that still
    awaits user authorisation; a later fetch finds it complete. *)
Definition createsPendingStubs (pending complete : Connection) : Stubs :=
  mkStubs
    (fun n => match n with O => Rejected notFound | _ => Resolved complete end)
    (Resolved mockOp) (Resolved pending)
    (getRepositoryStub defaultStubs) (createRepositoryStub defaultStubs)
    (pollRepositoryStub defaultStubs) (listConnectionsStub defaultStubs)
    (fetchLinkableRepositoriesStub defaultStubs)
    (fun _ => Resolved "any key").

(** Every fetch of a connection resolves to [conn]. *)
Definition foundStubs (conn : Connection) : Stubs :=
  mkStubs (fun _ => Resolved conn)
    (createConnectionStub defaultStubs) (pollConnectionStub defaultStubs)
    (getRepositoryStub defaultStubs) (createRepositoryStub defaultStubs)
    (pollRepositoryStub defaultStubs) (listConnectionsStub defaultStubs)
    (fetchLinkableRepositoriesStub defaultStubs)
    (fun _ => Resolved "any key").

(** Every fetch of a connection is rejected with [err]. *)
Definition failingStubs (err : JsError) : Stubs :=
  mkStubs (fun _ => Rejected err)
    (createConnectionStub defaultStubs) (pollConnectionStub defaultStubs)
    (getRepositoryStub defaultStubs) (createRepositoryStub defaultStubs)
    (pollRepositoryStub defaultStubs) (listConnectionsStub defaultStubs)
    (fetchLinkableRepositoriesStub defaultStubs) (promptOnceStub defaultStubs).

(** The project lists [conns]. *)
Definition listingStubs (conns : list Connection) : Stubs :=
  mkStubs (getConnectionStub defaultStubs)
    (createConnectionStub defaultStubs) (pollConnectionStub defaultStubs)
    (getRepositoryStub defaultStubs) (createRepositoryStub defaultStubs)
    (pollRepositoryStub defaultStubs) (Resolved conns)
    (fetchLinkableRepositoriesStub defaultStubs) (promptOnceStub defaultStubs).

(** The n-th listing call resolves to the n-th listing. *)
Definition discoveryStubs (listings : list (list LinkableGitRepository)) : Stubs :=
  mkStubs (getConnectionStub defaultStubs)
    (createConnectionStub defaultStubs) (pollConnectionStub defaultStubs)
    (getRepositoryStub defaultStubs) (createRepositoryStub defaultStubs)
    (pollRepositoryStub defaultStubs) (listConnectionsStub defaultStubs)
    (fun n => match nth_error listings n with
              | Some repos => Resolved repos
              | None => unexpected "listAllLinkableGitRepositories"
              end)
    (promptOnceStub defaultStubs).

Definition linkable (name : string) : LinkableGitRepository :=
  LinkableGitRepository.mk (GitRepositoryLink.cloneUri (mockRepo name)).

Definition internalError : JsError := mkError "FirebaseError" "backend error" (Some 500%Z).

(** The sentinel connection at a given stage, and the same in a project
    whose id starts like a generated connection id. *)
Definition sentinelAt (stage : string) : Connection :=
  mockConnAt stage APPHOSTING_OAUTH_CONN_NAME.

Definition sentinelInOddProject : Connection :=
  Connection.mk
    (connectionName "apphosting-github-conn-x" "us-central1" APPHOSTING_OAUTH_CONN_NAME)
    false "0" "1" (mkInstallationState "COMPLETE" "complete" "https://google.com")
    false None.

(** ** Further vocabulary: counting calls in a log *)

Definition count (p : Event -> bool) (tr : list Event) : nat :=
  length (filter p tr).

Definition isPoll (ev : Event) : bool :=
  match ev with
  | EPollConnection _ _ | EPollRepository _ _ => true
  | _ => false
  end.

Definition isCreated (ev : Event) : bool :=
  match ev with
  | ECreateConnection _ _ _ _ (Resolved _)
  | ECreateGitRepositoryLink _ _ _ _ _ (Resolved _) => true
  | _ => false
  end.

Definition isPopupOpened (ev : Event) : bool :=
  match ev with
  | EOpenInBrowserPopup _ _ (Resolved _) => true
  | _ => false
  end.

Definition isPromptAnswered (ev : Event) : bool :=
  match ev with
  | EPromptOnce _ (Resolved _) => true
  | _ => false
  end.

Definition isCleanup (ev : Event) : bool :=
  match ev with
  | ECleanup => true
  | _ => false
  end.

Definition isBrowser (ev : Event) : bool :=
  match ev with
  | EOpenInBrowser _ _ | EOpenInBrowserPopup _ _ _ => true
  | _ => false
  end.

Definition isListing (ev : Event) : bool :=
  match ev with
  | EListAllLinkableGitRepositories _ _ _ _ => true
  | _ => false
  end.

(** No run of [m] makes a call of the kind [p]. *)
Definition silent (p : Event -> bool) {W A} (m : M W A) : Prop :=
  forall w, count p (snd (m w)) = 0.

(** ** The remaining functions of the module *)

Section Installation.

Context {W : Type} {env : Collaborators W}.

(** [oauthConn.githubConfig?.authorizerCredential] *)
Definition credentialOf (conn : Connection) : option string :=
  match Connection.githubConfig conn with
  | Some config => authorizerCredential config
  | None => None
  end.

(** [connection.githubConfig?.appInstallationId] *)
Definition installationIdOf (conn : Connection) : option string :=
  match Connection.githubConfig conn with
  | Some config => appInstallationId config
  | None => None
  end.

Definition createFullyInstalledConnection (fuel : nat)
    (projectId location connectionId : string) (oauthConn : Connection)
    : M W Connection :=
  logBullet "debug: creating fully installed connection" ;;
  conn <- createConnection projectId location connectionId
            (Some (mkGitHubConfig (credentialOf oauthConn) None)) ;;
  conn <- ensureFullyInstalledConnection fuel projectId location connectionId conn ;;
  logBullet ("created connection: " ++ JSON_stringify conn) ;;
  ret conn.

End Installation.

(** ** The orchestration layer

    [linkGitHubRepository] and its helpers reach collaborators the
    provisioners do not use: the resource manager, the project-number
    lookup, prompts answering with a boolean or with a choice, the random
    generator and the terminal colours.  Their calls are logged beside the
    calls of the provisioners. *)

Inductive FlowEvent : Type :=
| ECore (ev : Event)
| EGetProjectNumber (projectId : string) (r : Settled string)
| EServiceAccountHasRoles (projectId email : string) (roles : list string)
    (fourth : bool) (r : Settled bool)
| EAddServiceAccountToRoles (projectId email : string) (roles : list string)
    (fourth : bool) (r : Settled unit)
| EPromptConfirm (question : Question) (r : Settled bool)
| EPromptAutocomplete (name message : string) (cloneUris : list string)
    (r : Settled string)
| EMathRandom (random36 : string).

(** [promptOnce] is used here at two more result types; of the
    [autocomplete] question the collaborator receives the name, the
    message and the clone URIs its [source] callback closes over (the
    fuzzy filtering and the rendering of the choices are the prompt's).
    [Math_random36] stands for [Math.random().toString(36)]. *)
Class FlowCollaborators (W : Type) : Type := {
  getProjectNumber : string -> W -> Settled string * W;
  devConnect_serviceAgentEmail : string -> string;
  rm_serviceAccountHasRoles :
    string -> string -> list string -> bool -> W -> Settled bool * W;
  rm_addServiceAccountToRoles :
    string -> string -> list string -> bool -> W -> Settled unit * W;
  prompt_promptOnceConfirm : Question -> W -> Settled bool * W;
  prompt_promptOnceAutocomplete :
    string -> string -> list string -> W -> Settled string * W;
  Math_random36 : W -> string * W;
  clc_bold : string -> string;
  clc_yellow : string -> string
}.

Definition F (W A : Type) : Type := W -> Outcome A * W * list FlowEvent.

Definition retF {W A} (a : A) : F W A := fun w => (Returned a, w, []).

Definition throwF {W A} (e : JsError) : F W A := fun w => (Thrown e, w, []).

Definition bindF {W A B} (m : F W A) (f : A -> F W B) : F W B :=
  fun w =>
    match m w with
    | (Returned a, w1, t1) =>
        let '(o, w2, t2) := f a w1 in (o, w2, (t1 ++ t2)%list)
    | (Thrown e, w1, t1) => (Thrown e, w1, t1)
    | (OutOfFuel, w1, t1) => (OutOfFuel, w1, t1)
    end.

Definition callF {W A} (oracle : W -> Settled A * W) (record : Settled A -> FlowEvent)
    : F W A :=
  fun w =>
    let '(r, w') := oracle w in
    match r with
    | Resolved a => (Returned a, w', [record r])
    | Rejected e => (Thrown e, w', [record r])
    end.

(** A provisioner run inside the orchestration. *)
Definition lift {W A} (m : M W A) : F W A :=
  fun w => let '(o, w', tr) := m w in (o, w', map ECore tr).

Declare Scope flow_scope.
Delimit Scope flow_scope with flow.
Notation "x <- m ;; k" := (bindF m (fun x => k))
  (at level 61, m at next level, right associativity) : flow_scope.
Notation "m ;; k" := (bindF m (fun _ => k))
  (at level 61, right associativity) : flow_scope.

(** [do { body } while (cond)]: [body] sees the result of the previous
    pass, if any; [fuel] bounds the number of passes the model follows. *)
Fixpoint doWhile {W S R} (fuel : nat) (body : option R -> S -> F W (S * R))
    (cond : R -> bool) (prev : option R) (s : S) : F W (S * R) :=
  match fuel with
  | O => fun w => (OutOfFuel, w, [])
  | Datatypes.S fuel' =>
      bindF (body prev s)
        (fun sr =>
           if cond (snd sr) then doWhile fuel' body cond (Some (snd sr)) (fst sr)
           else retF sr)
  end.

(** [cloneUriToConnection[cloneUri]] as far as it yields a connection: an
    own property, or the prototype when the key is [__proto__] and an
    earlier assignment replaced it.  Every other outcome of the lookup is
    [undefined] or an inherited value that is no connection (a field of
    the prototype, a method of [Object.prototype]), whose [name] is never
    a connection name; [None] stands for all of them. *)
Definition lookupConnection (cloneUri : string) (o : Obj.t Connection)
    : option Connection :=
  match Obj.getOwn cloneUri o with
  | Some conn => Some conn
  | None => if String.eqb cloneUri "__proto__" then Obj.prototype o else None
  end.

Definition ADD_CONN_CHOICE : string := "@ADD_CONN".

Definition NL : string := String "010" "".
Definition TAB : string := String "009" "".
Definition BACKSLASH : string := String "092" "".
Definition DQUOTE : string := String "034" "".

Section Orchestration.

Context {W : Type} {env : Collaborators W} {flow : FlowCollaborators W}.

Local Open Scope flow_scope.

Definition random36 : F W string :=
  fun w => let '(r, w') := Math_random36 w in (Returned r, w', [EMathRandom r]).

Definition promptRepositoryUri (projectId : string) (connections : list Connection)
    : F W (string * option Connection) :=
  fetched <- lift (fetchAllRepositories projectId connections) ;;
  let cloneUris := fst fetched in
  let cloneUriToConnection := snd fetched in
  let message := "Which of the following repositories would you like to deploy?" in
  cloneUri <- callF (prompt_promptOnceAutocomplete "cloneUri" message cloneUris)
                (EPromptAutocomplete "cloneUri" message cloneUris) ;;
  retF (cloneUri, lookupConnection cloneUri cloneUriToConnection).

Definition ensureSecretManagerAdminGrant (projectId : string) : F W unit :=
  projectNumber <- callF (getProjectNumber projectId) (EGetProjectNumber projectId) ;;
  let dcsaEmail := devConnect_serviceAgentEmail projectNumber in
  let roles := ["roles/secretmanager.admin"] in
  alreadyGranted <-
    callF (rm_serviceAccountHasRoles projectId dcsaEmail roles true)
      (EServiceAccountHasRoles projectId dcsaEmail roles true) ;;
  if alreadyGranted : bool then
    lift (logBullet "secret manager admin role already granted") ;;
    retF tt
  else
    lift (logBullet
            "To create a new GitHub connection, Secret Manager Admin role (roles/secretmanager.admin) is required on the Developer Connect Service Agent.") ;;
    let q :=
      mkQuestion "confirm"
        "Grant the required role to the Developer Connect Service Agent?" in
    grant <- callF (prompt_promptOnceConfirm q) (EPromptConfirm q) ;;
    if negb grant then
      lift (logBullet
              (("You, or your project administrator, should run the following command to grant the required role:"
                  ++ NL ++ NL)
               ++ ("You, or your project adminstrator, can run the following command to grant the required role manually:"
                     ++ NL ++ NL)
               ++ (TAB ++ "gcloud projects add-iam-policy-binding " ++ projectId
                     ++ " " ++ BACKSLASH ++ NL)
               ++ (TAB ++ "  --member=" ++ DQUOTE ++ "serviceAccount:" ++ dcsaEmail
                     ++ " " ++ BACKSLASH ++ NL)
               ++ (TAB ++ "  --role=" ++ DQUOTE ++ "roles/secretmanager.admin" ++ NL))) ;;
      throwF (FirebaseError
                "Insufficient IAM permissions to create a new connection to GitHub")
    else
      callF (rm_addServiceAccountToRoles projectId dcsaEmail roles true)
        (EAddServiceAccountToRoles projectId dcsaEmail roles true) ;;
      lift (emit (ELogSuccess
                    "Successfully granted the required role to the Develooper Connect Service Agent!")) ;;
      retF tt.

(** [linkGitHubRepository] is given in three steps, in the order of its
    body, and then as a whole.  First step: with no eligible connection,
    the grant is ensured and [ensureFullyInstalledConnection] is run on
    the sentinel under a fresh id; its result joins the list. *)
Definition seedConnections (fuelInstall : nat) (projectId location : string)
    (oauthConn : Connection) (existingConns : list Connection)
    : F W (list Connection) :=
  if Nat.eqb (length existingConns) 0 then
    lift (logBullet "no connections exist") ;;
    ensureSecretManagerAdminGrant projectId ;;
    r <- random36 ;;
    conn <- lift (ensureFullyInstalledConnection fuelInstall projectId location
                    (generateConnectionId r) oauthConn) ;;
    retF (existingConns ++ [conn])%list
  else retF existingConns.

(** One pass of the selection loop: after the choice [ADD_CONN_CHOICE] a
    connection is created under a fresh id and joins the list; then the
    user is asked. *)
Definition selectionPass (fuelInstall : nat) (projectId location : string)
    (oauthConn : Connection) (prev : option (string * option Connection))
    (existingConns : list Connection)
    : F W (list Connection * (string * option Connection)) :=
  existingConns <-
    (if match prev with
        | Some (repoCloneUri, _) => String.eqb repoCloneUri ADD_CONN_CHOICE
        | None => false
        end
     then
       r <- random36 ;;
       conn <- lift (createFullyInstalledConnection fuelInstall projectId
                       location (generateConnectionId r) oauthConn) ;;
       retF (existingConns ++ [conn])%list
     else retF existingConns) ;;
  selection <- promptRepositoryUri projectId existingConns ;;
  retF (existingConns, selection).

(** Second step: [do { ... } while (repoCloneUri === ADD_CONN_CHOICE)]. *)
Definition selectRepository (fuelInstall fuelSelect : nat)
    (projectId location : string) (oauthConn : Connection)
    (existingConns : list Connection)
    : F W (list Connection * (string * option Connection)) :=
  doWhile fuelSelect (selectionPass fuelInstall projectId location oauthConn)
    (fun selection => String.eqb (fst selection) ADD_CONN_CHOICE)
    None existingConns.

(** Third step: the selected connection is ensured in the location of the
    backend, under its own id and with its own credentials, and the
    repository is linked. *)
Definition linkSelected (projectId location : string)
    (selection : string * option Connection) : F W GitRepositoryLink :=
  let repoCloneUri := fst selection in
  match snd selection with
  | None => throwF TypeError
  | Some connection =>
      match parseConnectionName (Connection.name connection) with
      | None => throwF TypeError
      | Some (mkParts _ _ connectionId) =>
          lift (getOrCreateConnection projectId location connectionId
                  (Some (mkGitHubConfig (credentialOf connection)
                           (installationIdOf connection)))) ;;
          repo <- lift (getOrCreateRepository projectId location connectionId
                          repoCloneUri) ;;
          lift (emit (ELogSuccess
                        "Successfully linked GitHub repository at remote URI")) ;;
          lift (emit (ELogSuccess (TAB ++ repoCloneUri))) ;;
          retF repo
      end
  end.

(** The three fuels bound the passes of the authorisation loop, of the
    installation loops and of the selection loop. *)
Definition linkGitHubRepository (fuelOauth fuelInstall fuelSelect : nat)
    (projectId location : string) : F W GitRepositoryLink :=
  lift (logBullet (clc_bold (clc_yellow "===" ++ " Set up a GitHub connection"))) ;;
  oauthConn <- lift (getOrCreateOauthConnection fuelOauth projectId location) ;;
  lift (logBullet ("debug: oauthConnection: " ++ JSON_stringify oauthConn)) ;;
  existingConns <- lift (listAppHostingConnections projectId) ;;
  existingConns <- seedConnections fuelInstall projectId location oauthConn
                     existingConns ;;
  selected <- selectRepository fuelInstall fuelSelect projectId location oauthConn
                existingConns ;;
  linkSelected projectId location (snd selected).

End Orchestration.

(** ** Vocabulary for the logs of the orchestration *)

Definition flowCount (p : FlowEvent -> bool) (tr : list FlowEvent) : nat :=
  length (filter p tr).

(** The calls of the provisioners in a log of the orchestration. *)
Definition coreOf (tr : list FlowEvent) : list Event :=
  flat_map (fun ev => match ev with ECore e => [e] | _ => [] end) tr.

Definition isAddRole (ev : FlowEvent) : bool :=
  match ev with
  | EAddServiceAccountToRoles _ _ _ _ _ => true
  | _ => false
  end.

Definition isAutocomplete (ev : FlowEvent) : bool :=
  match ev with
  | EPromptAutocomplete _ _ _ _ => true
  | _ => false
  end.

(** The user asked for one more connection. *)
Definition isAddChoice (ev : FlowEvent) : bool :=
  match ev with
  | EPromptAutocomplete _ _ _ (Resolved choice) => String.eqb choice ADD_CONN_CHOICE
  | _ => false
  end.

(** The previous pass of the selection loop ended with that request. *)
Definition addRequested (prev : option (string * option Connection)) : bool :=
  match prev with
  | Some (repoCloneUri, _) => String.eqb repoCloneUri ADD_CONN_CHOICE
  | None => false
  end.

(** The user answered [cloneUri], and [connection], if any, is a
    connection that listed [cloneUri] in this run, by the location and
    id of its name. *)
Definition answered (projectId : string) (tr : list FlowEvent) (cloneUri : string)
    (connection : option Connection) : Prop :=
  (exists name message cloneUris,
      In (EPromptAutocomplete name message cloneUris (Resolved cloneUri)) tr)
  /\ forall conn,
       connection = Some conn ->
       exists p l i repos,
         parseConnectionName (Connection.name conn) = Some (mkParts p l i)
         /\ In (ECore (EListAllLinkableGitRepositories projectId l i (Resolved repos))) tr
         /\ In cloneUri (repoUris repos).

(** The user declined the grant. *)
Definition isDeclined (ev : FlowEvent) : bool :=
  match ev with
  | EPromptConfirm _ (Resolved false) => true
  | _ => false
  end.

(** The calls made for the grant of the role. *)
Definition isGrantCall (ev : FlowEvent) : bool :=
  match ev with
  | EGetProjectNumber _ _ | EServiceAccountHasRoles _ _ _ _ _
  | EAddServiceAccountToRoles _ _ _ _ _ | EPromptConfirm _ _ => true
  | _ => false
  end.

(** The calls that list, fetch, create or poll repositories. *)
Definition isRepositoryCall (ev : Event) : bool :=
  match ev with
  | EListAllLinkableGitRepositories _ _ _ _ | EGetGitRepositoryLink _ _ _ _ _
  | ECreateGitRepositoryLink _ _ _ _ _ _ | EPollRepository _ _ => true
  | _ => false
  end.

(** A kind of provisioner call, as a kind of event of the orchestration. *)
Definition core (p : Event -> bool) (ev : FlowEvent) : bool :=
  match ev with
  | ECore e => p e
  | _ => false
  end.

(** No run of [m] logs an event of the kind [p]. *)
Definition silentF (p : FlowEvent -> bool) {W A} (m : F W A) : Prop :=
  forall w, flowCount p (snd (m w)) = 0.

Definition isRandom (ev : FlowEvent) : bool :=
  match ev with
  | EMathRandom _ => true
  | _ => false
  end.

(** ** Scripts for the orchestration *)

Record FlowStubs : Type := mkFlowStubs {
  projectNumberStub : Settled string;
  hasRolesStub : Settled bool;
  addRolesStub : Settled unit;
  confirmStub : Settled bool;
  autocompleteStub : nat -> Settled string;
  randomStub : string
}.

(** Colours are switched off; the service agent is the one of Developer
    Connect; the choices are ranked with the other prompts. *)
#[local] Instance flowStubbed (fs : FlowStubs) : FlowCollaborators StubWorld := {
  getProjectNumber _ w := (projectNumberStub fs, w);
  devConnect_serviceAgentEmail projectNumber :=
    "service-" ++ projectNumber ++ "@gcp-sa-devconnect.iam.gserviceaccount.com";
  rm_serviceAccountHasRoles _ _ _ _ w := (hasRolesStub fs, w);
  rm_addServiceAccountToRoles _ _ _ _ w := (addRolesStub fs, w);
  prompt_promptOnceConfirm _ w := (confirmStub fs, w);
  prompt_promptOnceAutocomplete _ _ _ w :=
    (autocompleteStub fs (promptCalls w),
     mkWorld (getConnectionCalls w) (fetchLinkableCalls w) (S (promptCalls w)));
  Math_random36 w := (randomStub fs, w);
  clc_bold s := s;
  clc_yellow s := s
}.

(** The user declines the grant. *)
Definition decliningStubs : FlowStubs :=
  mkFlowStubs (Resolved "1234567890") (Resolved false) (Resolved tt) (Resolved false)
    (fun _ => unexpected "promptOnce") "0.4fzyo82mvyr".

(** The role is in place and the user picks [choice] at once. *)
Definition choosingStubs (choice : string) : FlowStubs :=
  mkFlowStubs (Resolved "1234567890") (Resolved true) (Resolved tt) (Resolved true)
    (fun _ => Resolved choice) "0.4fzyo82mvyr".

(** A connection is created: the poll resolves to [conn]. *)
Definition creatingStubs (conn : Connection) : Stubs :=
  mkStubs (getConnectionStub defaultStubs)
    (Resolved mockOp) (Resolved conn)
    (getRepositoryStub defaultStubs) (createRepositoryStub defaultStubs)
    (pollRepositoryStub defaultStubs) (listConnectionsStub defaultStubs)
    (fetchLinkableRepositoriesStub defaultStubs) (promptOnceStub defaultStubs).

(** A sentinel carrying credentials and an installation. *)
Definition credentialedConn : Connection :=
  Connection.mk (connectionName "projectId" "us-central1" APPHOSTING_OAUTH_CONN_NAME)
    false "0" "1" (mkInstallationState "COMPLETE" "complete" "https://google.com")
    false (Some (mkGitHubConfig (Some "oauth-token-secret") (Some "installation-1"))).

(** A connection whose name is not in the canonical format. *)
Definition malformedConn : Connection :=
  Connection.mk "connections/apphosting-github-conn-lost" false "0" "1"
    (mkInstallationState "COMPLETE" "complete" "https://google.com") false None.

(** A connection of another location, carrying credentials and an
    installation. *)
Definition remoteConn : Connection :=
  Connection.mk
    (connectionName "projectId" "europe-west1" "apphosting-github-conn-o82mvyr")
    false "0" "1" (mkInstallationState "COMPLETE" "complete" "https://google.com")
    false (Some (mkGitHubConfig (Some "oauth-token-secret") (Some "installation-1"))).

(** The connection is found and so is the link of the repository. *)
Definition linkingStubs (conn : Connection) (repo : GitRepositoryLink) : Stubs :=
  mkStubs (fun _ => Resolved conn)
    (createConnectionStub defaultStubs) (pollConnectionStub defaultStubs)
    (Resolved repo) (createRepositoryStub defaultStubs)
    (pollRepositoryStub defaultStubs) (listConnectionsStub defaultStubs)
    (fetchLinkableRepositoriesStub defaultStubs) (promptOnceStub defaultStubs).

(** The sentinel is found complete; the project has [conns] for
    connections, each listing [repos]; the link of the repository is
    found as [repo]. *)
Definition projectStubs (conns : list Connection) (repos : list LinkableGitRepository)
    (repo : GitRepositoryLink) : Stubs :=
  mkStubs (fun _ => Resolved (sentinelAt "COMPLETE"))
    (createConnectionStub defaultStubs) (pollConnectionStub defaultStubs)
    (Resolved repo) (createRepositoryStub defaultStubs)
    (pollRepositoryStub defaultStubs) (Resolved conns)
    (fun _ => Resolved repos) (promptOnceStub defaultStubs).

(** * Facts about strings *)

Lemma append_nil_r (s : string) : s ++ "" = s.
Proof. induction s; simpl; congruence. Qed.

Lemma append_assoc (a b c : string) : (a ++ b) ++ c = a ++ (b ++ c).
Proof. induction a; simpl; congruence. Qed.

Lemma append_inv_head (a b c : string) : a ++ b = a ++ c -> b = c.
Proof. induction a; simpl; intros H; [assumption | injection H; auto]. Qed.

Lemma all_append p (a b : string) :
  Str.all p (a ++ b) = Str.all p a && Str.all p b.
Proof. induction a; simpl; [reflexivity | rewrite IHa, andb_assoc; reflexivity]. Qed.

Lemma contains_append c (a b : string) :
  Str.contains c (a ++ b) = Str.contains c a || Str.contains c b.
Proof. induction a; simpl; [reflexivity | rewrite IHa, orb_assoc; reflexivity]. Qed.

(** A text free of [c] followed by [c] is delimited unambiguously. *)
Lemma delimited_unique c (x y r1 r2 : string) :
  Str.contains c x = false -> Str.contains c y = false ->
  x ++ String c r1 = y ++ String c r2 -> x = y /\ r1 = r2.
Proof.
  revert y. induction x as [|a x IH]; intros [|b y]; simpl; intros Hx Hy E.
  - injection E; auto.
  - injection E as E1 _. subst b. rewrite Ascii.eqb_refl in Hy. discriminate.
  - injection E as E1 _. subst a. rewrite Ascii.eqb_refl in Hx. discriminate.
  - injection E as E1 E2. subst b.
    apply orb_false_elim in Hx, Hy.
    destruct (IH y (proj2 Hx) (proj2 Hy) E2); subst; auto.
Qed.

Lemma stripPrefix_append (p s : string) : Str.stripPrefix p (p ++ s) = Some s.
Proof. induction p; simpl; [reflexivity | rewrite Ascii.eqb_refl; assumption]. Qed.

Lemma stripPrefix_Some (p s r : string) :
  Str.stripPrefix p s = Some r -> s = p ++ r.
Proof.
  revert s. induction p as [|a p IH]; intros [|b s]; simpl; intros H;
    try congruence.
  destruct (Ascii.eqb_spec a b); [subst; f_equal; auto | discriminate].
Qed.

(** [replace] rewrites one occurrence of the pattern, or nothing. *)
Lemma replace_spec pat rep s :
  Str.replace pat rep s = s
  \/ exists a b, s = a ++ pat ++ b /\ Str.replace pat rep s = a ++ rep ++ b.
Proof.
  induction s as [|c s IH].
  - simpl. destruct (Str.stripPrefix pat "") as [rest|] eqn:E; [|left; reflexivity].
    right. exists "", rest. apply stripPrefix_Some in E. auto.
  - cbn [Str.replace].
    destruct (Str.stripPrefix pat (String c s)) as [rest|] eqn:E.
    + right. exists "", rest. apply stripPrefix_Some in E. auto.
    + destruct IH as [-> | (a & b & -> & ->)]; [left; reflexivity|].
      right. exists (String c a), b. auto.
Qed.

(** * Facts about the matcher *)

Lemma all_noneOf_slash (x : string) :
  Str.all (accepts (NoneOf ["/"%char])) x = negb (Str.contains "/" x).
Proof.
  induction x as [|c x IH]; simpl; [reflexivity|].
  rewrite IH, orb_false_r, (Ascii.eqb_sym c), negb_orb. reflexivity.
Qed.

Lemma greedy_sound {A} k (cont : string -> string -> option A) s r :
  greedy k cont s = Some r ->
  exists x rest, s = x ++ rest /\ x <> "" /\ Str.all (accepts k) x = true
                 /\ cont x rest = Some r.
Proof.
  revert cont. induction s as [|c s IH]; simpl; intros cont H; [discriminate|].
  destruct (accepts k c) eqn:Hc; [|discriminate].
  destruct (greedy k (fun x rest => cont (String c x) rest) s) eqn:G.
  - injection H as ->. apply IH in G. destruct G as (x & rest & -> & _ & Hall & Hk).
    exists (String c x), rest. simpl. rewrite Hc, Hall. repeat split; auto. discriminate.
  - exists (String c ""), s. simpl. rewrite Hc. repeat split; auto. discriminate.
Qed.

Lemma greedy_complete {A} k (cont : string -> string -> option A) x rest r :
  x <> "" -> Str.all (accepts k) x = true -> cont x rest = Some r ->
  exists r', greedy k cont (x ++ rest) = Some r'.
Proof.
  revert cont. induction x as [|c x IH]; intros cont Hne Hall Hk; [congruence|].
  simpl in *. apply andb_prop in Hall. destruct Hall as [Hc Hall]. rewrite Hc.
  destruct x as [|d x].
  - simpl. destruct (greedy k _ rest); eauto.
  - destruct (IH (fun x rest => cont (String c x) rest)) as [r' Hr']; auto.
    + discriminate.
    + rewrite Hr'. eauto.
Qed.

(** The repetition stops at the longest text whose continuation succeeds:
    no proper extension within the class lets the continuation succeed. *)
Lemma greedy_longest {A} k (cont : string -> string -> option A) x rest r :
  x <> "" -> Str.all (accepts k) x = true -> cont x rest = Some r ->
  (forall y z, y <> "" -> rest = y ++ z -> Str.all (accepts k) y = true ->
               cont (x ++ y) z = None) ->
  greedy k cont (x ++ rest) = Some r.
Proof.
  revert cont. induction x as [|c x IH]; intros cont Hne Hall Hk Hlong; [congruence|].
  simpl in *. apply andb_prop in Hall. destruct Hall as [Hc Hall]. rewrite Hc.
  destruct x as [|d x].
  - simpl in *.
    destruct (greedy k (fun x rest0 => cont (String c x) rest0) rest) eqn:G; auto.
    apply greedy_sound in G. destruct G as (y & z & E & Hy & Hay & Hky).
    rewrite (Hlong y z Hy E Hay) in Hky. discriminate.
  - rewrite (IH (fun x rest => cont (String c x) rest)); auto. discriminate.
Qed.

Lemma matchHere_sound r : forall bol s caps res,
  matchHere r bol s caps = Some res ->
  exists m, Matches r bol s m /\ res = (rev caps ++ m)%list.
Proof.
  induction r as [|n r IH]; intros bol s caps res H; simpl in H.
  - injection H as <-. exists []. rewrite app_nil_r. split; [constructor | reflexivity].
  - destruct n.
    + destruct s as [|d s]; [discriminate|].
      destruct (Ascii.eqb_spec c d); [subst|discriminate].
      apply IH in H. destruct H as (m & Hm & ->). eexists; split; [constructor; eauto | reflexivity].
    + destruct s as [|d s]; [discriminate|].
      destruct (accepts k d) eqn:Hd; [|discriminate].
      apply IH in H. destruct H as (m & Hm & ->). eexists; split; [constructor; eauto | reflexivity].
    + apply greedy_sound in H. destruct H as (x & rest & -> & Hx & Hall & H).
      apply IH in H. destruct H as (m & Hm & ->). eexists; split; [constructor; eauto | reflexivity].
    + apply greedy_sound in H. destruct H as (x & rest & -> & Hx & Hall & H).
      apply IH in H. destruct H as (m & Hm & ->).
      exists ((name, x) :: m). split; [constructor; auto|].
      simpl. rewrite <- app_assoc. reflexivity.
    + destruct bol; [|discriminate].
      apply IH in H. destruct H as (m & Hm & ->). eexists; split; [constructor; eauto | reflexivity].
    + destruct s; [|discriminate].
      apply IH in H. destruct H as (m & Hm & ->). eexists; split; [constructor; eauto | reflexivity].
Qed.

Lemma matchHere_complete r bol s m :
  Matches r bol s m -> forall caps, exists res, matchHere r bol s caps = Some res.
Proof.
  induction 1; intros caps; simpl.
  - eauto.
  - rewrite Ascii.eqb_refl. auto.
  - rewrite H. auto.
  - destruct (IHMatches caps) as [res Hres].
    eapply greedy_complete with (cont := fun _ rest => matchHere r false rest caps); eauto.
  - destruct (IHMatches ((name, x) :: caps)) as [res Hres].
    eapply greedy_complete
      with (cont := fun x rest => matchHere r false rest ((name, x) :: caps)); eauto.
  - auto.
  - auto.
Qed.

(** [exec] succeeds exactly when some suffix of the input matches, and
    then returns the captures of a match of such a suffix. *)
Lemma search_sound r : forall s bol res,
  search r bol s = Some res ->
  exists pre suf, s = pre ++ suf
    /\ Matches r (if String.eqb pre "" then bol else false) suf res.
Proof.
  induction s as [|c s IH]; intros bol res H; simpl in H.
  - destruct (matchHere r bol "" []) eqn:E; [|discriminate]. injection H as ->.
    apply matchHere_sound in E. destruct E as (m & Hm & ->).
    exists "", "". split; auto.
  - destruct (matchHere r bol (String c s) []) eqn:E.
    + injection H as ->. apply matchHere_sound in E. destruct E as (m & Hm & ->).
      exists "", (String c s). split; auto.
    + apply IH in H. destruct H as (pre & suf & -> & Hm).
      exists (String c pre), suf. split; [reflexivity|].
      simpl. destruct (String.eqb pre ""); assumption.
Qed.

Lemma search_complete r : forall pre suf bol m,
  Matches r (if String.eqb pre "" then bol else false) suf m ->
  exists res, search r bol (pre ++ suf) = Some res.
Proof.
  induction pre as [|c pre IH]; intros suf bol m H; simpl in *.
  - destruct (matchHere_complete _ _ _ _ H []) as [res Hres].
    destruct suf; simpl; rewrite Hres; eauto.
  - destruct (matchHere r bol (String c (pre ++ suf)) []); eauto.
    apply IH with (m := m). destruct (String.eqb pre ""); assumption.
Qed.

(** Literal text in a pattern. *)
Lemma Matches_lit w : forall r bol s m,
  Matches (lit w ++ r)%list bol s m ->
  exists s', s = w ++ s' /\ Matches r (if String.eqb w "" then bol else false) s' m.
Proof.
  induction w as [|c w IH]; intros r bol s m H; simpl in *.
  - eauto.
  - inversion H as [| ? ? ? ? ? H' | | | | |]; subst.
    apply IH in H'. destruct H' as (s' & -> & Hm).
    exists s'. split; [reflexivity|]. destruct (String.eqb w ""); assumption.
Qed.

Lemma Matches_lit_intro w : forall r bol s m,
  Matches r (if String.eqb w "" then bol else false) s m ->
  Matches (lit w ++ r)%list bol (w ++ s) m.
Proof.
  induction w as [|c w IH]; intros r bol s m H; simpl in *.
  - assumption.
  - constructor. apply IH. destruct (String.eqb w ""); assumption.
Qed.

(** * The resource-name codec *)

Lemma all_slashFree x :
  Str.all (accepts (NoneOf ["/"%char])) x = true <-> slashFree x.
Proof.
  unfold slashFree. rewrite all_noneOf_slash.
  destruct (Str.contains "/" x); simpl; split; congruence.
Qed.

Lemma CONNECTION_NAME_REGEX_inv bol s m :
  Matches CONNECTION_NAME_REGEX bol s m ->
  exists parts, wellFormedName s parts
    /\ m = [(Some "projectId", projectId parts);
            (Some "location", location parts); (Some "id", id parts)].
Proof.
  unfold CONNECTION_NAME_REGEX. cbn [app]. intros H.
  inversion H as [| | | | | ? ? ? H1 |]; subst; clear H.
  apply (Matches_lit "projects/") in H1. destruct H1 as (s1 & -> & H1). simpl in H1.
  inversion H1 as [| | | | ? ? p ? ? s2 m2 Hp Hpa H2 | |]; subst; clear H1.
  apply (Matches_lit "/locations/") in H2. destruct H2 as (s3 & -> & H2). simpl in H2.
  inversion H2 as [| | | | ? ? l ? ? s4 m4 Hl Hla H4 | |]; subst; clear H2.
  apply (Matches_lit "/connections/") in H4. destruct H4 as (s5 & -> & H4). simpl in H4.
  inversion H4 as [| | | | ? ? c ? ? s6 m6 Hc Hca H6 | |]; subst; clear H4.
  inversion H6 as [| | | | | | ? ? ? H7]; subst; clear H6.
  inversion H7; subst; clear H7.
  exists (mkParts p l c). split; [|reflexivity].
  apply all_slashFree in Hpa, Hla, Hca.
  unfold wellFormedName, connectionName. simpl.
  rewrite append_nil_r. repeat split; auto.
Qed.

Lemma CONNECTION_NAME_REGEX_intro parts s :
  wellFormedName s parts ->
  Matches CONNECTION_NAME_REGEX true s
    [(Some "projectId", projectId parts);
     (Some "location", location parts); (Some "id", id parts)].
Proof.
  intros (-> & Hp & Hl & Hc & Hps & Hls & Hcs).
  apply all_slashFree in Hps, Hls, Hcs.
  unfold CONNECTION_NAME_REGEX, connectionName. cbn [app].
  constructor. apply (Matches_lit_intro "projects/"). simpl.
  constructor; auto. apply Matches_lit_intro with (w := "/locations/"). simpl.
  constructor; auto. apply Matches_lit_intro with (w := "/connections/"). simpl.
  rewrite <- (append_nil_r (id parts)) at 1.
  constructor; auto. repeat constructor.
Qed.

Lemma wellFormedName_unique s p q :
  wellFormedName s p -> wellFormedName s q -> p = q.
Proof.
  intros (-> & _ & _ & _ & Hp & Hl & _) (E & _ & _ & _ & Hp' & Hl' & _).
  unfold connectionName in E. apply append_inv_head in E.
  apply delimited_unique in E; auto. destruct E as [E1 E].
  apply (append_inv_head "locations/") in E.
  apply delimited_unique in E; auto. destruct E as [E2 E].
  apply (append_inv_head "connections/") in E.
  destruct p, q; simpl in *; congruence.
Qed.

Lemma count_append c (a b : string) :
  Str.count c (a ++ b) = Str.count c a + Str.count c b.
Proof. induction a; simpl; [reflexivity | rewrite IHa; lia]. Qed.

Lemma count_slashFree x : slashFree x -> Str.count "/" x = 0.
Proof.
  unfold slashFree. induction x as [|c x IH]; simpl; [reflexivity|].
  intros H. apply orb_false_elim in H. destruct H as [H1 H2].
  rewrite H1. auto.
Qed.

(** A well-formed name holds exactly five slashes. *)
Lemma wellFormedName_slashes s parts :
  wellFormedName s parts -> Str.count "/" s = 5.
Proof.
  intros (-> & _ & _ & _ & Hp & Hl & Hc). unfold connectionName.
  rewrite !count_append, (count_slashFree _ Hp), (count_slashFree _ Hl),
    (count_slashFree _ Hc). reflexivity.
Qed.

Lemma parseConnectionName_Some s parts :
  parseConnectionName s = Some parts <-> wellFormedName s parts.
Proof.
  unfold parseConnectionName, exec. split.
  - destruct (search CONNECTION_NAME_REGEX true s) as [m|] eqn:E; [|discriminate].
    apply search_sound in E. destruct E as (pre & suf & -> & Hm).
    destruct (CONNECTION_NAME_REGEX_inv _ _ _ Hm) as (q & Hq & ->).
    assert (pre = "") as ->.
    { destruct pre; [reflexivity|]. simpl in Hm.
      unfold CONNECTION_NAME_REGEX in Hm. cbn [app] in Hm. inversion Hm. }
    simpl. destruct q as [p l c]. simpl. intros [= <-]. exact Hq.
  - intros Hwf.
    destruct (search_complete CONNECTION_NAME_REGEX "" s true _
                (CONNECTION_NAME_REGEX_intro _ _ Hwf)) as [res Hres].
    simpl in Hres. rewrite Hres.
    apply search_sound in Hres. destruct Hres as (pre & suf & E & Hm).
    destruct (CONNECTION_NAME_REGEX_inv _ _ _ Hm) as (q & Hq & ->).
    assert (pre = "") as ->.
    { destruct pre; [reflexivity|]. simpl in Hm.
      unfold CONNECTION_NAME_REGEX in Hm. cbn [app] in Hm. inversion Hm. }
    simpl in E. subst suf.
    rewrite (wellFormedName_unique _ _ _ Hwf Hq).
    destruct q as [p l c]. reflexivity.
Qed.

(** C9. [parseConnectionName] returns [{projectId: P, location: L, id: C}]
    on every name [projects/P/locations/L/connections/C] whose parts are
    non-empty and free of slashes, and returns absent on every other
    string, among them names with further segments after the id and names
    with another prefix; being a total function it never throws. *)
Theorem parseConnectionName_spec :
  (forall P L C,
      P <> "" -> L <> "" -> C <> "" ->
      slashFree P -> slashFree L -> slashFree C ->
      parseConnectionName (connectionName P L C) = Some (mkParts P L C))
  /\ (forall s,
        (forall P L C,
            P <> "" -> L <> "" -> C <> "" ->
            slashFree P -> slashFree L -> slashFree C ->
            s <> connectionName P L C) ->
        parseConnectionName s = None)
  /\ (forall P L C R,
        parseConnectionName (connectionName P L C ++ "/repositories/" ++ R) = None)
  /\ parseConnectionName "foobar" = None.
Proof.
  split; [|split; [|split]].
  - intros P L C HP HL HC HPs HLs HCs. apply parseConnectionName_Some.
    unfold wellFormedName. simpl. auto 10.
  - intros s Hs. destruct (parseConnectionName s) as [parts|] eqn:E; [|reflexivity].
    apply parseConnectionName_Some in E.
    destruct E as (E & Hp & Hl & Hc & Hps & Hls & Hcs).
    exfalso. exact (Hs _ _ _ Hp Hl Hc Hps Hls Hcs E).
  - intros P L C R.
    destruct (parseConnectionName _) as [parts|] eqn:E; [|reflexivity].
    apply parseConnectionName_Some in E.
    apply wellFormedName_slashes in E. exfalso. revert E.
    unfold connectionName. rewrite !count_append. simpl. lia.
  - reflexivity.
Qed.

(** A witness of [parseConnectionName_spec]: the name of the unit test. *)
Lemma parseConnectionName_spec_witness :
  parseConnectionName (connectionName "my-project" "us-central1" "my-conn")
  = Some (mkParts "my-project" "us-central1" "my-conn").
Proof.
  apply (proj1 parseConnectionName_spec); solve [discriminate | reflexivity].
Defined.

(** The cases of the unit tests. *)
Example parseConnectionName_valid :
  parseConnectionName "projects/my-project/locations/us-central1/connections/my-conn"
  = Some (mkParts "my-project" "us-central1" "my-conn").
Proof. reflexivity. Qed.

Example parseConnectionName_invalid :
  parseConnectionName
    "projects/my-project/locations/us-central1/connections/my-conn/repositories/repo"
  = None
  /\ parseConnectionName "foobar" = None.
Proof. split; reflexivity. Qed.

(** The name in the doc comment of [parseConnectionName] starts with a
    slash; the anchored pattern rejects it. *)
Example parseConnectionName_leading_slash :
  parseConnectionName
    "/projects/my-project/locations/us-central1/connections/my-connection-id"
  = None.
Proof. reflexivity. Qed.

(** * Repository ids *)

Lemma REPO_SLUG_REGEX_inv bol s m :
  Matches REPO_SLUG_REGEX bol s m ->
  exists c slug c' post,
    s = "github" ++ String c ("com/" ++ slug ++ String c' ("git" ++ post))
    /\ isLineTerminator c = false /\ isLineTerminator c' = false
    /\ slug <> "" /\ lineFree slug /\ m = [(None, slug)].
Proof.
  unfold REPO_SLUG_REGEX. cbn [app]. intros H.
  apply (Matches_lit "github") in H. destruct H as (s1 & -> & H). simpl in H.
  inversion H as [| | ? c ? ? s2 ? Hc H2 | | | |]; subst; clear H.
  apply (Matches_lit "com/") in H2. destruct H2 as (s3 & -> & H). simpl in H.
  inversion H as [| | | | ? ? x ? ? s4 m4 Hx Hxa H4 | |]; subst; clear H.
  inversion H4 as [| | ? c' ? ? s5 ? Hc' H5 | | | |]; subst; clear H4.
  apply (Matches_lit "git") in H5. destruct H5 as (s6 & -> & H). simpl in H.
  inversion H; subst; clear H.
  exists c, x, c', s6. simpl in Hc, Hc'. apply negb_true_iff in Hc, Hc'.
  repeat split; auto.
Qed.

Lemma REPO_SLUG_REGEX_intro bol c slug c' post :
  isLineTerminator c = false -> isLineTerminator c' = false ->
  slug <> "" -> lineFree slug ->
  Matches REPO_SLUG_REGEX bol
    ("github" ++ String c ("com/" ++ slug ++ String c' ("git" ++ post)))
    [(None, slug)].
Proof.
  intros Hc Hc' Hne Hall. unfold REPO_SLUG_REGEX. cbn [app].
  apply (Matches_lit_intro "github"). simpl.
  constructor; [simpl; rewrite Hc; reflexivity|].
  apply (Matches_lit_intro "com/"). simpl.
  constructor; auto.
  constructor; [simpl; rewrite Hc'; reflexivity|].
  apply (Matches_lit_intro "git"). simpl. constructor.
Qed.

Lemma extractRepoSlugFromUri_Some s slug :
  extractRepoSlugFromUri s = Some slug -> slugOccurrence s slug.
Proof.
  unfold extractRepoSlugFromUri, exec.
  destruct (search REPO_SLUG_REGEX true s) as [m|] eqn:E; [|discriminate].
  apply search_sound in E. destruct E as (pre & suf & -> & Hm).
  apply REPO_SLUG_REGEX_inv in Hm.
  destruct Hm as (c & x & c' & post & -> & Hc & Hc' & Hx & Hxa & ->).
  simpl. intros [= <-]. exists pre, c, c', post. auto.
Qed.

Lemma extractRepoSlugFromUri_None s :
  extractRepoSlugFromUri s = None <-> ~ exists slug, slugOccurrence s slug.
Proof.
  split.
  - intros E (slug & pre & c & c' & post & -> & Hc & Hc' & Hne & Hall).
    destruct (search_complete REPO_SLUG_REGEX pre _ true _
                (REPO_SLUG_REGEX_intro _ c slug c' post Hc Hc' Hne Hall))
      as [res Hres].
    unfold extractRepoSlugFromUri, exec in E. rewrite Hres in E.
    apply search_sound in Hres. destruct Hres as (pre' & suf' & _ & Hm).
    apply REPO_SLUG_REGEX_inv in Hm.
    destruct Hm as (? & ? & ? & ? & _ & _ & _ & _ & _ & ->). discriminate.
  - intros H. destruct (extractRepoSlugFromUri s) as [slug|] eqn:E; [|reflexivity].
    exfalso. apply H. exists slug. apply extractRepoSlugFromUri_Some. exact E.
Qed.

Lemma replaceAll_append c rep (a b : string) :
  Str.replaceAll c rep (a ++ b) = Str.replaceAll c rep a ++ Str.replaceAll c rep b.
Proof.
  induction a as [|d a IH]; simpl; [reflexivity|].
  destruct (Ascii.eqb d c); simpl; rewrite IH; [rewrite append_assoc|]; reflexivity.
Qed.

Lemma replaceAll_free rep x : slashFree x -> Str.replaceAll "/" rep x = x.
Proof.
  unfold slashFree. induction x as [|d x IH]; [reflexivity|].
  cbn [Str.replaceAll Str.contains].
  intros H. apply orb_false_elim in H. destruct H as [H1 H2].
  rewrite Ascii.eqb_sym, H1, IH; auto.
Qed.

Lemma search_cons_None r bol c s :
  matchHere r bol (String c s) [] = None ->
  search r bol (String c s) = search r false s.
Proof. intros H. simpl. rewrite H. reflexivity. Qed.

Lemma search_here r bol s m :
  matchHere r bol s [] = Some m -> search r bol s = Some m.
Proof. intros H. destruct s; simpl; rewrite H; reflexivity. Qed.

(** On [https://github.com/X.git] the slug is [X]. *)
Lemma extractRepoSlugFromUri_canonical x :
  x <> "" -> lineFree x ->
  extractRepoSlugFromUri ("https://github.com/" ++ x ++ ".git") = Some x.
Proof.
  intros Hne Hall. unfold extractRepoSlugFromUri, exec. cbn [append].
  do 8 (rewrite search_cons_None by reflexivity).
  rewrite (search_here _ _ _ [(None, x)]); [reflexivity|].
  change (greedy Dot
            (fun y rest => matchHere (One Dot :: lit "git") false rest [(None, y)])
            (x ++ ".git") = Some [(None, x)]).
  apply greedy_longest; auto.
  intros y z Hy E _.
  assert (z = "git" \/ z = "it" \/ z = "t" \/ z = "") as Hz.
  { destruct y as [|a y]; [congruence|]. simpl in E. injection E as _ E.
    destruct y as [|b y]; simpl in E; [subst; auto|]. injection E as _ E.
    destruct y as [|c y]; simpl in E; [subst; auto|]. injection E as _ E.
    destruct y as [|d y]; simpl in E; [subst; auto|]. injection E as _ E.
    destruct y; simpl in E; [subst; auto 6 | discriminate]. }
  destruct Hz as [-> | [-> | [-> | ->]]]; reflexivity.
Qed.

Lemma endsWith_append (a b : string) : Str.endsWith (a ++ b) b = true.
Proof.
  induction a as [|c a IH].
  - destruct b; cbn [Str.endsWith append]; rewrite String.eqb_refl; reflexivity.
  - cbn [Str.endsWith append]. rewrite IH. apply orb_true_r.
Qed.

Lemma cloneUrlShape_endsWith s : cloneUrlShape s -> Str.endsWith s ".git" = true.
Proof.
  intros (pre & owner & repo & -> & _).
  rewrite <- !append_assoc. apply endsWith_append.
Qed.

Lemma lineFree_append a b : lineFree a -> lineFree b -> lineFree (a ++ b).
Proof. unfold lineFree. intros Ha Hb. rewrite all_append, Ha, Hb. reflexivity. Qed.

Lemma dotted_is_occurrence s slug :
  dottedSlugOccurrence s slug -> slugOccurrence s slug.
Proof.
  intros (pre & post & -> & Hne & Hfree).
  exists pre, "."%char, "."%char, post. repeat split; auto.
Qed.

(** C7, as stated, fails: the pattern is searched anywhere in the input,
    so [https://github.com/user/repo.git/tree/main], which does not end in
    [.git] and so has no [.../owner/repo.git] shape, still yields a
    repository id. *)
Lemma generateRepositoryId_beyond_shape :
  ~ (forall s, ~ cloneUrlShape s ->
               extractRepoSlugFromUri s = None /\ generateRepositoryId s = None)
  /\ ~ cloneUrlShape "https://github.com/user/repo.git/tree/main"
  /\ extractRepoSlugFromUri "https://github.com/user/repo.git/tree/main"
     = Some "user/repo"
  /\ generateRepositoryId "https://github.com/user/repo.git/tree/main"
     = Some "user-repo".
Proof.
  assert (~ cloneUrlShape "https://github.com/user/repo.git/tree/main") as Hn.
  { intros H. apply cloneUrlShape_endsWith in H. discriminate. }
  split; [|split; [exact Hn | split; reflexivity]].
  intros H. destruct (H _ Hn) as [E _]. discriminate.
Qed.

(** C7, amended.  [generateRepositoryId("https://github.com/user/repo.git")]
    is ["user-repo"].  Every input holding the text [github.com/SLUG.git],
    [SLUG] non-empty and free of line terminators, yields a slug and a
    repository id, whatever stands around that text.  Whenever a slug is
    returned, it is a non-empty text of the input, free of line
    terminators, standing after [github], one character and [com/] and
    before one character and [git], and the id is that slug with every [/]
    replaced by [-]; inputs holding no such text yield absent.  On
    [https://github.com/OWNER/REPO.git], with [OWNER] and [REPO] free of
    slashes and line terminators, the id is [OWNER-REPO]. *)
Theorem generateRepositoryId_spec :
  generateRepositoryId "https://github.com/user/repo.git" = Some "user-repo"
  /\ (forall s slug,
        dottedSlugOccurrence s slug ->
        exists slug',
          extractRepoSlugFromUri s = Some slug'
          /\ generateRepositoryId s = Some (Str.replaceAll "/" "-" slug'))
  /\ (forall s slug,
        extractRepoSlugFromUri s = Some slug ->
        slugOccurrence s slug
        /\ generateRepositoryId s = Some (Str.replaceAll "/" "-" slug))
  /\ (forall s,
        ~ (exists slug, slugOccurrence s slug) ->
        extractRepoSlugFromUri s = None /\ generateRepositoryId s = None)
  /\ (forall owner repo,
        lineFree owner -> lineFree repo -> slashFree owner -> slashFree repo ->
        extractRepoSlugFromUri ("https://github.com/" ++ owner ++ "/" ++ repo ++ ".git")
        = Some (owner ++ "/" ++ repo)
        /\ generateRepositoryId ("https://github.com/" ++ owner ++ "/" ++ repo ++ ".git")
           = Some (owner ++ "-" ++ repo)).
Proof.
  split; [reflexivity|]. split; [|split; [|split]].
  - intros s slug H. apply dotted_is_occurrence in H.
    destruct (extractRepoSlugFromUri s) as [slug'|] eqn:E.
    + exists slug'. unfold generateRepositoryId. rewrite E. split; reflexivity.
    + apply extractRepoSlugFromUri_None in E. exfalso. apply E. eauto.
  - intros s slug E. split; [apply extractRepoSlugFromUri_Some; exact E|].
    unfold generateRepositoryId. rewrite E. reflexivity.
  - intros s H. apply extractRepoSlugFromUri_None in H.
    unfold generateRepositoryId. rewrite H. split; reflexivity.
  - intros owner repo Ho Hr Hos Hrs.
    assert (extractRepoSlugFromUri
              ("https://github.com/" ++ owner ++ "/" ++ repo ++ ".git")
            = Some (owner ++ "/" ++ repo)) as E.
    { rewrite <- (extractRepoSlugFromUri_canonical (owner ++ "/" ++ repo)).
      - rewrite !append_assoc. reflexivity.
      - destruct owner; discriminate.
      - apply lineFree_append; [assumption|].
        apply (lineFree_append "/"); [reflexivity | assumption]. }
    split; [exact E|].
    unfold generateRepositoryId. rewrite E. simpl. f_equal.
    rewrite replaceAll_append, (replaceAll_free _ owner Hos).
    cbn [Str.replaceAll]. rewrite Ascii.eqb_refl, (replaceAll_free _ repo Hrs).
    reflexivity.
Qed.

(** A witness of [generateRepositoryId_spec] on the clone URL of the unit
    tests of [getOrCreateRepository]. *)
Lemma generateRepositoryId_spec_witness :
  generateRepositoryId ("https://github.com/" ++ "test" ++ "/" ++ "repo0" ++ ".git")
  = Some ("test" ++ "-" ++ "repo0").
Proof.
  apply (proj2 (proj2 (proj2 (proj2 generateRepositoryId_spec))) "test" "repo0");
    reflexivity.
Defined.

(** The examples of the unit tests and of the doc comments. *)
Example extractRepoSlugFromUri_example :
  extractRepoSlugFromUri "https://github.com/user/repo.git" = Some "user/repo".
Proof. reflexivity. Qed.

(** Inputs on which the unescaped dots of the pattern show. *)
Example extractRepoSlugFromUri_any_character :
  extractRepoSlugFromUri "https://github.com/user/legit" = Some "user/l"
  /\ extractRepoSlugFromUri "https://github.com/repo.git" = Some "repo"
  /\ extractRepoSlugFromUri "https://gitlab.com/user/repo.git" = None.
Proof. repeat split; reflexivity. Qed.

(** * The eligibility pattern *)

Lemma APPHOSTING_CONN_PATTERN_inv bol s m :
  Matches APPHOSTING_CONN_PATTERN bol s m ->
  exists a b, s = a ++ "/apphosting-github-conn-" ++ b
              /\ a <> "" /\ lineFree a /\ b <> "" /\ lineFree b.
Proof.
  unfold APPHOSTING_CONN_PATTERN. cbn [app]. intros H.
  inversion H as [| | | ? a ? ? s1 ? Ha Haa H1 | | |]; subst; clear H.
  apply (Matches_lit "/apphosting-github-conn-") in H1.
  destruct H1 as (s2 & -> & H). simpl in H.
  inversion H as [| | | ? b ? ? s3 ? Hb Hba H3 | | |]; subst; clear H.
  inversion H3; subst; clear H3.
  exists a, b. rewrite append_nil_r. auto.
Qed.

Lemma APPHOSTING_CONN_PATTERN_intro bol a b :
  a <> "" -> lineFree a -> b <> "" -> lineFree b ->
  exists m, Matches APPHOSTING_CONN_PATTERN bol
              (a ++ "/apphosting-github-conn-" ++ b) m.
Proof.
  intros Ha Haa Hb Hba. exists []. unfold APPHOSTING_CONN_PATTERN. cbn [app].
  constructor; auto.
  apply (Matches_lit_intro "/apphosting-github-conn-"). simpl.
  rewrite <- (append_nil_r b). constructor; auto. repeat constructor.
Qed.

Lemma APPHOSTING_CONN_PATTERN_test s :
  test APPHOSTING_CONN_PATTERN s = true <-> appHostingOccurrence s.
Proof.
  unfold test, exec. split.
  - destruct (search APPHOSTING_CONN_PATTERN true s) as [m|] eqn:E; [|discriminate].
    intros _. apply search_sound in E. destruct E as (pre & suf & -> & Hm).
    apply APPHOSTING_CONN_PATTERN_inv in Hm.
    destruct Hm as (a & b & -> & H). exists pre, a, b. auto.
  - intros (pre & a & b & -> & Ha & Haa & Hb & Hba).
    destruct (APPHOSTING_CONN_PATTERN_intro
                (if String.eqb pre "" then true else false) a b Ha Haa Hb Hba)
      as [m Hm].
    destruct (search_complete _ _ _ _ _ Hm) as [res ->]. reflexivity.
Qed.

(** Every canonical name whose id is the fixed prefix followed by a
    non-empty suffix free of line terminators matches the pattern. *)
Lemma generated_name_matches P L suffix :
  suffix <> "" -> lineFree suffix ->
  test APPHOSTING_CONN_PATTERN
    (connectionName P L ("apphosting-github-conn-" ++ suffix)) = true.
Proof.
  intros Hne Hfree. apply APPHOSTING_CONN_PATTERN_test.
  exists ("projects/" ++ P ++ "/locations/" ++ L ++ "/connection"), "s", suffix.
  split; [|repeat split; auto; discriminate].
  unfold connectionName. rewrite !append_assoc. reflexivity.
Qed.

(** C10 (code at the failing input).  The id always starts with
    [apphosting-github-conn-], but the suffix is empty when
    [Math.random().toString(36)] has fewer than seven characters, as for
    one half (["0.i"]) or zero (["0"]); the canonical name ending in such
    an id does not match [APPHOSTING_CONN_PATTERN], which wants at least
    one character after the prefix. *)
Theorem generateConnectionId_empty_suffix :
  (forall random36,
      Str.stripPrefix "apphosting-github-conn-" (generateConnectionId random36)
      = Some (Str.slice 6 random36))
  /\ generateConnectionId "0.i" = "apphosting-github-conn-"
  /\ generateConnectionId "0" = "apphosting-github-conn-"
  /\ test APPHOSTING_CONN_PATTERN
       (connectionName "projectId" "us-central1" (generateConnectionId "0.i")) = false
  /\ test APPHOSTING_CONN_PATTERN
       (connectionName "projectId" "us-central1"
          (generateConnectionId "0.4fzyo82mvyr")) = true.
Proof.
  split; [|repeat split; reflexivity].
  intros r. unfold generateConnectionId. apply (stripPrefix_append "apphosting-github-conn-").
Qed.

(** With a non-empty suffix the generated id is recognised. *)
Lemma generateConnectionId_recognised P L random36 :
  Str.slice 6 random36 <> "" -> lineFree (Str.slice 6 random36) ->
  test APPHOSTING_CONN_PATTERN
    (connectionName P L (generateConnectionId random36)) = true.
Proof. intros Hne Hfree. apply generated_name_matches; assumption. Qed.

(** * Get-or-create provisioners *)

Section ProvisioningFacts.

Context {W : Type} {env : Collaborators W}.

(** Every path of [getOrCreateConnection]. *)
Lemma getOrCreateConnection_run projectId location connectionId githubConfig (w : W) :
  getOrCreateConnection projectId location connectionId githubConfig w =
  let get := EGetConnection projectId location connectionId in
  let create := ECreateConnection projectId location connectionId githubConfig in
  match devConnect_getConnection projectId location connectionId w with
  | (Resolved conn, w1) => (Returned conn, w1, [get (Resolved conn)])
  | (Rejected err, w1) =>
      if statusIs err 404 then
        match devConnect_createConnection projectId location connectionId
                githubConfig w1 with
        | (Resolved op, w2) =>
            let options :=
              devConnectPollerOptions ("create-" ++ location ++ "-" ++ connectionId)
                (Operation.name op) in
            match poller_pollConnection options w2 with
            | (Resolved conn, w3) =>
                (Returned conn, w3,
                 [get (Rejected err); ELogBullet "creating connection";
                  create (Resolved op); EPollConnection options (Resolved conn)])
            | (Rejected e, w3) =>
                (Thrown e, w3,
                 [get (Rejected err); ELogBullet "creating connection";
                  create (Resolved op); EPollConnection options (Rejected e)])
            end
        | (Rejected e, w2) =>
            (Thrown e, w2,
             [get (Rejected err); ELogBullet "creating connection";
              create (Rejected e)])
        end
      else (Thrown err, w1, [get (Rejected err)])
  end.
Proof.
  unfold getOrCreateConnection, getConnection, createConnection,
    logBullet, emit, bind, tryCatch, call, ret, throw.
  destruct (devConnect_getConnection projectId location connectionId w) as [[conn|err] w1];
    [reflexivity|].
  destruct (statusIs err 404); [|reflexivity].
  destruct (devConnect_createConnection _ _ _ _ w1) as [[op|e] w2]; [|reflexivity].
  destruct (poller_pollConnection _ w2) as [[conn|e] w3]; reflexivity.
Qed.

(** A derived repository id is never the empty string, so the guard
    [!repositoryId] fires exactly when no id is derivable. *)
Lemma generateRepositoryId_truthy cloneUri :
  truthy (generateRepositoryId cloneUri) = generateRepositoryId cloneUri.
Proof.
  unfold generateRepositoryId.
  destruct (extractRepoSlugFromUri cloneUri) as [slug|] eqn:E; [|reflexivity].
  apply extractRepoSlugFromUri_Some in E.
  destruct E as (_ & _ & _ & _ & _ & _ & _ & Hne & _).
  destruct slug as [|c slug]; [congruence|].
  simpl. destruct (Ascii.eqb c "/"); reflexivity.
Qed.

(** Every path of [getOrCreateRepository] on a derivable clone URI. *)
Lemma getOrCreateRepository_run projectId location connectionId cloneUri
    repositoryId (w : W) :
  generateRepositoryId cloneUri = Some repositoryId ->
  getOrCreateRepository projectId location connectionId cloneUri w =
  let get := EGetGitRepositoryLink projectId location connectionId repositoryId in
  let create :=
    ECreateGitRepositoryLink projectId location connectionId repositoryId cloneUri in
  match devConnect_getGitRepositoryLink projectId location connectionId
          repositoryId w with
  | (Resolved repo, w1) => (Returned repo, w1, [get (Resolved repo)])
  | (Rejected err, w1) =>
      if statusIs err 404 then
        match devConnect_createGitRepositoryLink projectId location connectionId
                repositoryId cloneUri w1 with
        | (Resolved op, w2) =>
            let options :=
              devConnectPollerOptions
                ("create-" ++ location ++ "-" ++ connectionId ++ "-" ++ repositoryId)
                (Operation.name op) in
            match poller_pollRepository options w2 with
            | (Resolved repo, w3) =>
                (Returned repo, w3,
                 [get (Rejected err); create (Resolved op);
                  EPollRepository options (Resolved repo)])
            | (Rejected e, w3) =>
                (Thrown e, w3,
                 [get (Rejected err); create (Resolved op);
                  EPollRepository options (Rejected e)])
            end
        | (Rejected e, w2) =>
            (Thrown e, w2, [get (Rejected err); create (Rejected e)])
        end
      else (Thrown err, w1, [get (Rejected err)])
  end.
Proof.
  intros Hid. unfold getOrCreateRepository.
  rewrite generateRepositoryId_truthy, Hid.
  unfold bind, tryCatch, call, ret, throw.
  destruct (devConnect_getGitRepositoryLink _ _ _ _ w) as [[repo|err] w1];
    [reflexivity|].
  destruct (statusIs err 404); [|reflexivity].
  destruct (devConnect_createGitRepositoryLink _ _ _ _ _ w1) as [[op|e] w2];
    [|reflexivity].
  destruct (poller_pollRepository _ w2) as [[repo|e] w3]; reflexivity.
Qed.

(** The options handed to the poller: the fixed origin, version, timeout
    and back-off of the module, the name of the poller, and the name of
    the operation to poll. *)
Lemma devConnectPollerOptions_fields pollerName operationResourceName :
  devConnectPollerOptions pollerName operationResourceName
  = poller.mkOptions developerConnectOrigin "v1" 1500000 10000
      pollerName operationResourceName.
Proof. reflexivity. Qed.

(** C1. When the fetch is rejected with status 404, [getOrCreateConnection]
    and [getOrCreateRepository] make one create call, then poll once the
    operation that call returned (the poll is asked for the resource name
    [op.name] of that operation, under the poller name of the resource
    being created), and return the polled resource, whatever its
    installation stage (no prompt is issued); when the fetch resolves,
    they make no other call and return the fetched resource. *)
Theorem getOrCreate_creates_on_not_found :
  (forall projectId location connectionId githubConfig (w : W) err w1 op w2 conn w3,
      devConnect_getConnection projectId location connectionId w = (Rejected err, w1) ->
      status err = Some 404%Z ->
      devConnect_createConnection projectId location connectionId githubConfig w1
      = (Resolved op, w2) ->
      let options :=
        poller.mkOptions developerConnectOrigin "v1" 1500000 10000
          ("create-" ++ location ++ "-" ++ connectionId) (Operation.name op) in
      poller_pollConnection options w2 = (Resolved conn, w3) ->
      getOrCreateConnection projectId location connectionId githubConfig w
      = (Returned conn, w3,
         [EGetConnection projectId location connectionId (Rejected err);
          ELogBullet "creating connection";
          ECreateConnection projectId location connectionId githubConfig (Resolved op);
          EPollConnection options (Resolved conn)])
      /\ poller.operationResourceName options = Operation.name op)
  /\ (forall projectId location connectionId githubConfig (w : W) conn w1,
        devConnect_getConnection projectId location connectionId w = (Resolved conn, w1) ->
        getOrCreateConnection projectId location connectionId githubConfig w
        = (Returned conn, w1,
           [EGetConnection projectId location connectionId (Resolved conn)]))
  /\ (forall projectId location connectionId cloneUri repositoryId (w : W)
             err w1 op w2 repo w3,
        generateRepositoryId cloneUri = Some repositoryId ->
        devConnect_getGitRepositoryLink projectId location connectionId repositoryId w
        = (Rejected err, w1) ->
        status err = Some 404%Z ->
        devConnect_createGitRepositoryLink projectId location connectionId
          repositoryId cloneUri w1 = (Resolved op, w2) ->
        let options :=
          poller.mkOptions developerConnectOrigin "v1" 1500000 10000
            ("create-" ++ location ++ "-" ++ connectionId ++ "-" ++ repositoryId)
            (Operation.name op) in
        poller_pollRepository options w2 = (Resolved repo, w3) ->
        getOrCreateRepository projectId location connectionId cloneUri w
        = (Returned repo, w3,
           [EGetGitRepositoryLink projectId location connectionId repositoryId
              (Rejected err);
            ECreateGitRepositoryLink projectId location connectionId repositoryId
              cloneUri (Resolved op);
            EPollRepository options (Resolved repo)])
        /\ poller.operationResourceName options = Operation.name op)
  /\ (forall projectId location connectionId cloneUri repositoryId (w : W) repo w1,
        generateRepositoryId cloneUri = Some repositoryId ->
        devConnect_getGitRepositoryLink projectId location connectionId repositoryId w
        = (Resolved repo, w1) ->
        getOrCreateRepository projectId location connectionId cloneUri w
        = (Returned repo, w1,
           [EGetGitRepositoryLink projectId location connectionId repositoryId
              (Resolved repo)])).
Proof.
  split; [|split; [|split]].
  - intros * Hget Hst Hcreate options Hpoll. subst options.
    split; [|reflexivity].
    rewrite getOrCreateConnection_run, Hget. unfold statusIs.
    rewrite Hst, Z.eqb_refl. cbv zeta.
    rewrite Hcreate, devConnectPollerOptions_fields, Hpoll. reflexivity.
  - intros * Hget. rewrite getOrCreateConnection_run, Hget. reflexivity.
  - intros * Hid Hget Hst Hcreate options Hpoll. subst options.
    split; [|reflexivity].
    rewrite (getOrCreateRepository_run _ _ _ _ _ _ Hid), Hget. unfold statusIs.
    rewrite Hst, Z.eqb_refl. cbv zeta.
    rewrite Hcreate, devConnectPollerOptions_fields, Hpoll. reflexivity.
  - intros * Hid Hget.
    rewrite (getOrCreateRepository_run _ _ _ _ _ _ Hid), Hget. reflexivity.
Qed.

Lemma statusIs_false err n : status err <> Some n -> statusIs err n = false.
Proof.
  unfold statusIs. destruct (status err) as [z|]; [|reflexivity].
  intros H. apply Z.eqb_neq. congruence.
Qed.

Lemma statusIs_true err n : statusIs err n = true -> status err = Some n.
Proof.
  unfold statusIs. destruct (status err) as [z|]; [|discriminate].
  intros H. apply Z.eqb_eq in H. congruence.
Qed.

(** C5. When the fetch is rejected with a status other than 404 (or with
    no status at all), [getOrCreateConnection] and [getOrCreateRepository]
    throw that very error and make no further call; a create call in the
    log of a run implies that the fetch was rejected with status 404. *)
Theorem getOrCreate_rethrows_other_errors :
  (forall projectId location connectionId githubConfig (w : W) err w1,
      devConnect_getConnection projectId location connectionId w = (Rejected err, w1) ->
      status err <> Some 404%Z ->
      getOrCreateConnection projectId location connectionId githubConfig w
      = (Thrown err, w1,
         [EGetConnection projectId location connectionId (Rejected err)]))
  /\ (forall projectId location connectionId cloneUri repositoryId (w : W) err w1,
        generateRepositoryId cloneUri = Some repositoryId ->
        devConnect_getGitRepositoryLink projectId location connectionId repositoryId w
        = (Rejected err, w1) ->
        status err <> Some 404%Z ->
        getOrCreateRepository projectId location connectionId cloneUri w
        = (Thrown err, w1,
           [EGetGitRepositoryLink projectId location connectionId repositoryId
              (Rejected err)]))
  /\ (forall projectId location connectionId githubConfig (w : W),
        existsb isCreate
          (snd (getOrCreateConnection projectId location connectionId githubConfig w))
        = true ->
        exists err w1,
          devConnect_getConnection projectId location connectionId w
          = (Rejected err, w1)
          /\ status err = Some 404%Z)
  /\ (forall projectId location connectionId cloneUri (w : W),
        existsb isCreate
          (snd (getOrCreateRepository projectId location connectionId cloneUri w))
        = true ->
        exists repositoryId err w1,
          generateRepositoryId cloneUri = Some repositoryId
          /\ devConnect_getGitRepositoryLink projectId location connectionId
               repositoryId w = (Rejected err, w1)
          /\ status err = Some 404%Z).
Proof.
  repeat split.
  - intros * Hget Hst.
    rewrite getOrCreateConnection_run, Hget, (statusIs_false _ _ Hst). reflexivity.
  - intros * Hid Hget Hst.
    rewrite (getOrCreateRepository_run _ _ _ _ _ _ Hid), Hget,
      (statusIs_false _ _ Hst). reflexivity.
  - intros *. rewrite getOrCreateConnection_run. cbv zeta.
    destruct (devConnect_getConnection _ _ _ w) as [[conn|err] w1]; [discriminate|].
    destruct (statusIs err 404) eqn:Hst; [|discriminate].
    intros _. exists err, w1. split; [reflexivity | apply statusIs_true; assumption].
  - intros *.
    destruct (generateRepositoryId cloneUri) as [repositoryId|] eqn:Hid.
    + rewrite (getOrCreateRepository_run _ _ _ _ _ _ Hid). cbv zeta.
      destruct (devConnect_getGitRepositoryLink _ _ _ _ w) as [[repo|err] w1] eqn:Hget;
        [discriminate|].
      destruct (statusIs err 404) eqn:Hst; [|discriminate].
      intros _. exists repositoryId, err, w1.
      repeat split; [assumption | apply statusIs_true; assumption].
    + unfold getOrCreateRepository. rewrite Hid. discriminate.
Qed.

(** C8. When no repository id is derivable from the clone URI,
    [getOrCreateRepository] throws an error whose message quotes the URI,
    before any call: the log is empty and the outside world untouched.
    When an id is derivable, the run starts with the fetch and whatever it
    throws is the rejection of its last call, never an error of its own. *)
Theorem getOrCreateRepository_underivable_id :
  (forall projectId location connectionId cloneUri (w : W),
      generateRepositoryId cloneUri = None ->
      getOrCreateRepository projectId location connectionId cloneUri w
      = (Thrown
           (mkError "FirebaseError"
              ("Failed to generate repositoryId for URI " ++ String dquote cloneUri
                 ++ String dquote ".")
              (Some FirebaseError_defaultStatus)),
         w, []))
  /\ (forall projectId location connectionId cloneUri repositoryId (w : W),
        generateRepositoryId cloneUri = Some repositoryId ->
        let '(outcome, _, tr) :=
          getOrCreateRepository projectId location connectionId cloneUri w in
        (exists r tr',
            tr = EGetGitRepositoryLink projectId location connectionId repositoryId r
                 :: tr')
        /\ (forall e, outcome = Thrown e -> lastRejection tr = Some e)).
Proof.
  split.
  - intros * Hid. unfold getOrCreateRepository. rewrite Hid. reflexivity.
  - intros * Hid. rewrite (getOrCreateRepository_run _ _ _ _ _ _ Hid). cbv zeta.
    destruct (devConnect_getGitRepositoryLink _ _ _ _ w) as [[repo|err] w1].
    { split; [eauto | discriminate]. }
    destruct (statusIs err 404).
    2:{ split; [eauto | intros e [= <-]; reflexivity]. }
    destruct (devConnect_createGitRepositoryLink _ _ _ _ _ w1) as [[op|e'] w2].
    2:{ split; [eauto | intros e [= <-]; reflexivity]. }
    destruct (poller_pollRepository _ w2) as [[repo|e'] w3].
    + split; [eauto | discriminate].
    + split; [eauto | intros e [= <-]; reflexivity].
Qed.

End ProvisioningFacts.

(** * The installation loops *)

Section LoopFacts.

Context {W : Type} {env : Collaborators W}.

Lemma bind_Returned {A B} (m : M W A) (f : A -> M W B) w b w' tr :
  bind m f w = (Returned b, w', tr) ->
  exists a w1 t1 t2,
    m w = (Returned a, w1, t1) /\ f a w1 = (Returned b, w', t2)
    /\ tr = (t1 ++ t2)%list.
Proof.
  unfold bind. destruct (m w) as [[[a|e|] w1] t1]; try discriminate.
  destruct (f a w1) as [[o w2] t2] eqn:E. intros [= -> -> <-].
  exists a, w1, t1, t2. auto.
Qed.

Lemma call_Returned {A} (oracle : W -> Settled A * W) record w a w' tr :
  call oracle record w = (Returned a, w', tr) ->
  oracle w = (Resolved a, w') /\ tr = [record (Resolved a)].
Proof.
  unfold call. destruct (oracle w) as [[x|e] w1]; intros [= <- <- <-]; auto.
Qed.

Lemma emit_Returned ev (w : W) (u : unit) w' tr :
  emit ev w = (Returned u, w', tr) -> w' = w /\ tr = [ev].
Proof. unfold emit. intros [= <- <-]. auto. Qed.

(** Inversion of a returning [bind], [call] and [emit] in hypothesis [H]. *)
Ltac inv_bind H a w E :=
  let t1 := fresh "t" in
  let t2 := fresh "t" in
  apply bind_Returned in H; destruct H as (a & w & t1 & t2 & E & H & ->).

Ltac inv_emit H :=
  let E := fresh "E" in
  let u := fresh "u" in
  let w := fresh "w" in
  inv_bind H u w E; destruct u; apply emit_Returned in E; destruct E as [-> ->].

Ltac inv_call H a w :=
  let E := fresh "E" in
  inv_bind H a w E; apply call_Returned in E; destruct E as [_ ->].

(** A loop left through its condition leaves the condition false. *)
Lemma while_Next {S A} fuel (cond : S -> bool) (body : S -> M W (Flow S A)) :
  forall s w s' w' tr,
    while fuel cond body s w = (Returned (Next s'), w', tr) -> cond s' = false.
Proof.
  induction fuel as [|fuel IH]; intros s w s' w' tr H; simpl in H;
    destruct (cond s) eqn:Hc; try discriminate.
  - injection H as <- _ _. assumption.
  - apply bind_Returned in H. destruct H as ([s1|a] & w1 & t1 & t2 & _ & H & _).
    + eapply IH; eauto.
    + discriminate.
  - injection H as <- _ _. assumption.
Qed.

(** More fuel does not change a run that did not exhaust its fuel. *)
Lemma while_fuel_mono {S A} (cond : S -> bool) (body : S -> M W (Flow S A)) :
  forall fuel fuel' s w o w' tr,
    fuel <= fuel' ->
    while fuel cond body s w = (o, w', tr) -> o <> OutOfFuel ->
    while fuel' cond body s w = (o, w', tr).
Proof.
  induction fuel as [|fuel IH]; intros fuel' s w o w' tr Hle H Hne.
  - simpl in H. destruct fuel'; simpl; destruct (cond s); try assumption;
      injection H as <- _ _; congruence.
  - destruct fuel' as [|fuel']; [lia|]. simpl in *.
    destruct (cond s); [|assumption].
    unfold bind in *. destruct (body s w) as [[[[s1|a]|e|] w1] t1]; try assumption.
    destruct (while fuel cond body s1 w1) as [[o2 w2] t2] eqn:E.
    injection H as <- <- <-.
    rewrite (IH fuel' s1 w1 o2 w2 t2); auto. lia.
Qed.

(** C3. On a connection whose stage is [COMPLETE],
    [ensureFullyInstalledConnection] returns it at once: no call, no
    prompt.  On any other connection it rewrites the action URI with
    [replace("install_v2", "direct_install_v2")], opens it, waits for the
    human, fetches the connection by id once and returns what was fetched,
    whatever its stage: the body of the loop is run once, never twice, and
    no run, whatever the collaborators answer, holds more than one prompt
    or more than one fetch. *)
Theorem ensureFullyInstalledConnection_checks_once :
  (forall fuel projectId location connectionId oauthConn (w : W),
      stageOf oauthConn = "COMPLETE" ->
      ensureFullyInstalledConnection fuel projectId location connectionId oauthConn w
      = (Returned oauthConn, w, []))
  /\ (forall fuel projectId location connectionId oauthConn (w : W)
             w1 answer w2 conn w3,
        stageOf oauthConn <> "COMPLETE" ->
        let targetUri :=
          Str.replace "install_v2" "direct_install_v2"
            (actionUri (Connection.installationState oauthConn)) in
        let q :=
          mkQuestion "input"
            "Press Enter once you have installed or configured the Firebase GitHub app to access your GitHub repo." in
        utils_openInBrowser targetUri w = (Resolved tt, w1) ->
        prompt_promptOnce q w1 = (Resolved answer, w2) ->
        devConnect_getConnection projectId location connectionId w2
        = (Resolved conn, w3) ->
        ensureFullyInstalledConnection (S fuel) projectId location connectionId
          oauthConn w
        = (Returned conn, w3,
           [ELogBullet
              "Install the Firebase GitHub app to enable access to GitHub repositories";
            ELogBullet targetUri;
            EOpenInBrowser targetUri (Resolved tt);
            EPromptOnce q (Resolved answer);
            EGetConnection projectId location connectionId (Resolved conn)]))
  /\ (forall fuel projectId location connectionId oauthConn (w : W),
        let tr :=
          snd (ensureFullyInstalledConnection fuel projectId location connectionId
                 oauthConn w) in
        length (filter isPrompt tr) <= 1 /\ length (filter isFetch tr) <= 1)
  /\ (forall uri,
        let targetUri := Str.replace "install_v2" "direct_install_v2" uri in
        targetUri = uri
        \/ exists a b,
             uri = a ++ "install_v2" ++ b
             /\ targetUri = a ++ "direct_install_v2" ++ b)
  /\ Str.replace "install_v2" "direct_install_v2"
       "https://github.com/apps/firebase-app-hosting/installations/install_v2/new"
     = "https://github.com/apps/firebase-app-hosting/installations/direct_install_v2/new".
Proof.
  split; [|split; [|split; [|split; [intros uri; apply replace_spec | reflexivity]]]].
  - intros * Hst. unfold ensureFullyInstalledConnection, stageOf in *.
    rewrite Hst. destruct fuel; reflexivity.
  - intros * Hst targetUri q Hopen Hprompt Hget.
    apply String.eqb_neq in Hst.
    unfold ensureFullyInstalledConnection, stageOf in *.
    unfold bind at 1. cbn [while]. rewrite Hst. cbn [negb].
    unfold bind, logBullet, emit, promptOnce, getConnection, call, ret.
    fold targetUri. rewrite Hopen. fold q. rewrite Hprompt, Hget. reflexivity.
  - intros fuel projectId location connectionId oauthConn w tr. subst tr.
    unfold ensureFullyInstalledConnection. unfold bind at 1. destruct fuel as [|fuel]; cbn [while];
      destruct (negb _); try (cbn; lia).
    unfold bind, logBullet, emit, promptOnce, getConnection, call, ret.
    destruct (utils_openInBrowser _ w) as [[[]|e] w1]; [|cbn; lia].
    destruct (prompt_promptOnce _ w1) as [[answer|e] w2]; [|cbn; lia].
    destruct (devConnect_getConnection _ _ _ w2) as [[conn|e] w3]; cbn; lia.
Qed.

(** C2, amended.  The loop of [getOrCreateOauthConnection] runs while the
    stage is [PENDING_USER_OAUTH]: each pass surfaces the action URI, waits
    for the human and fetches the connection again by the parts of its
    name.  Every run that returns does so with a connection whose stage is
    not [PENDING_USER_OAUTH] ([COMPLETE] or any other stage), after the
    get-or-create of the sentinel and a sequence of such passes; and a run
    that did not exhaust its fuel is the same under any larger fuel. *)
Theorem getOrCreateOauthConnection_until_not_pending :
  (forall fuel projectId location (w : W) conn w' tr,
      getOrCreateOauthConnection fuel projectId location w = (Returned conn, w', tr) ->
      stageOf conn <> "PENDING_USER_OAUTH"
      /\ exists conn0 w0 tr0 tr1,
           getOrCreateConnection projectId location APPHOSTING_OAUTH_CONN_NAME None w
           = (Returned conn0, w0, tr0)
           /\ tr = (tr0
                    ++ ELogBullet ("debug: connection from getOrCreateConnection: "
                                   ++ JSON_stringify conn0)
                    :: tr1)%list
           /\ OauthRounds conn0 tr1 conn)
  /\ (forall fuel fuel' projectId location (w : W) o w' tr,
        fuel <= fuel' ->
        getOrCreateOauthConnection fuel projectId location w = (o, w', tr) ->
        o <> OutOfFuel ->
        getOrCreateOauthConnection fuel' projectId location w = (o, w', tr)).
Proof.
  split.
  - intros fuel p l w conn w' tr H. unfold getOrCreateOauthConnection in H.
    inv_bind H conn0 w0 Hgoc. inv_emit H. inv_bind H f w2 Hloop.
    match type of Hloop with
    | while _ ?c ?b _ _ = _ => set (cond := c) in *; set (body := b) in *
    end.
    assert (forall n c0 v f0 v' t0,
               while n cond body c0 v = (Returned f0, v', t0) ->
               exists c1, f0 = Next c1 /\ OauthRounds c0 t0 c1) as Hrounds.
    { clear. induction n as [|n IH]; intros c0 v f0 v' t0 H; simpl in H;
        destruct (cond c0) eqn:Hc; try discriminate.
      - injection H as <- _ <-. exists c0. split; [reflexivity|].
        constructor. apply String.eqb_neq. exact Hc.
      - inv_bind H f1 v1 Hb. unfold body in Hb.
        inv_emit Hb. inv_emit Hb. inv_call Hb url v2. inv_emit Hb.
        inv_call Hb answer v3. inv_emit Hb.
        destruct (parseConnectionName (Connection.name c0)) as [[p l i]|] eqn:Hp;
          [|discriminate].
        inv_call Hb c' v4. injection Hb as <- <- <-.
        apply IH in H. destruct H as (c1 & -> & Hr).
        exists c1. split; [reflexivity|].
        apply (rounds_next c0 url answer (mkParts p l i) c'); auto.
        apply String.eqb_eq. exact Hc.
      - injection H as <- _ <-. exists c0. split; [reflexivity|].
        constructor. apply String.eqb_neq. exact Hc. }
    destruct (Hrounds _ _ _ _ _ _ Hloop) as (c1 & -> & Hr).
    apply while_Next in Hloop. injection H as <- <- <-.
    split; [apply String.eqb_neq; exact Hloop|].
    do 4 eexists. split; [exact Hgoc|].
    split; [rewrite app_nil_r; reflexivity | exact Hr].
  - intros fuel fuel' p l w o w' tr Hle H Hne.
    unfold getOrCreateOauthConnection in *. unfold bind at 1. unfold bind at 1 in H.
    destruct (getOrCreateConnection p l APPHOSTING_OAUTH_CONN_NAME None w)
      as [[[conn0|e|] w0] tr0]; try assumption.
    unfold bind at 1. unfold bind at 1 in H.
    destruct (logBullet _ w0) as [[[[]|e|] w1] t1]; try assumption.
    unfold bind at 1. unfold bind at 1 in H.
    match type of H with
    | context [while _ ?c ?b ?s ?v] =>
        destruct (while fuel c b s v) as [[o2 w2] t2] eqn:E
    end.
    assert (o2 <> OutOfFuel) as Hne2.
    { intros ->. injection H as <- _ _. congruence. }
    rewrite (while_fuel_mono _ _ _ _ _ _ _ _ _ Hle E Hne2). exact H.
Qed.

End LoopFacts.

(** * Eligible connections *)

Lemma first_slash x r u v :
  slashFree x -> x ++ String "/" r = u ++ String "/" v ->
  (u = x /\ v = r) \/ (exists u', u = x ++ String "/" u' /\ r = u' ++ String "/" v).
Proof.
  unfold slashFree. revert u.
  induction x as [|a x IH]; intros [|c u]; cbn [append Str.contains]; intros Hx E.
  - injection E as <-. auto.
  - injection E as <- ->. right. eauto.
  - injection E as -> _. rewrite Ascii.eqb_refl in Hx. discriminate.
  - injection E as <- E. apply orb_false_elim in Hx. destruct Hx as [_ Hx].
    destruct (IH u Hx E) as [[-> ->] | (u' & -> & ->)]; [left | right]; eauto.
Qed.

Lemma slashFree_no_split x u v : slashFree x -> x <> u ++ String "/" v.
Proof.
  unfold slashFree. intros Hx ->. rewrite contains_append in Hx.
  cbn [Str.contains] in Hx. rewrite Ascii.eqb_refl, orb_true_r in Hx. discriminate.
Qed.

(** A slash-free prefix of [P/...] is a prefix of [P]. *)
Lemma prefix_of_delimited w : forall P r b,
  slashFree w -> P ++ String "/" r = w ++ b -> Str.stripPrefix w P <> None.
Proof.
  unfold slashFree.
  induction w as [|c w IH]; intros P r b Hw E; cbn [Str.stripPrefix].
  - destruct P; discriminate.
  - cbn [Str.contains] in Hw. apply orb_false_elim in Hw. destruct Hw as [Hc Hw].
    destruct P as [|a P]; cbn [append] in E; injection E as <- E.
    + rewrite Ascii.eqb_refl in Hc. discriminate.
    + rewrite Ascii.eqb_refl. eapply IH; eauto.
Qed.

(** The name of the sentinel does not match the pattern, unless its
    project id or its location starts like a generated id. *)
Lemma sentinel_name_no_match P L :
  slashFree P -> slashFree L ->
  Str.stripPrefix "apphosting-github-conn-" P = None ->
  Str.stripPrefix "apphosting-github-conn-" L = None ->
  test APPHOSTING_CONN_PATTERN (connectionName P L APPHOSTING_OAUTH_CONN_NAME) = false.
Proof.
  intros HP HL HPn HLn.
  destruct (test APPHOSTING_CONN_PATTERN _) eqn:T; [|reflexivity]. exfalso.
  apply APPHOSTING_CONN_PATTERN_test in T.
  destruct T as (pre & a & b & E & _).
  rewrite <- append_assoc in E. revert E.
  generalize (pre ++ a). intros u E.
  change (connectionName P L APPHOSTING_OAUTH_CONN_NAME)
    with ("projects" ++ String "/" (P ++ String "/" ("locations" ++ String "/"
            (L ++ String "/" ("connections" ++ String "/" "apphosting-github-oauth")))))
    in E.
  change ("/apphosting-github-conn-" ++ b)
    with (String "/" ("apphosting-github-conn-" ++ b)) in E.
  apply first_slash in E; [|reflexivity].
  destruct E as [[_ E] | (u1 & _ & E)].
  { symmetry in E. apply prefix_of_delimited in E; [contradiction | reflexivity]. }
  apply first_slash in E; [|assumption].
  destruct E as [[_ E] | (u2 & _ & E)]; [discriminate|].
  apply first_slash in E; [|reflexivity].
  destruct E as [[_ E] | (u3 & _ & E)].
  { symmetry in E. apply prefix_of_delimited in E; [contradiction | reflexivity]. }
  apply first_slash in E; [|assumption].
  destruct E as [[_ E] | (u4 & _ & E)]; [discriminate|].
  apply first_slash in E; [|reflexivity].
  destruct E as [[_ E] | (u5 & _ & E)]; [discriminate|].
  revert E. apply slashFree_no_split. reflexivity.
Qed.

Section EligibleFacts.

Context {W : Type} {env : Collaborators W}.

Lemma isAppHostingConnection_spec conn :
  isAppHostingConnection conn = true <->
  test APPHOSTING_CONN_PATTERN (Connection.name conn) = true
  /\ stageOf conn = "COMPLETE" /\ Connection.disabled conn = false.
Proof.
  unfold isAppHostingConnection, stageOf.
  rewrite !andb_true_iff, negb_true_iff, String.eqb_eq. tauto.
Qed.

(** What the filter keeps.  [listAppHostingConnections] returns, in the
    order listed, exactly the connections whose name matches
    [/.+\/apphosting-github-conn-.+$/], whose stage is [COMPLETE] and whose
    [disabled] flag is false; listing the same connections in another
    order yields the same members.  The pattern is tested against the
    whole name: the sentinel connection [apphosting-github-oauth] is left
    out as long as neither its project id nor its location starts with
    [apphosting-github-conn-]. *)
Theorem listAppHostingConnections_filters :
  (forall projectId (w : W) conns w1,
      devConnect_listAllConnections projectId "-" w = (Resolved conns, w1) ->
      exists result,
        listAppHostingConnections projectId w
        = (Returned result, w1, [EListAllConnections projectId "-" (Resolved conns)])
        /\ result = filter isAppHostingConnection conns
        /\ (forall conn,
              In conn result <->
              In conn conns
              /\ test APPHOSTING_CONN_PATTERN (Connection.name conn) = true
              /\ stageOf conn = "COMPLETE"
              /\ Connection.disabled conn = false)
        /\ (forall conn P L,
              Connection.name conn = connectionName P L APPHOSTING_OAUTH_CONN_NAME ->
              slashFree P -> slashFree L ->
              Str.stripPrefix "apphosting-github-conn-" P = None ->
              Str.stripPrefix "apphosting-github-conn-" L = None ->
              ~ In conn result))
  /\ (forall projectId (w w' : W) conns conns' w1 w1',
        devConnect_listAllConnections projectId "-" w = (Resolved conns, w1) ->
        devConnect_listAllConnections projectId "-" w' = (Resolved conns', w1') ->
        Permutation conns conns' ->
        exists result result' tr tr',
          listAppHostingConnections projectId w = (Returned result, w1, tr)
          /\ listAppHostingConnections projectId w' = (Returned result', w1', tr')
          /\ Permutation result result'
          /\ (forall conn, In conn result <-> In conn result')).
Proof.
  assert (forall projectId (w : W) conns w1,
             devConnect_listAllConnections projectId "-" w = (Resolved conns, w1) ->
             listAppHostingConnections projectId w
             = (Returned (filter isAppHostingConnection conns), w1,
                [EListAllConnections projectId "-" (Resolved conns)])) as Hrun.
  { intros * H. unfold listAppHostingConnections, bind, call, ret. rewrite H.
    reflexivity. }
  split.
  - intros * H. eexists. split; [apply Hrun; exact H|]. split; [reflexivity|].
    split.
    + intros conn. rewrite filter_In, isAppHostingConnection_spec. tauto.
    + intros conn P L Hname HP HL HPn HLn Hin.
      apply filter_In in Hin. destruct Hin as [_ Hin].
      apply isAppHostingConnection_spec in Hin. destruct Hin as [Ht _].
      rewrite Hname, sentinel_name_no_match in Ht; auto. discriminate.
  - intros * H H' Hperm.
    assert (Permutation (filter isAppHostingConnection conns)
              (filter isAppHostingConnection conns')) as Hp.
    { clear -Hperm. induction Hperm; simpl.
      - constructor.
      - destruct (isAppHostingConnection x); [constructor|]; assumption.
      - destruct (isAppHostingConnection x), (isAppHostingConnection y);
          try constructor; apply Permutation_refl.
      - eapply Permutation_trans; eassumption. }
    do 4 eexists. split; [apply Hrun; exact H|]. split; [apply Hrun; exact H'|].
    split; [exact Hp|].
    intros conn. split; apply Permutation_in; [|apply Permutation_sym]; exact Hp.
Qed.

End EligibleFacts.

(** * Repository discovery *)

Lemma assoc_upsert {V} k (v : V) l k' :
  Obj.assoc k' (Obj.upsert k v l) = if String.eqb k k' then Some v else Obj.assoc k' l.
Proof.
  induction l as [|[k0 v0] l IH]; cbn [Obj.upsert Obj.assoc].
  - destruct (String.eqb_spec k k'); reflexivity.
  - destruct (String.eqb_spec k0 k) as [->|Hk]; cbn [Obj.assoc].
    + destruct (String.eqb_spec k k'); reflexivity.
    + destruct (String.eqb_spec k0 k') as [->|Hk'].
      * destruct (String.eqb_spec k k'); [congruence | reflexivity].
      * apply IH.
Qed.

Lemma upsert_In {V} k (v : V) l k' :
  In k' (map fst (Obj.upsert k v l)) <-> k' = k \/ In k' (map fst l).
Proof.
  induction l as [|[k0 v0] l IH]; cbn [Obj.upsert map fst In].
  - intuition.
  - destruct (String.eqb_spec k0 k) as [->|Hk]; cbn [map fst In].
    + intuition.
    + rewrite IH. intuition.
Qed.

Lemma upsert_NoDup {V} k (v : V) l :
  NoDup (map fst l) -> NoDup (map fst (Obj.upsert k v l)).
Proof.
  induction l as [|[k0 v0] l IH]; cbn [Obj.upsert map fst]; intros H.
  - repeat constructor. intros [].
  - inversion H as [|? ? Hnin Hnd]; subst.
    destruct (String.eqb_spec k0 k) as [->|Hk]; cbn [map fst].
    + constructor; assumption.
    + constructor; [|auto]. rewrite upsert_In. intros [->|Hin]; congruence.
Qed.


Lemma insertByIndex_perm n k l :
  Permutation (map snd (Obj.insertByIndex n k l)) (k :: map snd l).
Proof.
  induction l as [|[n' k'] l IH]; cbn [Obj.insertByIndex map snd].
  - apply Permutation_refl.
  - destruct (n <=? n')%N; cbn [map snd].
    + apply Permutation_refl.
    + eapply Permutation_trans; [apply perm_skip, IH | apply perm_swap].
Qed.

(** [Object.keys] lists the own keys, each once, in some order. *)
Lemma keys_perm {V} (o : Obj.t V) :
  Permutation (Obj.keys o) (map fst (Obj.own o)).
Proof.
  unfold Obj.keys. generalize (map fst (Obj.own o)). intros ks.
  induction ks as [|k ks IH]; cbn [Obj.indexKeys filter].
  - apply Permutation_refl.
  - unfold Obj.isPlainKey at 1. destruct (Obj.arrayIndex k) as [n|].
    + eapply Permutation_trans.
      * apply Permutation_app_tail, insertByIndex_perm.
      * cbn [app]. apply perm_skip, IH.
    + apply Permutation_sym. eapply Permutation_trans.
      * apply perm_skip, Permutation_sym, IH.
      * apply Permutation_middle.
Qed.





Lemma lastRejection_app t1 t2 :
  t2 <> [] -> lastRejection (t1 ++ t2) = lastRejection t2.
Proof.
  unfold lastRejection. intros H. rewrite rev_app_distr.
  destruct (rev t2) as [|ev t] eqn:E; [|reflexivity].
  apply (f_equal (@rev Event)) in E. rewrite rev_involutive in E. contradiction.
Qed.

Lemma fold_left_assign conn repos (o : Obj.t Connection) :
  fold_left (fun o repo => Obj.set (LinkableGitRepository.cloneUri repo) conn o) repos o
  = fold_left (fun o p => Obj.set (fst p) (snd p) o)
      (map (fun uri => (uri, conn)) (repoUris repos)) o.
Proof.
  revert o. induction repos as [|r repos IH]; intros o; cbn; [reflexivity | apply IH].
Qed.

(** A fetch URL is never the reserved key [__proto__]. *)
Lemma fetchUrl_not_reserved uri : fetchUrl uri -> uri <> "__proto__".
Proof.
  intros (scheme & rest & ->) H.
  apply (f_equal (Str.contains "/")) in H.
  rewrite contains_append in H. cbn in H.
  rewrite orb_true_r in H. discriminate.
Qed.


Section DiscoveryFacts.

Context {W : Type} {env : Collaborators W}.

Lemma forOf_cons_run {X S} (x : X) xs (body : X -> S -> M W S) s (w : W) :
  forOf (x :: xs) body s w =
  match body x s w with
  | (Returned s', w1, t1) =>
      let '(o, w2, t2) := forOf xs body s' w1 in (o, w2, (t1 ++ t2)%list)
  | (Thrown e, w1, t1) => (Thrown e, w1, t1)
  | (OutOfFuel, w1, t1) => (OutOfFuel, w1, t1)
  end.
Proof. reflexivity. Qed.

(** The loop of [fetchAllRepositories] over connections with well-formed
    names: either a listing is rejected and the rejection is thrown, or
    every connection answers and the assignments are made in order. *)
Lemma fetch_loop projectId body :
  body = (fun conn cloneUriToConnection =>
            match parseConnectionName (Connection.name conn) with
            | None => throw TypeError
            | Some (mkParts _ location id) =>
                connectionRepos <-
                  call (devConnect_listAllLinkableGitRepositories projectId location id)
                       (EListAllLinkableGitRepositories projectId location id) ;;
                ret (fold_left
                       (fun o repo =>
                          Obj.set (LinkableGitRepository.cloneUri repo) conn o)
                       connectionRepos cloneUriToConnection)
            end) ->
  forall conns o (w : W),
    (forall conn, In conn conns ->
                  parseConnectionName (Connection.name conn) <> None) ->
    exists out w' tr,
      forOf conns body o w = (out, w', tr)
      /\ ((exists e, out = Thrown e /\ lastRejection tr = Some e)
          \/ (exists listings,
                length listings = length conns
                /\ tr = listingEvents projectId (combine conns listings)
                /\ out = Returned
                           (fold_left (fun o p => Obj.set (fst p) (snd p) o)
                              (assignments (combine conns listings)) o))).
Proof.
  intros Hbody. induction conns as [|conn conns IH]; intros o w Hwf.
  - do 3 eexists. split; [reflexivity|]. right. exists []. auto.
  - assert (parseConnectionName (Connection.name conn) <> None) as Hp
      by (apply Hwf; left; reflexivity).
    destruct (parseConnectionName (Connection.name conn)) as [[p l i]|] eqn:Hparse;
      [clear Hp | congruence].
    assert (body conn o w =
            match devConnect_listAllLinkableGitRepositories projectId l i w with
            | (Resolved repos, w1) =>
                (Returned
                   (fold_left (fun o p => Obj.set (fst p) (snd p) o)
                      (map (fun uri => (uri, conn)) (repoUris repos)) o),
                 w1,
                 [EListAllLinkableGitRepositories projectId l i (Resolved repos)])
            | (Rejected e, w1) =>
                (Thrown e, w1,
                 [EListAllLinkableGitRepositories projectId l i (Rejected e)])
            end) as Hb.
    { rewrite Hbody. cbv beta. rewrite Hparse. unfold bind, call, ret.
      destruct (devConnect_listAllLinkableGitRepositories projectId l i w)
        as [[repos|e] w1]; [rewrite fold_left_assign|]; reflexivity. }
    rewrite forOf_cons_run, Hb.
    destruct (devConnect_listAllLinkableGitRepositories projectId l i w)
      as [[repos|e] w1].
    + destruct (IH (fold_left (fun o p => Obj.set (fst p) (snd p) o)
                      (map (fun uri => (uri, conn)) (repoUris repos)) o) w1)
        as (out & w' & tr & Hrun & Hcases).
      { intros c Hc. apply Hwf. right. exact Hc. }
      rewrite Hrun. do 3 eexists. split; [reflexivity|].
      destruct Hcases as [(e & -> & Hrej) | (listings & Hlen & -> & ->)].
      * left. exists e. split; [reflexivity|].
        rewrite lastRejection_app; [exact Hrej|].
        intros ->. discriminate.
      * right. exists (repos :: listings). cbn [length combine].
        split; [congruence|]. split.
        -- cbn [listingEvents flat_map]. rewrite Hparse. reflexivity.
        -- cbn [assignments flat_map]. rewrite fold_left_app. reflexivity.
    + do 3 eexists. split; [reflexivity|]. left. exists e. auto.
Qed.



End DiscoveryFacts.

(** * Runs against the stubs *)

(** A witness of [getOrCreate_creates_on_not_found]: the fetch of
    [apphosting-us-central1] is rejected with 404, the create call returns
    an operation, and the poll of that operation resolves to a connection
    in [PENDING_USER_OAUTH], which is returned as it is. *)
Lemma getOrCreate_creates_on_not_found_witness :
  getOrCreateConnection (env := stubbed (createsPendingStubs pendingConn completeConn))
    "projectId" "us-central1" "apphosting-us-central1" None freshWorld
  = (Returned pendingConn, mkWorld 1 0 0,
     [EGetConnection "projectId" "us-central1" "apphosting-us-central1"
        (Rejected notFound);
      ELogBullet "creating connection";
      ECreateConnection "projectId" "us-central1" "apphosting-us-central1" None
        (Resolved mockOp);
      EPollConnection
        (poller.mkOptions "https://developerconnect.googleapis.com" "v1"
           1500000 10000 "create-us-central1-apphosting-us-central1"
           "projects/projectId/locations/us-central1/connections/apphosting-us-central1")
        (Resolved pendingConn)])
  /\ Operation.name mockOp
     = "projects/projectId/locations/us-central1/connections/apphosting-us-central1".
Proof.
  split; [|reflexivity].
  eapply (proj1 (proj1 (@getOrCreate_creates_on_not_found StubWorld
                          (stubbed (createsPendingStubs pendingConn completeConn)))
                   "projectId" "us-central1" "apphosting-us-central1" None freshWorld
                   notFound (mkWorld 1 0 0) mockOp (mkWorld 1 0 0) pendingConn
                   (mkWorld 1 0 0) eq_refl eq_refl eq_refl eq_refl)).
Defined.

(** A witness of [getOrCreate_rethrows_other_errors]: a fetch rejected
    with status 500. *)
Lemma getOrCreate_rethrows_other_errors_witness :
  getOrCreateConnection (env := stubbed (failingStubs internalError))
    "projectId" "us-central1" "apphosting-us-central1" None freshWorld
  = (Thrown internalError, mkWorld 1 0 0,
     [EGetConnection "projectId" "us-central1" "apphosting-us-central1"
        (Rejected internalError)]).
Proof.
  apply (proj1 (@getOrCreate_rethrows_other_errors StubWorld
                  (stubbed (failingStubs internalError))));
    [reflexivity | discriminate].
Defined.

(** A witness of [getOrCreateRepository_underivable_id]. *)
Lemma getOrCreateRepository_underivable_id_witness :
  getOrCreateRepository (env := stubbed defaultStubs)
    "projectId" "us-central1" "apphosting-us-central1" "git@example.com:user/repo"
    freshWorld
  = (Thrown
       (mkError "FirebaseError"
          ("Failed to generate repositoryId for URI "
             ++ String dquote "git@example.com:user/repo" ++ String dquote ".")
          (Some 500%Z)),
     freshWorld, []).
Proof.
  apply (proj1 (@getOrCreateRepository_underivable_id StubWorld (stubbed defaultStubs)));
    reflexivity.
Defined.

(** A witness of [ensureFullyInstalledConnection_checks_once]: the
    connection fetched after the prompt is still pending and is returned
    all the same. *)
Lemma ensureFullyInstalledConnection_checks_once_witness :
  ensureFullyInstalledConnection (env := stubbed (foundStubs pendingConn))
    1 "projectId" "us-central1" "apphosting-us-central1" pendingConn freshWorld
  = (Returned pendingConn, mkWorld 1 0 1,
     [ELogBullet
        "Install the Firebase GitHub app to enable access to GitHub repositories";
      ELogBullet "https://google.com";
      EOpenInBrowser "https://google.com" (Resolved tt);
      EPromptOnce
        (mkQuestion "input"
           "Press Enter once you have installed or configured the Firebase GitHub app to access your GitHub repo.")
        (Resolved "any key");
      EGetConnection "projectId" "us-central1" "apphosting-us-central1"
        (Resolved pendingConn)]).
Proof.
  apply (proj1 (proj2 (@ensureFullyInstalledConnection_checks_once StubWorld
                         (stubbed (foundStubs pendingConn)))))
    with (w1 := freshWorld) (w2 := mkWorld 0 0 1);
    [discriminate | reflexivity | reflexivity | reflexivity].
Defined.

(** C2, as stated, fails: when the sentinel is found at a stage that is
    neither [PENDING_USER_OAUTH] nor [COMPLETE], the loop is not entered
    and the connection is returned at that stage. *)
Lemma getOrCreateOauthConnection_other_stage :
  getOrCreateOauthConnection
    (env := stubbed (foundStubs (sentinelAt "PENDING_USER_INSTALL_APP")))
    1 "projectId" "us-central1" freshWorld
  = (Returned (sentinelAt "PENDING_USER_INSTALL_APP"), mkWorld 1 0 0,
     [EGetConnection "projectId" "us-central1" "apphosting-github-oauth"
        (Resolved (sentinelAt "PENDING_USER_INSTALL_APP"));
      ELogBullet
        ("debug: connection from getOrCreateConnection: "
           ++ connectionName "projectId" "us-central1" "apphosting-github-oauth")])
  /\ stageOf (sentinelAt "PENDING_USER_INSTALL_APP") <> "COMPLETE"
  /\ ~ (forall W (env : Collaborators W) fuel projectId location (w : W) conn w' tr,
          getOrCreateOauthConnection fuel projectId location w
          = (Returned conn, w', tr) ->
          stageOf conn = "COMPLETE").
Proof.
  split; [reflexivity|]. split; [discriminate|].
  intros H.
  specialize (H StubWorld (stubbed (foundStubs (sentinelAt "PENDING_USER_INSTALL_APP")))
                1 "projectId" "us-central1" freshWorld _ _ _ eq_refl).
  discriminate.
Qed.

(** A witness of [getOrCreateOauthConnection_until_not_pending]: the
    sentinel is created pending, the human authorises, and the second
    fetch finds it complete after one pass of the loop. *)
Lemma getOrCreateOauthConnection_until_not_pending_witness :
  stageOf (sentinelAt "COMPLETE") <> "PENDING_USER_OAUTH"
  /\ exists conn0 w0 tr0 tr1,
       getOrCreateConnection
         (env := stubbed (createsPendingStubs (sentinelAt "PENDING_USER_OAUTH")
                            (sentinelAt "COMPLETE")))
         "projectId" "us-central1" APPHOSTING_OAUTH_CONN_NAME None freshWorld
       = (Returned conn0, w0, tr0)
       /\ snd (getOrCreateOauthConnection
                 (env := stubbed (createsPendingStubs (sentinelAt "PENDING_USER_OAUTH")
                                    (sentinelAt "COMPLETE")))
                 3 "projectId" "us-central1" freshWorld)
          = (tr0
             ++ ELogBullet ("debug: connection from getOrCreateConnection: "
                            ++ Connection.name conn0)
             :: tr1)%list
       /\ OauthRounds conn0 tr1 (sentinelAt "COMPLETE").
Proof.
  apply (proj1 (@getOrCreateOauthConnection_until_not_pending StubWorld
                  (stubbed (createsPendingStubs (sentinelAt "PENDING_USER_OAUTH")
                              (sentinelAt "COMPLETE"))))
           3 "projectId" "us-central1" freshWorld (sentinelAt "COMPLETE")
           (mkWorld 2 0 1)).
  reflexivity.
Defined.

(** C6.  The sentinel is meant to be left out because its id does not
    match the pattern of generated ids (the unit test "filters out
    non-apphosting connections" expects so), but the pattern is tested
    against the whole resource name and is not anchored to the id: in a
    project whose id starts with [apphosting-github-conn-] the name of
    the sentinel matches at the project id, and the sentinel, complete
    and enabled, is listed as eligible. *)
Lemma listAppHostingConnections_lists_sentinel :
  listAppHostingConnections (env := stubbed (listingStubs [sentinelInOddProject]))
    "apphosting-github-conn-x" freshWorld
  = (Returned [sentinelInOddProject], freshWorld,
     [EListAllConnections "apphosting-github-conn-x" "-"
        (Resolved [sentinelInOddProject])])
  /\ parseConnectionName (Connection.name sentinelInOddProject)
     = Some (mkParts "apphosting-github-conn-x" "us-central1" "apphosting-github-oauth")
  /\ ~ (forall W (env : Collaborators W) projectId (w : W) result w' tr conn parts,
          listAppHostingConnections projectId w = (Returned result, w', tr) ->
          parseConnectionName (Connection.name conn) = Some parts ->
          id parts = APPHOSTING_OAUTH_CONN_NAME ->
          ~ In conn result).
Proof.
  split; [reflexivity|]. split; [reflexivity|].
  intros H.
  apply (H StubWorld (stubbed (listingStubs [sentinelInOddProject]))
           "apphosting-github-conn-x" freshWorld _ _ _ sentinelInOddProject _
           eq_refl eq_refl eq_refl).
  left. reflexivity.
Qed.

(** [listAppHostingConnections_filters] at the listing of the unit test,
    from which the two generated connections are kept. *)
Lemma listAppHostingConnections_filters_witness :
  exists result,
    listAppHostingConnections
      (env := stubbed (listingStubs
                         [mockConn "apphosting-github-conn-baddcafe";
                          mockConn "hooray-conn";
                          mockConn "apphosting-github-conn-deadbeef";
                          mockConn "apphosting-github-oauth"]))
      "projectId" freshWorld
    = (Returned result, freshWorld,
       [EListAllConnections "projectId" "-"
          (Resolved [mockConn "apphosting-github-conn-baddcafe";
                     mockConn "hooray-conn";
                     mockConn "apphosting-github-conn-deadbeef";
                     mockConn "apphosting-github-oauth"])])
    /\ result = [mockConn "apphosting-github-conn-baddcafe";
                 mockConn "apphosting-github-conn-deadbeef"].
Proof.
  destruct (proj1 (@listAppHostingConnections_filters StubWorld
                     (stubbed (listingStubs
                                 [mockConn "apphosting-github-conn-baddcafe";
                                  mockConn "hooray-conn";
                                  mockConn "apphosting-github-conn-deadbeef";
                                  mockConn "apphosting-github-oauth"])))
                  "projectId" freshWorld _ _ eq_refl)
    as (result & Hrun & Hres & _).
  exists result. split; [exact Hrun | exact Hres].
Defined.


(** A string that is no fetch URL is outside that statement: listed as a
    clone URI, the reserved key [__proto__] replaces the prototype of the
    dictionary instead of becoming one of its keys. *)
Example fetchAllRepositories_reserved_key :
  fetchAllRepositories
    (env := stubbed (discoveryStubs [[LinkableGitRepository.mk "__proto__"]]))
    "projectId" [mockConn "conn0"] freshWorld
  = (Returned ([], Obj.mk (Some (mockConn "conn0")) []), mkWorld 0 1 0,
     listingEvents "projectId"
       [(mockConn "conn0", [LinkableGitRepository.mk "__proto__"])])
  /\ ~ fetchUrl "__proto__".
Proof.
  split; [reflexivity|].
  intros H. apply fetchUrl_not_reserved in H. congruence.
Qed.

(** The same run, evaluated: two clone URIs, each owned by the connection
    that listed it. *)
Example fetchAllRepositories_two_connections :
  fst (fst (fetchAllRepositories
              (env := stubbed (discoveryStubs [[linkable "repo-0"]; [linkable "repo-1"]]))
              "projectId" [mockConn "conn0"; mockConn "conn1"] freshWorld))
  = Returned
      (["https://github.com/test/repo-0.git"; "https://github.com/test/repo-1.git"],
       Obj.mk None
         [("https://github.com/test/repo-0.git", mockConn "conn0");
          ("https://github.com/test/repo-1.git", mockConn "conn1")]).
Proof. reflexivity. Qed.

(** Creation order gives way to numeric order for keys that are array
    indices. *)
Example keys_order :
  Obj.keys (Obj.set "2" 0 (Obj.set "b" 1 (Obj.set "10" 2 (Obj.set "a" 3
              (Obj.set "01" 4 Obj.empty)))))
  = ["2"; "10"; "01"; "a"; "b"].
Proof. reflexivity. Qed.

(** * Further properties of the codec and of the derived ids *)

(** X1. Parsing is the inverse of the canonical format: a name that parses
    is the canonical name of its parts, which are non-empty and free of
    slashes, so two names with the same parts are the same name. *)
Theorem parseConnectionName_round_trip :
  (forall s parts,
      parseConnectionName s = Some parts ->
      connectionName (projectId parts) (location parts) (id parts) = s
      /\ projectId parts <> "" /\ location parts <> "" /\ id parts <> ""
      /\ slashFree (projectId parts) /\ slashFree (location parts)
      /\ slashFree (id parts))
  /\ (forall s1 s2 parts,
        parseConnectionName s1 = Some parts ->
        parseConnectionName s2 = Some parts -> s1 = s2).
Proof.
  split.
  - intros s parts H. apply parseConnectionName_Some in H.
    destruct H as (-> & H). split; [reflexivity | exact H].
  - intros s1 s2 parts H1 H2.
    apply parseConnectionName_Some in H1, H2.
    destruct H1 as [-> _], H2 as [-> _]. reflexivity.
Qed.

Lemma parseConnectionName_round_trip_witness :
  connectionName "my-project" "us-central1" "my-conn"
  = "projects/my-project/locations/us-central1/connections/my-conn".
Proof.
  apply (proj1 (proj1 parseConnectionName_round_trip
                  "projects/my-project/locations/us-central1/connections/my-conn"
                  (mkParts "my-project" "us-central1" "my-conn") eq_refl)).
Defined.

Lemma replaceAll_no_slash x : Str.contains "/" (Str.replaceAll "/" "-" x) = false.
Proof.
  induction x as [|c x IH]; [reflexivity|]. cbn [Str.replaceAll].
  destruct (Ascii.eqb_spec c "/") as [->|Hc]; cbn [append Str.contains].
  - rewrite IH. reflexivity.
  - rewrite IH, orb_false_r. apply Ascii.eqb_neq. congruence.
Qed.

Lemma replaceAll_length x :
  String.length (Str.replaceAll "/" "-" x) = String.length x.
Proof.
  induction x as [|c x IH]; [reflexivity|]. cbn [Str.replaceAll].
  destruct (Ascii.eqb c "/"); cbn [append String.length]; congruence.
Qed.

Lemma replaceAll_lineFree x : lineFree x -> lineFree (Str.replaceAll "/" "-" x).
Proof.
  unfold lineFree. induction x as [|c x IH]; [reflexivity|].
  cbn [Str.replaceAll Str.all]. intros H. apply andb_prop in H. destruct H as [Hc Hx].
  destruct (Ascii.eqb c "/"); cbn [append Str.all]; rewrite IH by assumption.
  - reflexivity.
  - rewrite Hc. reflexivity.
Qed.

(** X2. A derived repository id is a legal single path segment: it is not
    empty, holds no slash and no line terminator, and is as long as the
    slug it was derived from. *)
Theorem generateRepositoryId_legal :
  forall remoteUri repositoryId,
    generateRepositoryId remoteUri = Some repositoryId ->
    repositoryId <> ""
    /\ slashFree repositoryId
    /\ lineFree repositoryId
    /\ exists slug,
         extractRepoSlugFromUri remoteUri = Some slug
         /\ String.length repositoryId = String.length slug.
Proof.
  intros uri rid H. unfold generateRepositoryId in H.
  destruct (extractRepoSlugFromUri uri) as [slug|] eqn:E; [|discriminate].
  injection H as <-.
  apply extractRepoSlugFromUri_Some in E.
  destruct E as (_ & _ & _ & _ & _ & _ & _ & Hne & Hfree).
  split; [|split; [apply replaceAll_no_slash | split; [apply replaceAll_lineFree, Hfree|]]].
  - intros H. apply (f_equal String.length) in H. rewrite replaceAll_length in H.
    destruct slug; [congruence | discriminate].
  - exists slug. split; [reflexivity | apply replaceAll_length].
Qed.

Lemma generateRepositoryId_legal_witness :
  "user-repo" <> "" /\ slashFree "user-repo" /\ lineFree "user-repo"
  /\ exists slug,
       extractRepoSlugFromUri "https://github.com/user/repo.git" = Some slug
       /\ String.length "user-repo" = String.length slug.
Proof.
  apply (generateRepositoryId_legal "https://github.com/user/repo.git" "user-repo").
  reflexivity.
Defined.

Lemma generateRepositoryId_canonical x :
  x <> "" -> lineFree x ->
  generateRepositoryId ("https://github.com/" ++ x ++ ".git")
  = Some (Str.replaceAll "/" "-" x).
Proof.
  intros Hne Hfree. unfold generateRepositoryId.
  rewrite extractRepoSlugFromUri_canonical by assumption. reflexivity.
Qed.

Section CollisionFacts.

Context {W : Type} {env : Collaborators W}.

(** X3. Repository ids collide: a slash and a dash of the slug give the
    same id, so [OWNER/A-B] and [OWNER-A/B] are one [repositoryId].  For
    two clone URIs with one id [getOrCreateRepository] makes the same
    fetch.  When the fetch resolves, the link found is returned for
    either URI, and when it is rejected with another status than 404 the
    rejection is thrown for either: the two runs are the same.  On a 404
    the runs differ: each asks to create the link under the shared id,
    with its own clone URI. *)
Theorem generateRepositoryId_collides :
  (forall a b c,
      lineFree a -> lineFree b -> lineFree c ->
      slashFree a -> slashFree b -> slashFree c ->
      generateRepositoryId ("https://github.com/" ++ a ++ "/" ++ b ++ "-" ++ c ++ ".git")
      = Some (a ++ "-" ++ b ++ "-" ++ c)
      /\ generateRepositoryId
           ("https://github.com/" ++ a ++ "-" ++ b ++ "/" ++ c ++ ".git")
         = Some (a ++ "-" ++ b ++ "-" ++ c))
  /\ (forall projectId location connectionId uri1 uri2 repositoryId (w : W),
        generateRepositoryId uri1 = Some repositoryId ->
        generateRepositoryId uri2 = Some repositoryId ->
        let get :=
          EGetGitRepositoryLink projectId location connectionId repositoryId in
        let run1 := getOrCreateRepository projectId location connectionId uri1 w in
        let run2 := getOrCreateRepository projectId location connectionId uri2 w in
        (forall repo w1,
            devConnect_getGitRepositoryLink projectId location connectionId
              repositoryId w = (Resolved repo, w1) ->
            run1 = (Returned repo, w1, [get (Resolved repo)]) /\ run2 = run1)
        /\ (forall err w1,
               devConnect_getGitRepositoryLink projectId location connectionId
                 repositoryId w = (Rejected err, w1) ->
               status err <> Some 404%Z ->
               run1 = (Thrown err, w1, [get (Rejected err)]) /\ run2 = run1)
        /\ (forall err w1,
               devConnect_getGitRepositoryLink projectId location connectionId
                 repositoryId w = (Rejected err, w1) ->
               status err = Some 404%Z ->
               exists r1 rest1 r2 rest2,
                 snd run1
                 = get (Rejected err)
                     :: ECreateGitRepositoryLink projectId location connectionId
                          repositoryId uri1 r1 :: rest1
                 /\ snd run2
                    = get (Rejected err)
                        :: ECreateGitRepositoryLink projectId location connectionId
                             repositoryId uri2 r2 :: rest2)).
Proof.
  split.
  - intros a b c Ha Hb Hc Hsa Hsb Hsc.
    assert (forall x y, lineFree x -> lineFree y -> lineFree (x ++ y)) as Happ
      by (intros; apply lineFree_append; assumption).
    split.
    + replace ("https://github.com/" ++ a ++ "/" ++ b ++ "-" ++ c ++ ".git")
        with ("https://github.com/" ++ (a ++ "/" ++ b ++ "-" ++ c) ++ ".git")
        by (rewrite !append_assoc; reflexivity).
      rewrite generateRepositoryId_canonical.
      * f_equal. rewrite !replaceAll_append.
        rewrite (replaceAll_free _ a), (replaceAll_free _ b),
          (replaceAll_free _ c) by assumption.
        reflexivity.
      * destruct a; discriminate.
      * apply Happ; [assumption|]. apply (Happ "/"); [reflexivity|].
        apply Happ; [assumption|]. apply (Happ "-"); [reflexivity | assumption].
    + replace ("https://github.com/" ++ a ++ "-" ++ b ++ "/" ++ c ++ ".git")
        with ("https://github.com/" ++ (a ++ "-" ++ b ++ "/" ++ c) ++ ".git")
        by (rewrite !append_assoc; reflexivity).
      rewrite generateRepositoryId_canonical.
      * f_equal. rewrite !replaceAll_append.
        rewrite (replaceAll_free _ a), (replaceAll_free _ b),
          (replaceAll_free _ c) by assumption.
        reflexivity.
      * destruct a; discriminate.
      * apply Happ; [assumption|]. apply (Happ "-"); [reflexivity|].
        apply Happ; [assumption|]. apply (Happ "/"); [reflexivity | assumption].
  - intros projectId location connectionId uri1 uri2 repositoryId w H1 H2
      get run1 run2.
    subst get run1 run2.
    rewrite (getOrCreateRepository_run _ _ _ _ _ _ H1),
      (getOrCreateRepository_run _ _ _ _ _ _ H2). cbv zeta.
    split; [|split].
    + intros repo w1 Hget. rewrite Hget. split; reflexivity.
    + intros err w1 Hget Hst. rewrite Hget, (statusIs_false _ _ Hst).
      split; reflexivity.
    + intros err w1 Hget Hst. rewrite Hget. unfold statusIs.
      rewrite Hst, Z.eqb_refl.
      destruct (devConnect_createGitRepositoryLink _ _ _ _ uri1 w1) as [[op1|e1] v1];
        destruct (devConnect_createGitRepositoryLink _ _ _ _ uri2 w1) as [[op2|e2] v2];
        try destruct (poller_pollRepository _ v1) as [[repo1|p1] v1'];
        try destruct (poller_pollRepository _ v2) as [[repo2|p2] v2'];
        cbn [snd]; do 4 eexists; split; reflexivity.
Qed.

End CollisionFacts.

(** A witness of [generateRepositoryId_collides]: [user/my-repo] and
    [user-my/repo] share the id [user-my-repo]; the link found under that
    id is returned for both. *)
Lemma generateRepositoryId_collides_witness :
  (generateRepositoryId ("https://github.com/" ++ "user" ++ "/" ++ "my" ++ "-" ++ "repo" ++ ".git")
   = Some ("user" ++ "-" ++ "my" ++ "-" ++ "repo")
   /\ generateRepositoryId
        ("https://github.com/" ++ "user" ++ "-" ++ "my" ++ "/" ++ "repo" ++ ".git")
      = Some ("user" ++ "-" ++ "my" ++ "-" ++ "repo"))
  /\ (getOrCreateRepository
        (env := stubbed (linkingStubs completeConn (mockRepo "user-my-repo")))
        "projectId" "us-central1" "apphosting-us-central1"
        "https://github.com/user/my-repo.git" freshWorld
      = (Returned (mockRepo "user-my-repo"), freshWorld,
         [EGetGitRepositoryLink "projectId" "us-central1" "apphosting-us-central1"
            "user-my-repo" (Resolved (mockRepo "user-my-repo"))])
      /\ getOrCreateRepository
           (env := stubbed (linkingStubs completeConn (mockRepo "user-my-repo")))
           "projectId" "us-central1" "apphosting-us-central1"
           "https://github.com/user-my/repo.git" freshWorld
         = getOrCreateRepository
             (env := stubbed (linkingStubs completeConn (mockRepo "user-my-repo")))
             "projectId" "us-central1" "apphosting-us-central1"
             "https://github.com/user/my-repo.git" freshWorld).
Proof.
  split.
  - apply (proj1 (@generateRepositoryId_collides StubWorld (stubbed defaultStubs))
             "user" "my" "repo"); reflexivity.
  - apply (proj1 (proj2 (@generateRepositoryId_collides StubWorld
                           (stubbed (linkingStubs completeConn
                                       (mockRepo "user-my-repo"))))
                    "projectId" "us-central1" "apphosting-us-central1"
                    "https://github.com/user/my-repo.git"
                    "https://github.com/user-my/repo.git" "user-my-repo" freshWorld
                    eq_refl eq_refl)
             (mockRepo "user-my-repo") freshWorld eq_refl).
Defined.

(** X4. On a canonical name whose project id and location do not start
    with [apphosting-github-conn-], the eligibility pattern holds exactly
    when the id is that prefix followed by a non-empty suffix free of line
    terminators. *)
Theorem APPHOSTING_CONN_PATTERN_on_canonical_names :
  forall P L C,
    slashFree P -> slashFree L -> slashFree C ->
    Str.stripPrefix "apphosting-github-conn-" P = None ->
    Str.stripPrefix "apphosting-github-conn-" L = None ->
    (test APPHOSTING_CONN_PATTERN (connectionName P L C) = true
     <-> exists suffix,
           C = "apphosting-github-conn-" ++ suffix
           /\ suffix <> "" /\ lineFree suffix).
Proof.
  intros P L C HP HL HC HPn HLn. split.
  - intros T. apply APPHOSTING_CONN_PATTERN_test in T.
    destruct T as (pre & a & b & E & _ & _ & Hb & Hbf).
    exists b. split; [|split; assumption].
    rewrite <- append_assoc in E. revert E.
    generalize (pre ++ a). intros u E.
    change (connectionName P L C)
      with ("projects" ++ String "/" (P ++ String "/" ("locations" ++ String "/"
              (L ++ String "/" ("connections" ++ String "/" C))))) in E.
    change ("/apphosting-github-conn-" ++ b)
      with (String "/" ("apphosting-github-conn-" ++ b)) in E.
    apply first_slash in E; [|reflexivity].
    destruct E as [[_ E] | (u1 & _ & E)].
    { symmetry in E. apply prefix_of_delimited in E; [contradiction | reflexivity]. }
    apply first_slash in E; [|assumption].
    destruct E as [[_ E] | (u2 & _ & E)]; [discriminate|].
    apply first_slash in E; [|reflexivity].
    destruct E as [[_ E] | (u3 & _ & E)].
    { symmetry in E. apply prefix_of_delimited in E; [contradiction | reflexivity]. }
    apply first_slash in E; [|assumption].
    destruct E as [[_ E] | (u4 & _ & E)]; [discriminate|].
    apply first_slash in E; [|reflexivity].
    destruct E as [[_ E] | (u5 & _ & E)]; [symmetry; exact E|].
    exfalso. revert E. apply slashFree_no_split. exact HC.
  - intros (suffix & -> & Hne & Hfree). apply generated_name_matches; assumption.
Qed.

Lemma APPHOSTING_CONN_PATTERN_on_canonical_names_witness :
  test APPHOSTING_CONN_PATTERN
    (connectionName "projectId" "us-central1" "apphosting-github-conn-baddcafe") = true
  <-> exists suffix,
        "apphosting-github-conn-baddcafe" = "apphosting-github-conn-" ++ suffix
        /\ suffix <> "" /\ lineFree suffix.
Proof.
  apply (APPHOSTING_CONN_PATTERN_on_canonical_names "projectId" "us-central1"
           "apphosting-github-conn-baddcafe"); reflexivity.
Defined.

(** * Further properties of the provisioners *)

Section ProvisionerBounds.

Context {W : Type} {env : Collaborators W}.

(** X5. Whatever the collaborators answer, a run of [getOrCreateConnection]
    or of [getOrCreateRepository] makes at most one create call, polls
    exactly when a create call resolved, and never prompts the user or
    opens a browser; [getOrCreateConnection] always makes exactly one
    fetch. *)
Theorem getOrCreate_call_bounds :
  (forall projectId location connectionId githubConfig (w : W),
      let tr :=
        snd (getOrCreateConnection projectId location connectionId githubConfig w) in
      count isFetch tr = 1
      /\ count isCreate tr <= 1
      /\ count isPoll tr = count isCreated tr
      /\ count isPrompt tr = 0 /\ count isBrowser tr = 0)
  /\ (forall projectId location connectionId cloneUri (w : W),
        let tr :=
          snd (getOrCreateRepository projectId location connectionId cloneUri w) in
        count isCreate tr <= 1
        /\ count isPoll tr = count isCreated tr
        /\ count isPrompt tr = 0 /\ count isBrowser tr = 0
        /\ count isFetch tr = 0).
Proof.
  split.
  - intros projectId location connectionId githubConfig w tr. subst tr.
    rewrite getOrCreateConnection_run. cbv zeta.
    destruct (devConnect_getConnection _ _ _ w) as [[conn|err] w1];
      [cbn; repeat split; lia|].
    destruct (statusIs err 404); [|cbn; repeat split; lia].
    destruct (devConnect_createConnection _ _ _ _ w1) as [[op|e] w2];
      [|cbn; repeat split; lia].
    destruct (poller_pollConnection _ w2) as [[conn|e] w3]; cbn; repeat split; lia.
  - intros projectId location connectionId cloneUri w tr. subst tr.
    destruct (generateRepositoryId cloneUri) as [repositoryId|] eqn:Hid.
    + rewrite (getOrCreateRepository_run _ _ _ _ _ _ Hid). cbv zeta.
      destruct (devConnect_getGitRepositoryLink _ _ _ _ w) as [[repo|err] w1];
        [cbn; repeat split; lia|].
      destruct (statusIs err 404); [|cbn; repeat split; lia].
      destruct (devConnect_createGitRepositoryLink _ _ _ _ _ w1) as [[op|e] w2];
        [|cbn; repeat split; lia].
      destruct (poller_pollRepository _ w2) as [[repo|e] w3];
        cbn; repeat split; lia.
    + unfold getOrCreateRepository. rewrite Hid. cbn. repeat split; lia.
Qed.

End ProvisionerBounds.

(** * Creating a fully installed connection *)

(** Membership and counting goals over an explicit log. *)
Ltac solve_log :=
  cbn; repeat split; try lia; intros;
  repeat match goal with
         | H : _ \/ _ |- _ => destruct H as [H|H]
         | H : False |- _ => contradiction
         | H : @eq Event _ _ |- _ => inversion H; subst; clear H
         end;
  auto.

Lemma count_app p t1 t2 : count p (t1 ++ t2) = count p t1 + count p t2.
Proof. unfold count. rewrite filter_app, length_app. reflexivity. Qed.

Section InstallationFacts.

Context {W : Type} {env : Collaborators W}.

(** Every path of [createConnection]. *)
Lemma createConnection_run projectId location connectionId githubConfig (w : W) :
  createConnection projectId location connectionId githubConfig w =
  let create := ECreateConnection projectId location connectionId githubConfig in
  match devConnect_createConnection projectId location connectionId githubConfig w with
  | (Resolved op, w1) =>
      let options :=
        devConnectPollerOptions ("create-" ++ location ++ "-" ++ connectionId)
          (Operation.name op) in
      match poller_pollConnection options w1 with
      | (Resolved conn, w2) =>
          (Returned conn, w2, [create (Resolved op); EPollConnection options (Resolved conn)])
      | (Rejected e, w2) =>
          (Thrown e, w2, [create (Resolved op); EPollConnection options (Rejected e)])
      end
  | (Rejected e, w1) => (Thrown e, w1, [create (Rejected e)])
  end.
Proof.
  unfold createConnection, bind, call, ret.
  destruct (devConnect_createConnection _ _ _ _ w) as [[op|e] w1]; [|reflexivity].
  destruct (poller_pollConnection _ w1) as [[conn|e] w2]; reflexivity.
Qed.

(** Every path of [ensureFullyInstalledConnection] under positive fuel. *)
Lemma ensureFullyInstalledConnection_run fuel projectId location connectionId
    oauthConn (w : W) :
  ensureFullyInstalledConnection (S fuel) projectId location connectionId oauthConn w =
  if String.eqb (stageOf oauthConn) "COMPLETE" then (Returned oauthConn, w, [])
  else
    let targetUri :=
      Str.replace "install_v2" "direct_install_v2"
        (actionUri (Connection.installationState oauthConn)) in
    let q :=
      mkQuestion "input"
        "Press Enter once you have installed or configured the Firebase GitHub app to access your GitHub repo." in
    let logs :=
      [ELogBullet
         "Install the Firebase GitHub app to enable access to GitHub repositories";
       ELogBullet targetUri] in
    match utils_openInBrowser targetUri w with
    | (Rejected e, w1) => (Thrown e, w1, logs ++ [EOpenInBrowser targetUri (Rejected e)])
    | (Resolved u, w1) =>
        match prompt_promptOnce q w1 with
        | (Rejected e, w2) =>
            (Thrown e, w2,
             logs ++ [EOpenInBrowser targetUri (Resolved u); EPromptOnce q (Rejected e)])
        | (Resolved answer, w2) =>
            match devConnect_getConnection projectId location connectionId w2 with
            | (r, w3) =>
                (match r with
                 | Resolved conn => Returned conn
                 | Rejected e => Thrown e
                 end,
                 w3,
                 logs ++ [EOpenInBrowser targetUri (Resolved u);
                          EPromptOnce q (Resolved answer);
                          EGetConnection projectId location connectionId r])
            end
        end
    end%list.
Proof.
  unfold ensureFullyInstalledConnection, stageOf. unfold bind at 1. cbn [while].
  destruct (String.eqb _ "COMPLETE"); cbn [negb]; [reflexivity|].
  unfold bind, logBullet, emit, promptOnce, getConnection, call, ret.
  destruct (utils_openInBrowser _ w) as [[u|e] w1]; [|reflexivity].
  destruct (prompt_promptOnce _ w1) as [[answer|e] w2]; [|reflexivity].
  destruct (devConnect_getConnection _ _ _ w2) as [[conn|e] w3]; reflexivity.
Qed.

(** [createFullyInstalledConnection] in terms of its two steps. *)
Lemma createFullyInstalledConnection_run fuel projectId location connectionId
    oauthConn (w : W) :
  createFullyInstalledConnection fuel projectId location connectionId oauthConn w =
  let debug := ELogBullet "debug: creating fully installed connection" in
  match createConnection projectId location connectionId
          (Some (mkGitHubConfig (credentialOf oauthConn) None)) w with
  | (Returned conn, w1, t1) =>
      match ensureFullyInstalledConnection fuel projectId location connectionId
              conn w1 with
      | (Returned conn', w2, t2) =>
          (Returned conn', w2,
           debug :: t1 ++ t2
             ++ [ELogBullet ("created connection: " ++ JSON_stringify conn')])
      | (Thrown e, w2, t2) => (Thrown e, w2, debug :: t1 ++ t2)
      | (OutOfFuel, w2, t2) => (OutOfFuel, w2, debug :: t1 ++ t2)
      end
  | (Thrown e, w1, t1) => (Thrown e, w1, [debug] ++ t1)
  | (OutOfFuel, w1, t1) => (OutOfFuel, w1, [debug] ++ t1)
  end%list.
Proof.
  unfold createFullyInstalledConnection.
  unfold bind at 1. unfold logBullet at 1, emit at 1. unfold bind at 1.
  destruct (createConnection _ _ _ _ w) as [[[conn|e|] w1] t1]; try reflexivity.
  unfold bind at 1.
  destruct (ensureFullyInstalledConnection _ _ _ _ conn w1) as [[[conn'|e|] w2] t2];
    try reflexivity.
Qed.

(** X6. [createFullyInstalledConnection] creates the connection with the
    authorizer credential of the sentinel and no installation id, polls
    the operation, and returns the polled connection at once when it is
    complete; otherwise it asks the user once to install the app, fetches
    the new connection by its id and returns what it fetched. *)
Theorem createFullyInstalledConnection_installs :
  forall fuel projectId location connectionId oauthConn (w : W) op w1 conn w2,
    let config := Some (mkGitHubConfig (credentialOf oauthConn) None) in
    let options :=
      devConnectPollerOptions ("create-" ++ location ++ "-" ++ connectionId)
        (Operation.name op) in
    let created :=
      [ELogBullet "debug: creating fully installed connection";
       ECreateConnection projectId location connectionId config (Resolved op);
       EPollConnection options (Resolved conn)] in
    devConnect_createConnection projectId location connectionId config w
    = (Resolved op, w1) ->
    poller_pollConnection options w1 = (Resolved conn, w2) ->
    (stageOf conn = "COMPLETE" ->
     createFullyInstalledConnection (S fuel) projectId location connectionId oauthConn w
     = (Returned conn, w2,
        created ++ [ELogBullet ("created connection: " ++ JSON_stringify conn)])%list)
    /\ (forall w3 answer w4 conn' w5,
          stageOf conn <> "COMPLETE" ->
          let targetUri :=
            Str.replace "install_v2" "direct_install_v2"
              (actionUri (Connection.installationState conn)) in
          let q :=
            mkQuestion "input"
              "Press Enter once you have installed or configured the Firebase GitHub app to access your GitHub repo." in
          utils_openInBrowser targetUri w2 = (Resolved tt, w3) ->
          prompt_promptOnce q w3 = (Resolved answer, w4) ->
          devConnect_getConnection projectId location connectionId w4
          = (Resolved conn', w5) ->
          createFullyInstalledConnection (S fuel) projectId location connectionId
            oauthConn w
          = (Returned conn', w5,
             created
             ++ [ELogBullet
                   "Install the Firebase GitHub app to enable access to GitHub repositories";
                 ELogBullet targetUri;
                 EOpenInBrowser targetUri (Resolved tt);
                 EPromptOnce q (Resolved answer);
                 EGetConnection projectId location connectionId (Resolved conn');
                 ELogBullet ("created connection: " ++ JSON_stringify conn')])%list).
Proof.
  intros fuel projectId location connectionId oauthConn w op w1 conn w2
    config options created Hcreate Hpoll.
  subst config options created.
  assert (createConnection projectId location connectionId
            (Some (mkGitHubConfig (credentialOf oauthConn) None)) w
          = (Returned conn, w2,
             [ECreateConnection projectId location connectionId
                (Some (mkGitHubConfig (credentialOf oauthConn) None)) (Resolved op);
              EPollConnection
                (devConnectPollerOptions ("create-" ++ location ++ "-" ++ connectionId)
                   (Operation.name op))
                (Resolved conn)])) as Hc.
  { rewrite createConnection_run, Hcreate. cbv zeta. rewrite Hpoll. reflexivity. }
  split.
  - intros Hst. rewrite createFullyInstalledConnection_run, Hc.
    rewrite ensureFullyInstalledConnection_run, Hst. reflexivity.
  - intros w3 answer w4 conn' w5 Hst targetUri q Hopen Hprompt Hget.
    apply String.eqb_neq in Hst. subst targetUri q.
    rewrite createFullyInstalledConnection_run, Hc.
    rewrite ensureFullyInstalledConnection_run, Hst. cbv zeta.
    rewrite Hopen, Hprompt, Hget. reflexivity.
Qed.

(** X7. Whatever the collaborators answer, a run of
    [createFullyInstalledConnection] makes at most one create call, and
    that call carries the authorizer credential of the sentinel and no
    installation id; it prompts at most once and fetches at most once,
    always by the id it was given, and only after the poll resolved. *)
Theorem createFullyInstalledConnection_bounds :
  forall fuel projectId location connectionId oauthConn (w : W),
    let tr :=
      snd (createFullyInstalledConnection fuel projectId location connectionId
             oauthConn w) in
    (forall p l c config r,
        In (ECreateConnection p l c config r) tr ->
        p = projectId /\ l = location /\ c = connectionId
        /\ config = Some (mkGitHubConfig (credentialOf oauthConn) None))
    /\ (forall p l c r,
          In (EGetConnection p l c r) tr ->
          p = projectId /\ l = location /\ c = connectionId)
    /\ count isCreate tr <= 1
    /\ count isPrompt tr <= 1
    /\ count isFetch tr <= count isPoll tr
    /\ count isPoll tr = count isCreated tr.
Proof.
  intros fuel projectId location connectionId oauthConn w tr. subst tr.
  rewrite createFullyInstalledConnection_run, createConnection_run. cbv zeta.
  destruct (devConnect_createConnection _ _ _ _ w) as [[op|e] w1];
    [|solve_log].
  destruct (poller_pollConnection _ w1) as [[conn|e] w2]; [|solve_log].
  destruct fuel as [|fuel].
  - unfold ensureFullyInstalledConnection. unfold bind at 1. cbn [while].
    destruct (negb _); solve_log.
  - rewrite ensureFullyInstalledConnection_run. cbv zeta.
    destruct (String.eqb _ "COMPLETE"); [solve_log|].
    destruct (utils_openInBrowser _ w2) as [[u|e] w3]; [|solve_log].
    destruct (prompt_promptOnce _ w3) as [[answer|e] w4]; [|solve_log].
    destruct (devConnect_getConnection _ _ _ w4) as [[conn'|e] w5]; solve_log.
Qed.

End InstallationFacts.

Lemma createFullyInstalledConnection_installs_witness :
  createFullyInstalledConnection (env := stubbed (creatingStubs completeConn))
    1 "projectId" "us-central1" "apphosting-github-conn-o82mvyr" credentialedConn
    freshWorld
  = (Returned completeConn, freshWorld,
     [ELogBullet "debug: creating fully installed connection";
      ECreateConnection "projectId" "us-central1" "apphosting-github-conn-o82mvyr"
        (Some (mkGitHubConfig (Some "oauth-token-secret") None)) (Resolved mockOp);
      EPollConnection
        (devConnectPollerOptions (env := stubbed (creatingStubs completeConn))
           "create-us-central1-apphosting-github-conn-o82mvyr" (Operation.name mockOp))
        (Resolved completeConn);
      ELogBullet ("created connection: " ++ Connection.name completeConn)]).
Proof.
  apply (proj1 (@createFullyInstalledConnection_installs StubWorld
                  (stubbed (creatingStubs completeConn))
                  0 "projectId" "us-central1" "apphosting-github-conn-o82mvyr"
                  credentialedConn freshWorld mockOp freshWorld completeConn freshWorld
                  eq_refl eq_refl)).
  reflexivity.
Defined.

(** * Further properties of the authorisation loop *)

(** Arithmetic of counts over concatenated logs. *)
Ltac counts :=
  unfold count in *;
  rewrite ?filter_app, ?length_app in *;
  cbn [filter length app isCleanup isPromptAnswered isPopupOpened isFetch isPrompt
         isCreate isPoll isCreated isBrowser] in *;
  rewrite ?filter_app, ?length_app in *;
  cbn [filter length app] in *;
  lia.

Section OauthFacts.

Context {W : Type} {env : Collaborators W}.

Lemma getOrCreateConnection_quiet projectId location connectionId githubConfig (w : W) :
  let tr := snd (getOrCreateConnection projectId location connectionId githubConfig w) in
  count isCleanup tr = 0 /\ count isPromptAnswered tr = 0
  /\ count isPopupOpened tr = 0 /\ count isFetch tr = 1.
Proof.
  intros tr. subst tr. rewrite getOrCreateConnection_run. cbv zeta.
  destruct (devConnect_getConnection _ _ _ w) as [[conn|err] w1]; [solve_log|].
  destruct (statusIs err 404); [|solve_log].
  destruct (devConnect_createConnection _ _ _ _ w1) as [[op|e] w2]; [|solve_log].
  destruct (poller_pollConnection _ w2) as [[conn|e] w3]; solve_log.
Qed.

Lemma bind_run {A B} (m : M W A) (f : A -> M W B) (w : W) :
  bind m f w =
  match m w with
  | (Returned a, w1, t1) => let '(o, w2, t2) := f a w1 in (o, w2, (t1 ++ t2)%list)
  | (Thrown e, w1, t1) => (Thrown e, w1, t1)
  | (OutOfFuel, w1, t1) => (OutOfFuel, w1, t1)
  end.
Proof. reflexivity. Qed.

(** X8. In every run of [getOrCreateOauthConnection] the popup opened for
    a pass is closed again once the prompt is answered: cleanups and
    answered prompts are equal in number, and popups exceed them by at
    most one; a popup stays open only when the run ends with the
    rejection of the prompt, which is then thrown. *)
Theorem getOrCreateOauthConnection_closes_popups :
  forall fuel projectId location (w : W),
    let '(o, _, tr) := getOrCreateOauthConnection fuel projectId location w in
    count isCleanup tr = count isPromptAnswered tr
    /\ (count isPopupOpened tr = count isCleanup tr
        \/ (count isPopupOpened tr = S (count isCleanup tr)
            /\ exists tr0 q e, tr = (tr0 ++ [EPromptOnce q (Rejected e)])%list
                               /\ o = Thrown e))
    /\ ((exists conn, o = Returned conn) ->
        count isPopupOpened tr = count isCleanup tr).
Proof.
  intros fuel projectId location w.
  assert (forall (o : Outcome Connection) tr,
             count isCleanup tr = count isPromptAnswered tr
             /\ (count isPopupOpened tr = count isCleanup tr
                 \/ (count isPopupOpened tr = S (count isCleanup tr)
                     /\ exists tr0 q e, tr = (tr0 ++ [EPromptOnce q (Rejected e)])%list
                                        /\ o = Thrown e)) ->
             count isCleanup tr = count isPromptAnswered tr
             /\ (count isPopupOpened tr = count isCleanup tr
                 \/ (count isPopupOpened tr = S (count isCleanup tr)
                     /\ exists tr0 q e, tr = (tr0 ++ [EPromptOnce q (Rejected e)])%list
                                        /\ o = Thrown e))
             /\ ((exists conn, o = Returned conn) ->
                 count isPopupOpened tr = count isCleanup tr)) as Hfin.
  { intros o tr (H1 & H2). repeat split; auto.
    intros [conn Ho]. destruct H2 as [H2 | (? & ? & ? & ? & ? & H2)];
      [assumption | congruence]. }
  unfold getOrCreateOauthConnection. rewrite bind_run.
  pose proof (getOrCreateConnection_quiet projectId location
                APPHOSTING_OAUTH_CONN_NAME None w) as Hq. cbv zeta in Hq.
  destruct (getOrCreateConnection _ _ _ _ w) as [[[conn0|e|] w0] tr0];
    cbn [snd] in Hq; destruct Hq as (Hq1 & Hq2 & Hq3 & _);
    [|apply Hfin; split; [lia | left; lia] ..].
  rewrite bind_run. unfold logBullet at 1, emit at 1. rewrite bind_run.
  match goal with
  | |- context [while _ ?c ?b _ _] => set (cond := c); set (body := b)
  end.
  assert (forall n c0 v,
             let '(o, _, tr) := while n cond body c0 v in
             count isCleanup tr = count isPromptAnswered tr
             /\ (count isPopupOpened tr = count isCleanup tr
                 \/ (count isPopupOpened tr = S (count isCleanup tr)
                     /\ exists tr0 q e,
                          tr = (tr0 ++ [EPromptOnce q (Rejected e)])%list
                          /\ o = Thrown e))) as Hloop.
  { clear. induction n as [|n IH]; intros c0 v; cbn [while];
      destruct (cond c0); try (cbn; split; [|left]; reflexivity).
    rewrite bind_run. unfold body at 1.
    unfold bind, logBullet, emit, promptOnce, getConnection, call, ret, throw.
    destruct (utils_openInBrowserPopup _ _ v) as [[url|e] v1];
      [|cbn; split; [|left]; reflexivity].
    destruct (prompt_promptOnce _ v1) as [[answer|e] v2].
    2:{ cbn. split; [reflexivity|]. right. split; [reflexivity|].
        eexists [_; _; _; _], _, e. split; reflexivity. }
    destruct (parseConnectionName (Connection.name c0)) as [[p l i]|];
      [|cbn; split; [|left]; reflexivity].
    destruct (devConnect_getConnection p l i v2) as [[c1|e] v3];
      [|cbn; split; [|left]; reflexivity].
    specialize (IH c1 v3).
    destruct (while n cond body c1 v3) as [[o1 v4] t1].
    destruct IH as (H1 & H2).
    unfold count in *.
    cbn [app filter length isCleanup isPromptAnswered isPopupOpened].
    split; [lia|].
    destruct H2 as [H2 | (H2 & tr0 & q & e & -> & ->)]; [left; lia|].
    right. split; [lia|].
    eexists ([_; _; _; _; _; _; _] ++ tr0)%list, q, e. split; reflexivity. }
  specialize (Hloop fuel conn0 w0).
  destruct (while fuel cond body conn0 w0) as [[[f|e|] w1] t1];
    destruct Hloop as (H1 & H2).
  - destruct f as [c|c]; cbn [ret app]; rewrite app_nil_r;
      apply Hfin; (split; [counts|]);
      (destruct H2 as [H2 | (? & ? & ? & ? & ? & H2)]; [left; counts | discriminate]).
  - apply Hfin. split; [counts|].
    destruct H2 as [H2 | (H2 & tr1 & q & e' & -> & E)]; [left; counts|].
    right. split; [counts|]. injection E as <-.
    eexists (tr0 ++ _ :: tr1)%list, q, e.
    rewrite <- app_assoc. split; reflexivity.
  - apply Hfin. split; [counts|].
    destruct H2 as [H2 | (? & ? & ? & ? & ? & H2)]; [left; counts | discriminate].
Qed.

(** X9. The authorisation loop has no bound of its own: while every fetch
    of the sentinel finds it pending and the user keeps answering, each
    unit of fuel is spent on one more pass, with one prompt and one fetch,
    and the run never returns. *)
Theorem getOrCreateOauthConnection_unbounded :
  forall project loc pending p l i,
    stageOf pending = "PENDING_USER_OAUTH" ->
    parseConnectionName (Connection.name pending) = Some (mkParts p l i) ->
    (forall w : W,
        fst (devConnect_getConnection project loc APPHOSTING_OAUTH_CONN_NAME w)
        = Resolved pending) ->
    (forall w : W, fst (devConnect_getConnection p l i w) = Resolved pending) ->
    (forall uri title (w : W),
        exists url, fst (utils_openInBrowserPopup uri title w) = Resolved url) ->
    (forall q (w : W), exists answer, fst (prompt_promptOnce q w) = Resolved answer) ->
    forall fuel (w : W),
      let '(o, _, tr) := getOrCreateOauthConnection fuel project loc w in
      o = OutOfFuel
      /\ count isPromptAnswered tr = fuel
      /\ count isFetch tr = S fuel.
Proof.
  intros project loc pending p l i Hstage Hname Hfirst Hagain Hpopup Hprompt fuel w.
  unfold getOrCreateOauthConnection. rewrite bind_run, getOrCreateConnection_run.
  cbv zeta. specialize (Hfirst w).
  destruct (devConnect_getConnection project loc _ w) as [r w0].
  cbn [fst] in Hfirst. subst r.
  rewrite bind_run. unfold logBullet at 1, emit at 1. rewrite bind_run.
  match goal with
  | |- context [while _ ?c ?b _ _] => set (cond := c); set (body := b)
  end.
  assert (forall n v,
             let '(o, _, tr) := while n cond body pending v in
             o = OutOfFuel /\ count isPromptAnswered tr = n
             /\ count isFetch tr = n) as Hloop.
  { assert (cond pending = true) as Hc
        by (unfold cond; apply String.eqb_eq; exact Hstage).
    induction n as [|n IH]; intros v; cbn [while]; rewrite Hc;
      [cbn; auto|].
    rewrite bind_run. unfold body at 1.
    unfold bind, logBullet, emit, promptOnce, getConnection, call, ret, throw.
    destruct (Hpopup (actionUri (Connection.installationState pending))
                "Authorize the GitHub app" v) as [url Hu].
    destruct (utils_openInBrowserPopup _ _ v) as [r v1]. cbn [fst] in Hu. subst r.
    destruct (Hprompt (mkQuestion "input"
                         "Press Enter once you have authorized the app") v1)
      as [answer Ha].
    destruct (prompt_promptOnce _ v1) as [r v2]. cbn [fst] in Ha. subst r.
    rewrite Hname. specialize (Hagain v2).
    destruct (devConnect_getConnection p l i v2) as [r v3].
    cbn [fst] in Hagain. subst r.
    specialize (IH v3).
    destruct (while n cond body pending v3) as [[o1 v4] t1].
    destruct IH as (-> & H1 & H2).
    split; [reflexivity|]. unfold count in *.
    cbn [app filter length isPromptAnswered isFetch]. lia. }
  specialize (Hloop fuel w0).
  destruct (while fuel cond body pending w0) as [[o1 w1] t1].
  destruct Hloop as (-> & H1 & H2).
  split; [reflexivity|]. unfold count in *.
  cbn [app filter length isPromptAnswered isFetch]. lia.
Qed.

End OauthFacts.

(** A witness of [getOrCreateOauthConnection_unbounded]: the sentinel of
    the unit tests, found pending at every fetch. *)
Lemma getOrCreateOauthConnection_unbounded_witness :
  let '(o, _, tr) :=
    getOrCreateOauthConnection
      (env := stubbed (foundStubs (sentinelAt "PENDING_USER_OAUTH")))
      4 "projectId" "us-central1" freshWorld in
  o = OutOfFuel /\ count isPromptAnswered tr = 4 /\ count isFetch tr = 5.
Proof.
  apply (@getOrCreateOauthConnection_unbounded StubWorld
           (stubbed (foundStubs (sentinelAt "PENDING_USER_OAUTH")))
           "projectId" "us-central1" (sentinelAt "PENDING_USER_OAUTH")
           "projectId" "us-central1" APPHOSTING_OAUTH_CONN_NAME).
  - reflexivity.
  - vm_compute. reflexivity.
  - intros w. reflexivity.
  - intros w. reflexivity.
  - intros uri title w. exists uri. reflexivity.
  - intros q w. exists "any key". reflexivity.
Defined.
(** * Further properties of repository discovery *)

Lemma lookupConnection_set uri k v (o : Obj.t Connection) c :
  lookupConnection uri (Obj.set k v o) = Some c ->
  (c = v /\ uri = k) \/ lookupConnection uri o = Some c.
Proof.
  unfold lookupConnection, Obj.set, Obj.getOwn.
  destruct (String.eqb_spec k "__proto__") as [->|Hk]; cbn [Obj.own Obj.prototype].
  - destruct (Obj.assoc uri (Obj.own o)); [auto|].
    destruct (String.eqb_spec uri "__proto__") as [->|]; [|discriminate].
    intros [= ->]. auto.
  - rewrite assoc_upsert. destruct (String.eqb_spec k uri) as [->|].
    + intros [= ->]. auto.
    + auto.
Qed.

Lemma lookupConnection_fold uri conn repos : forall (o : Obj.t Connection) c,
  lookupConnection uri
    (fold_left (fun o repo => Obj.set (LinkableGitRepository.cloneUri repo) conn o)
       repos o) = Some c ->
  (c = conn /\ In uri (repoUris repos)) \/ lookupConnection uri o = Some c.
Proof.
  induction repos as [|r repos IH]; intros o c; cbn [fold_left repoUris map In].
  - auto.
  - intros H. apply IH in H. destruct H as [[-> H]|H]; [auto|].
    apply lookupConnection_set in H. destruct H as [[-> ->]|H]; auto.
Qed.

Lemma own_keys_fold conn repos : forall (o : Obj.t Connection),
  let o' := fold_left (fun o repo => Obj.set (LinkableGitRepository.cloneUri repo) conn o)
              repos o in
  (NoDup (map fst (Obj.own o)) -> NoDup (map fst (Obj.own o')))
  /\ (forall uri, In uri (map fst (Obj.own o')) ->
                  In uri (map fst (Obj.own o)) \/ In uri (repoUris repos)).
Proof.
  induction repos as [|r repos IH]; intros o; cbn [fold_left repoUris map In].
  - cbv zeta. auto.
  - cbv zeta. specialize (IH (Obj.set (LinkableGitRepository.cloneUri r) conn o)).
    cbv zeta in IH. destruct IH as (Hnd & Hin).
    assert (forall uri,
               In uri (map fst (Obj.own (Obj.set (LinkableGitRepository.cloneUri r)
                                          conn o))) ->
               In uri (map fst (Obj.own o))
               \/ LinkableGitRepository.cloneUri r = uri) as Hset.
    { intros uri. unfold Obj.set.
      destruct (String.eqb _ "__proto__"); cbn [Obj.own]; [auto|].
      rewrite upsert_In. intuition. }
    split.
    + intros H. apply Hnd. unfold Obj.set.
      destruct (String.eqb _ "__proto__"); cbn [Obj.own]; [exact H|].
      apply upsert_NoDup, H.
    + intros uri H. apply Hin in H. destruct H as [H|H]; [|auto].
      apply Hset in H. intuition.
Qed.

Lemma assoc_In {V} k (l : list (string * V)) :
  In k (map fst l) -> Obj.assoc k l <> None.
Proof.
  induction l as [|[k0 v0] l IH]; cbn [map fst In Obj.assoc]; [intros []|].
  intros [->|H]; [rewrite String.eqb_refl; discriminate|].
  destruct (String.eqb k0 k); [discriminate | auto].
Qed.

Lemma count_listingEvents projectId cl :
  Forall (fun p => parseConnectionName (Connection.name (fst p)) <> None) cl ->
  count isListing (listingEvents projectId cl) = length cl.
Proof.
  induction 1 as [|[conn repos] cl Hp _ IH]; [reflexivity|].
  cbn [fst] in Hp.
  change (listingEvents projectId ((conn, repos) :: cl))
    with ((match parseConnectionName (Connection.name conn) with
           | Some parts =>
               [EListAllLinkableGitRepositories projectId (location parts) (id parts)
                  (Resolved repos)]
           | None => []
           end) ++ listingEvents projectId cl)%list.
  destruct (parseConnectionName (Connection.name conn)); [|congruence].
  rewrite count_app, IH. reflexivity.
Qed.

Section DiscoveryMore.

Context {W : Type} {env : Collaborators W}.

Lemma forOf_app_run {X S} (xs ys : list X) (body : X -> S -> M W S) s (w : W) :
  forOf (xs ++ ys) body s w =
  match forOf xs body s w with
  | (Returned s', w1, t1) =>
      let '(o, w2, t2) := forOf ys body s' w1 in (o, w2, (t1 ++ t2)%list)
  | (Thrown e, w1, t1) => (Thrown e, w1, t1)
  | (OutOfFuel, w1, t1) => (OutOfFuel, w1, t1)
  end.
Proof.
  revert s w. induction xs as [|x xs IH]; intros s w; cbn [app].
  - cbn [forOf ret]. destruct (forOf ys body s w) as [[o w2] t2]. reflexivity.
  - rewrite !forOf_cons_run. destruct (body x s w) as [[[s'|e|] w1] t1]; try reflexivity.
    rewrite IH. destruct (forOf xs body s' w1) as [[[s''|e|] w2] t2]; try reflexivity.
    destruct (forOf ys body s'' w2) as [[o w3] t3]. rewrite app_assoc. reflexivity.
Qed.

(** What the loop of [fetchAllRepositories] keeps, whatever the names and
    the answers: one listing call at most per connection, and a
    dictionary whose connections are connections of the list, each under
    a clone URI it listed in this run. *)
Lemma fetch_loop_any projectId body :
  body = (fun conn cloneUriToConnection =>
            match parseConnectionName (Connection.name conn) with
            | None => throw TypeError
            | Some (mkParts _ location id) =>
                connectionRepos <-
                  call (devConnect_listAllLinkableGitRepositories projectId location id)
                       (EListAllLinkableGitRepositories projectId location id) ;;
                ret (fold_left
                       (fun o repo =>
                          Obj.set (LinkableGitRepository.cloneUri repo) conn o)
                       connectionRepos cloneUriToConnection)
            end) ->
  forall conns o (w : W),
    let '(out, _, tr) := forOf conns body o w in
    count isListing tr <= length conns
    /\ forall o', out = Returned o' ->
         count isListing tr = length conns
         /\ (NoDup (map fst (Obj.own o)) -> NoDup (map fst (Obj.own o')))
         /\ (forall uri, In uri (map fst (Obj.own o')) ->
               In uri (map fst (Obj.own o))
               \/ exists l i repos,
                    In (EListAllLinkableGitRepositories projectId l i (Resolved repos)) tr
                    /\ In uri (repoUris repos))
         /\ (forall uri c, lookupConnection uri o' = Some c ->
               lookupConnection uri o = Some c
               \/ (In c conns
                   /\ exists p l i repos,
                        parseConnectionName (Connection.name c) = Some (mkParts p l i)
                        /\ In (EListAllLinkableGitRepositories projectId l i
                                 (Resolved repos)) tr
                        /\ In uri (repoUris repos))).
Proof.
  intros Hbody. induction conns as [|conn conns IH]; intros o w.
  - cbn. split; [lia|]. intros o' [= <-]. auto.
  - rewrite forOf_cons_run.
    assert (body conn o w =
            match parseConnectionName (Connection.name conn) with
            | None => (Thrown TypeError, w, [])
            | Some (mkParts _ l i) =>
                match devConnect_listAllLinkableGitRepositories projectId l i w with
                | (Resolved repos, w1) =>
                    (Returned
                       (fold_left
                          (fun o repo =>
                             Obj.set (LinkableGitRepository.cloneUri repo) conn o)
                          repos o),
                     w1,
                     [EListAllLinkableGitRepositories projectId l i (Resolved repos)])
                | (Rejected e, w1) =>
                    (Thrown e, w1,
                     [EListAllLinkableGitRepositories projectId l i (Rejected e)])
                end
            end) as Hb.
    { rewrite Hbody. cbv beta.
      destruct (parseConnectionName (Connection.name conn)) as [[p l i]|];
        [|reflexivity].
      unfold bind, call, ret.
      destruct (devConnect_listAllLinkableGitRepositories projectId l i w)
        as [[repos|e] w1]; reflexivity. }
    rewrite Hb. clear Hb.
    destruct (parseConnectionName (Connection.name conn)) as [[p l i]|] eqn:Hparse;
      [|cbn; split; [lia | discriminate]].
    destruct (devConnect_listAllLinkableGitRepositories projectId l i w)
      as [[repos|e] w1]; [|cbn; split; [lia | discriminate]].
    set (o1 := fold_left _ repos o).
    specialize (IH o1 w1). destruct (forOf conns body o1 w1) as [[out w2] tr].
    destruct IH as (Hle & IH). cbn [app length].
    split; [unfold count in *; cbn [filter isListing length]; lia|].
    intros o' ->. destruct (IH o' eq_refl) as (Hn & Hnd & Hkeys & Hval).
    destruct (own_keys_fold conn repos o) as (Hnd1 & Hkeys1). fold o1 in Hnd1, Hkeys1.
    split; [unfold count in *; cbn [filter isListing length]; lia|].
    split; [auto|]. split.
    + intros uri H. apply Hkeys in H. destruct H as [H|(l' & i' & repos' & H1 & H2)].
      * apply Hkeys1 in H. destruct H as [H|H]; [auto|].
        right. exists l, i, repos. split; [left; reflexivity | exact H].
      * right. exists l', i', repos'. split; [right; exact H1 | exact H2].
    + intros uri c H. apply Hval in H.
      destruct H as [H|(Hin & p' & l' & i' & repos' & H1 & H2 & H3)].
      * apply lookupConnection_fold in H. destruct H as [[-> H]|H]; [|auto].
        right. split; [left; reflexivity|].
        exists p, l, i, repos. split; [exact Hparse|].
        split; [left; reflexivity | exact H].
      * right. split; [right; exact Hin|].
        exists p', l', i', repos'. split; [exact H1|].
        split; [right; exact H2 | exact H3].
Qed.

(** X10. Whatever the collaborators answer, [fetchAllRepositories] makes
    at most one listing call per connection.  When it returns, it made
    exactly one per connection; [cloneUris] holds no URI twice, and every
    URI in it is in the dictionary with a connection; and every
    connection the dictionary yields for a URI is one of the connections
    passed in, which listed that URI in this run, by the location and id
    of its name and in the project of the caller. *)
Theorem fetchAllRepositories_yields_listers :
  forall projectId connections (w : W),
    let '(out, _, tr) := fetchAllRepositories projectId connections w in
    count isListing tr <= length connections
    /\ forall cloneUris cloneUriToConnection,
         out = Returned (cloneUris, cloneUriToConnection) ->
         count isListing tr = length connections
         /\ NoDup cloneUris
         /\ (forall uri, In uri cloneUris ->
               exists conn, lookupConnection uri cloneUriToConnection = Some conn)
         /\ (forall uri conn,
               lookupConnection uri cloneUriToConnection = Some conn ->
               In conn connections
               /\ exists p l i repos,
                    parseConnectionName (Connection.name conn) = Some (mkParts p l i)
                    /\ In (EListAllLinkableGitRepositories projectId l i
                             (Resolved repos)) tr
                    /\ In uri (repoUris repos)).
Proof.
  intros projectId connections w. unfold fetchAllRepositories. unfold bind at 1.
  pose proof (fetch_loop_any projectId _ eq_refl connections Obj.empty w) as H.
  destruct (forOf connections _ Obj.empty w) as [[[o|e|] w1] tr];
    destruct H as (Hle & H); [|split; [exact Hle | discriminate] ..].
  cbn [ret]. rewrite app_nil_r. split; [exact Hle|].
  intros cloneUris m [= <- <-].
  destruct (H o eq_refl) as (Hn & Hnd & _ & Hval).
  split; [exact Hn|]. split.
  { eapply Permutation_NoDup; [apply Permutation_sym, keys_perm|].
    apply Hnd. constructor. }
  split.
  - intros uri Hin. apply (Permutation_in _ (keys_perm o)) in Hin.
    apply assoc_In in Hin. unfold lookupConnection, Obj.getOwn.
    destruct (Obj.assoc uri (Obj.own o)) as [c|]; [eauto | congruence].
  - intros uri conn Hl. apply Hval in Hl. destruct Hl as [Hl|Hl]; [|exact Hl].
    cbn in Hl. destruct (String.eqb uri "__proto__"); discriminate.
Qed.

(** X11. A connection whose name is not in the canonical format stops the
    discovery: when the connections before it have well-formed names, the
    run throws, either the rejection of a listing call for one of them,
    or a [TypeError] after exactly one resolved listing call for each of
    them; no listing call is made for the malformed connection or for
    those after it. *)
Theorem fetchAllRepositories_malformed_name :
  forall projectId before malformed after (w : W),
    (forall conn, In conn before ->
                  parseConnectionName (Connection.name conn) <> None) ->
    parseConnectionName (Connection.name malformed) = None ->
    exists e w' tr,
      fetchAllRepositories projectId (before ++ malformed :: after) w
      = (Thrown e, w', tr)
      /\ count isListing tr <= length before
      /\ ((lastRejection tr = Some e)
          \/ (e = TypeError
              /\ exists listings,
                   length listings = length before
                   /\ tr = listingEvents projectId (combine before listings))).
Proof.
  intros projectId before malformed after w Hwf Hbad.
  unfold fetchAllRepositories. unfold bind at 1.
  match goal with
  | |- context [forOf _ ?b _ _] => set (body := b)
  end.
  rewrite forOf_app_run.
  pose proof (fetch_loop_any projectId body eq_refl before Obj.empty w) as Hany.
  destruct (fetch_loop projectId body eq_refl before Obj.empty w Hwf)
    as (out & w1 & tr & Hrun & Hcases).
  rewrite Hrun in *. destruct Hany as (Hle & _).
  destruct Hcases as [(e & -> & Hrej) | (listings & Hlen & -> & ->)].
  - exists e, w1, tr. split; [reflexivity|]. split; [exact Hle|]. left. exact Hrej.
  - rewrite forOf_cons_run. unfold body at 1. rewrite Hbad. cbn [throw].
    rewrite app_nil_r. do 3 eexists. split; [reflexivity|].
    split; [exact Hle|]. right. split; [reflexivity|]. eauto.
Qed.

End DiscoveryMore.

(** A witness of [fetchAllRepositories_malformed_name]: the first
    connection lists a repository, the second has no canonical name, the
    third is never asked. *)
Lemma fetchAllRepositories_malformed_name_witness :
  exists e w' tr,
    fetchAllRepositories
      (env := stubbed (discoveryStubs [[linkable "repo0"]]))
      "projectId" ([mockConn "conn0"] ++ malformedConn :: [mockConn "conn1"])
      freshWorld
    = (Thrown e, w', tr)
    /\ count isListing tr <= length [mockConn "conn0"]
    /\ ((lastRejection tr = Some e)
        \/ (e = TypeError
            /\ exists listings,
                 length listings = length [mockConn "conn0"]
                 /\ tr = listingEvents "projectId"
                           (combine [mockConn "conn0"] listings))).
Proof.
  apply (@fetchAllRepositories_malformed_name StubWorld
           (stubbed (discoveryStubs [[linkable "repo0"]]))
           "projectId" [mockConn "conn0"] malformedConn [mockConn "conn1"] freshWorld).
  - intros conn [<-|[]]. vm_compute. discriminate.
  - vm_compute. reflexivity.
Defined.
(** * The orchestration: the grant of the Secret Manager role *)

Lemma bindF_run {W A B} (m : F W A) (f : A -> F W B) (w : W) :
  bindF m f w =
  match m w with
  | (Returned a, w1, t1) => let '(o, w2, t2) := f a w1 in (o, w2, (t1 ++ t2)%list)
  | (Thrown e, w1, t1) => (Thrown e, w1, t1)
  | (OutOfFuel, w1, t1) => (OutOfFuel, w1, t1)
  end.
Proof. reflexivity. Qed.

Lemma lift_run {W A} (m : M W A) (w : W) :
  lift m w = let '(o, w', tr) := m w in (o, w', map ECore tr).
Proof. reflexivity. Qed.

Lemma coreOf_app t1 t2 : coreOf (t1 ++ t2) = (coreOf t1 ++ coreOf t2)%list.
Proof. unfold coreOf. apply flat_map_app. Qed.

Lemma coreOf_map tr : coreOf (map ECore tr) = tr.
Proof.
  induction tr as [|ev tr IH]; [reflexivity|].
  change (coreOf (map ECore (ev :: tr))) with (ev :: coreOf (map ECore tr)).
  rewrite IH. reflexivity.
Qed.

Lemma flowCount_app p t1 t2 :
  flowCount p (t1 ++ t2) = flowCount p t1 + flowCount p t2.
Proof. unfold flowCount. rewrite filter_app, length_app. reflexivity. Qed.

Lemma flowCount_core p tr :
  (forall ev, p (ECore ev) = false) -> flowCount p (map ECore tr) = 0.
Proof.
  intros Hp. induction tr as [|ev tr IH]; [reflexivity|].
  unfold flowCount in *. cbn [map filter]. rewrite Hp. exact IH.
Qed.

(** Case analysis of membership in a literal log of the orchestration. *)
Ltac solve_flow_log :=
  cbn; repeat split; try lia; intros;
  repeat match goal with
         | H : _ \/ _ |- _ => destruct H as [H|H]
         | H : False |- _ => contradiction
         | H : @eq FlowEvent _ _ |- _ => inversion H; subst; clear H
         | H : @eq (Outcome _) _ _ |- _ => discriminate H
         end;
  eauto 10.

Section GrantFacts.

Context {W : Type} {env : Collaborators W} {flow : FlowCollaborators W}.

(** X12. Whatever the collaborators answer, [ensureSecretManagerAdminGrant]
    adds the role at most once, on the project it was given and for the
    service agent of that project's number, and only after the check
    answered that the role is missing and the user confirmed.  It returns
    only when the check found the role or the role was added; when the
    user declines it adds nothing and throws a [FirebaseError]. *)
Theorem ensureSecretManagerAdminGrant_guarded :
  forall projectId (w : W),
    let '(o, _, tr) := ensureSecretManagerAdminGrant projectId w in
    flowCount isAddRole tr <= 1
    /\ (forall p email roles fourth r,
           In (EAddServiceAccountToRoles p email roles fourth r) tr ->
           p = projectId /\ roles = ["roles/secretmanager.admin"] /\ fourth = true
           /\ (exists projectNumber,
                  In (EGetProjectNumber projectId (Resolved projectNumber)) tr
                  /\ email = devConnect_serviceAgentEmail projectNumber)
           /\ In (EServiceAccountHasRoles projectId email roles true (Resolved false)) tr
           /\ exists q, In (EPromptConfirm q (Resolved true)) tr)
    /\ (o = Returned tt ->
        exists email roles,
          In (EServiceAccountHasRoles projectId email roles true (Resolved true)) tr
          \/ In (EAddServiceAccountToRoles projectId email roles true (Resolved tt)) tr)
    /\ (forall q,
           In (EPromptConfirm q (Resolved false)) tr ->
           o = Thrown (FirebaseError
                         "Insufficient IAM permissions to create a new connection to GitHub")
           /\ flowCount isAddRole tr = 0).
Proof.
  intros projectId w. unfold ensureSecretManagerAdminGrant.
  unfold bindF, callF, lift, logBullet, emit, retF, throwF.
  destruct (getProjectNumber projectId w) as [[n|e] w1]; [|solve_flow_log].
  destruct (rm_serviceAccountHasRoles _ _ _ _ w1) as [[[|]|e] w2];
    [solve_flow_log| |solve_flow_log].
  destruct (prompt_promptOnceConfirm _ w2) as [[[|]|e] w3];
    [|solve_flow_log|solve_flow_log].
  cbn [negb].
  destruct (rm_addServiceAccountToRoles _ _ _ _ w3) as [[[]|e] w4]; solve_flow_log.
Qed.

End GrantFacts.
(** * The orchestration: choosing a repository *)

Lemma count_none p q tr :
  Forall (fun ev => p ev = true) tr ->
  (forall ev, p ev = true -> q ev = false) ->
  count q tr = 0.
Proof.
  intros H Hpq. induction H as [|ev tr Hev _ IH]; [reflexivity|].
  unfold count in *. cbn [filter]. rewrite (Hpq ev Hev). exact IH.
Qed.

Lemma answered_app_r projectId t t' cloneUri connection :
  answered projectId t cloneUri connection ->
  answered projectId (t ++ t') cloneUri connection.
Proof.
  intros ((name & message & uris & H1) & H2). split.
  - exists name, message, uris. apply in_or_app. left. exact H1.
  - intros conn Hc. destruct (H2 conn Hc) as (p & l & i & repos & Hp & Hin & Hu).
    exists p, l, i, repos. split; [exact Hp|]. split; [|exact Hu].
    apply in_or_app. left. exact Hin.
Qed.

Lemma answered_app_l projectId t t' cloneUri connection :
  answered projectId t cloneUri connection ->
  answered projectId (t' ++ t) cloneUri connection.
Proof.
  intros ((name & message & uris & H1) & H2). split.
  - exists name, message, uris. apply in_or_app. right. exact H1.
  - intros conn Hc. destruct (H2 conn Hc) as (p & l & i & repos & Hp & Hin & Hu).
    exists p, l, i, repos. split; [exact Hp|]. split; [|exact Hu].
    apply in_or_app. right. exact Hin.
Qed.

Section SelectionFacts.

Context {W : Type} {env : Collaborators W} {flow : FlowCollaborators W}.

(** [fetchAllRepositories] calls nothing but the listing. *)
Lemma fetchAllRepositories_only_lists projectId connections (w : W) :
  Forall (fun ev => isListing ev = true)
    (snd (fetchAllRepositories projectId connections w)).
Proof.
  unfold fetchAllRepositories. unfold bind at 1.
  match goal with
  | |- context [forOf _ ?b _ _] => set (body := b)
  end.
  assert (forall conns o (v : W),
             Forall (fun ev => isListing ev = true) (snd (forOf conns body o v)))
    as Hloop.
  { induction conns as [|conn conns IH]; intros o v; [constructor|].
    rewrite forOf_cons_run.
    assert (Forall (fun ev => isListing ev = true) (snd (body conn o v))) as Hb.
    { unfold body.
      destruct (parseConnectionName (Connection.name conn)) as [[p l i]|];
        [|constructor].
      unfold bind, call, ret.
      destruct (devConnect_listAllLinkableGitRepositories projectId l i v)
        as [[repos|e] v1]; repeat constructor. }
    destruct (body conn o v) as [[[o1|e|] v1] t1]; cbn [snd] in *; try exact Hb.
    specialize (IH o1 v1). destruct (forOf conns body o1 v1) as [[out v2] t2].
    cbn [snd] in *. apply Forall_app. auto. }
  specialize (Hloop connections Obj.empty w).
  destruct (forOf connections body Obj.empty w) as [[[o|e|] w1] tr];
    cbn [snd ret] in *; try exact Hloop.
  rewrite app_nil_r. exact Hloop.
Qed.

(** What a returned run of [fetchAllRepositories] established. *)
Lemma fetchAllRepositories_Returned projectId connections (w : W)
    cloneUris cloneUriToConnection w' tr :
  fetchAllRepositories projectId connections w
  = (Returned (cloneUris, cloneUriToConnection), w', tr) ->
  count isListing tr = length connections
  /\ NoDup cloneUris
  /\ (forall uri, In uri cloneUris ->
        exists conn, lookupConnection uri cloneUriToConnection = Some conn)
  /\ (forall uri conn,
        lookupConnection uri cloneUriToConnection = Some conn ->
        In conn connections
        /\ exists p l i repos,
             parseConnectionName (Connection.name conn) = Some (mkParts p l i)
             /\ In (EListAllLinkableGitRepositories projectId l i (Resolved repos)) tr
             /\ In uri (repoUris repos)).
Proof.
  unfold fetchAllRepositories. unfold bind at 1.
  pose proof (fetch_loop_any projectId _ eq_refl connections Obj.empty w) as H.
  destruct (forOf connections _ Obj.empty w) as [[[o|e|] w1] tr1];
    destruct H as (Hle & H); [|discriminate ..].
  cbn [ret]. rewrite app_nil_r. intros [= <- <- <- <-].
  destruct (H o eq_refl) as (Hn & Hnd & _ & Hval).
  split; [exact Hn|]. split.
  { eapply Permutation_NoDup; [apply Permutation_sym, keys_perm|].
    apply Hnd. constructor. }
  split.
  - intros uri Hin. apply (Permutation_in _ (keys_perm o)) in Hin.
    apply assoc_In in Hin. unfold lookupConnection, Obj.getOwn.
    destruct (Obj.assoc uri (Obj.own o)) as [c|]; [eauto | congruence].
  - intros uri conn Hl. apply Hval in Hl. destruct Hl as [Hl|Hl]; [|exact Hl].
    cbn in Hl. destruct (String.eqb uri "__proto__"); discriminate.
Qed.

(** Every path of [promptRepositoryUri]. *)
Lemma promptRepositoryUri_run projectId connections (w : W) :
  promptRepositoryUri projectId connections w =
  let message := "Which of the following repositories would you like to deploy?" in
  match fetchAllRepositories projectId connections w with
  | (Returned fetched, w1, t1) =>
      match prompt_promptOnceAutocomplete "cloneUri" message (fst fetched) w1 with
      | (Resolved cloneUri, w2) =>
          (Returned (cloneUri, lookupConnection cloneUri (snd fetched)), w2,
           map ECore t1
             ++ [EPromptAutocomplete "cloneUri" message (fst fetched) (Resolved cloneUri)])
      | (Rejected e, w2) =>
          (Thrown e, w2,
           map ECore t1
             ++ [EPromptAutocomplete "cloneUri" message (fst fetched) (Rejected e)])
      end
  | (Thrown e, w1, t1) => (Thrown e, w1, map ECore t1)
  | (OutOfFuel, w1, t1) => (OutOfFuel, w1, map ECore t1)
  end%list.
Proof.
  unfold promptRepositoryUri. rewrite bindF_run, lift_run.
  destruct (fetchAllRepositories projectId connections w) as [[[fetched|e|] w1] t1];
    try reflexivity.
  cbv zeta. rewrite bindF_run. unfold callF.
  destruct (prompt_promptOnceAutocomplete _ _ _ w1) as [[cloneUri|e] w2];
    reflexivity.
Qed.

(** X13. Whatever the collaborators answer, [promptRepositoryUri] asks at
    most once, and only after one listing call for each connection; the
    choices it offers are distinct clone URIs, each listed in this run.
    A connection returned with the answer is one of the connections
    passed in and listed the answer in this run; the answer itself is
    not checked: it comes back without a connection only when it was not
    among the URIs offered. *)
Theorem promptRepositoryUri_offers_listed :
  forall projectId connections (w : W),
    let '(o, _, tr) := promptRepositoryUri projectId connections w in
    flowCount isAutocomplete tr <= 1
    /\ (forall name message cloneUris r,
           In (EPromptAutocomplete name message cloneUris r) tr ->
           count isListing (coreOf tr) = length connections
           /\ NoDup cloneUris
           /\ forall uri, In uri cloneUris ->
                exists l i repos,
                  In (EListAllLinkableGitRepositories projectId l i (Resolved repos))
                    (coreOf tr)
                  /\ In uri (repoUris repos))
    /\ (forall cloneUri connection,
           o = Returned (cloneUri, connection) ->
           (exists name message cloneUris,
               In (EPromptAutocomplete name message cloneUris (Resolved cloneUri)) tr
               /\ (connection = None -> ~ In cloneUri cloneUris))
           /\ forall conn, connection = Some conn ->
                In conn connections
                /\ exists p l i repos,
                     parseConnectionName (Connection.name conn) = Some (mkParts p l i)
                     /\ In (EListAllLinkableGitRepositories projectId l i
                              (Resolved repos)) (coreOf tr)
                     /\ In cloneUri (repoUris repos)).
Proof.
  intros projectId connections w. rewrite promptRepositoryUri_run. cbv zeta.
  pose proof (fetchAllRepositories_Returned projectId connections w) as Hret.
  destruct (fetchAllRepositories projectId connections w)
    as [[[[uris m]|e|] w1] t1].
  2,3: (split; [rewrite flowCount_core; [lia | reflexivity]|]);
       (split; [|discriminate]);
       intros name message cloneUris r Hin; apply in_map_iff in Hin;
       destruct Hin as (ev & Hev & _); discriminate.
  destruct (Hret uris m w1 t1 eq_refl) as (Hn & Hnd & Hkeys & Hval). clear Hret.
  cbn [fst snd].
  assert (forall (o : Outcome (string * option Connection)) r,
             let tr := (map ECore t1
                          ++ [EPromptAutocomplete "cloneUri"
                                "Which of the following repositories would you like to deploy?"
                                uris r])%list in
             flowCount isAutocomplete tr <= 1
             /\ (forall name message cloneUris r',
                    In (EPromptAutocomplete name message cloneUris r') tr ->
                    r' = r /\ cloneUris = uris)
             /\ coreOf tr = t1) as Hlog.
  { intros o r tr. subst tr. split.
    - rewrite flowCount_app, flowCount_core by reflexivity. cbn. lia.
    - split.
      + intros name message cloneUris r' Hin. apply in_app_or in Hin.
        destruct Hin as [Hin|[Hin|[]]].
        * apply in_map_iff in Hin. destruct Hin as (ev & Hev & _). discriminate.
        * injection Hin as _ _ <- <-. auto.
      + rewrite coreOf_app, coreOf_map. cbn. apply app_nil_r. }
  assert (forall uri, In uri uris ->
             exists l i repos,
               In (EListAllLinkableGitRepositories projectId l i (Resolved repos)) t1
               /\ In uri (repoUris repos)) as Hlisted.
  { intros uri Hin. destruct (Hkeys uri Hin) as (conn & Hc).
    destruct (Hval uri conn Hc) as (_ & p & l & i & repos & _ & H1 & H2). eauto. }
  destruct (prompt_promptOnceAutocomplete _ _ uris w1) as [[cloneUri|e] w2].
  - destruct (Hlog (Returned (cloneUri, lookupConnection cloneUri m))
                (Resolved cloneUri)) as (H1 & H2 & H3).
    split; [exact H1|]. split.
    + intros name message cloneUris r Hin. apply H2 in Hin. destruct Hin as (-> & ->).
      rewrite H3. auto.
    + intros uri c [= <- <-]. split.
      * exists "cloneUri", "Which of the following repositories would you like to deploy?",
          uris.
        split; [apply in_or_app; right; left; reflexivity|].
        intros Hnone Hin. destruct (Hkeys _ Hin) as (conn & Hc). congruence.
      * intros conn Hc. rewrite H3. apply Hval. exact Hc.
  - destruct (Hlog (Thrown e) (Rejected e)) as (H1 & H2 & H3).
    split; [exact H1|]. split; [|discriminate].
    intros name message cloneUris r Hin. apply H2 in Hin. destruct Hin as (-> & ->).
    rewrite H3. auto.
Qed.

(** What [ensureSecretManagerAdminGrant] leaves in the log and what its
    return means. *)
Lemma ensureSecretManagerAdminGrant_summary projectId (w : W) :
  let '(o, _, tr) := ensureSecretManagerAdminGrant projectId w in
  count isCreate (coreOf tr) = 0
  /\ count isFetch (coreOf tr) = 0
  /\ flowCount isRandom tr = 0
  /\ flowCount isAutocomplete tr = 0
  /\ (o = Returned tt ->
      exists email roles,
        In (EServiceAccountHasRoles projectId email roles true (Resolved true)) tr
        \/ In (EAddServiceAccountToRoles projectId email roles true (Resolved tt)) tr).
Proof.
  unfold ensureSecretManagerAdminGrant.
  unfold bindF, callF, lift, logBullet, emit, retF, throwF.
  destruct (getProjectNumber projectId w) as [[n|e] w1]; [|solve_flow_log].
  destruct (rm_serviceAccountHasRoles _ _ _ _ w1) as [[[|]|e] w2];
    [solve_flow_log| |solve_flow_log].
  destruct (prompt_promptOnceConfirm _ w2) as [[[|]|e] w3];
    [|solve_flow_log|solve_flow_log].
  cbn [negb].
  destruct (rm_addServiceAccountToRoles _ _ _ _ w3) as [[[]|e] w4]; solve_flow_log.
Qed.

(** What [ensureFullyInstalledConnection] leaves in the log and what it
    returns. *)
Lemma ensureFullyInstalledConnection_summary fuel projectId location connectionId
    oauthConn (w : W) :
  let '(o, _, tr) :=
    ensureFullyInstalledConnection fuel projectId location connectionId oauthConn w in
  count isCreate tr = 0
  /\ forall conn, o = Returned conn ->
       (stageOf oauthConn = "COMPLETE" /\ conn = oauthConn /\ tr = [])
       \/ (stageOf oauthConn <> "COMPLETE"
           /\ In (EGetConnection projectId location connectionId (Resolved conn)) tr).
Proof.
  destruct fuel as [|fuel].
  - unfold ensureFullyInstalledConnection, stageOf. unfold bind at 1. cbn [while].
    destruct (String.eqb_spec (stage (Connection.installationState oauthConn)) "COMPLETE")
      as [Hs|Hs]; cbn [negb].
    + cbn. split; [reflexivity|]. intros conn [= <-]. auto.
    + cbn. split; [reflexivity | discriminate].
  - rewrite ensureFullyInstalledConnection_run. cbv zeta.
    destruct (String.eqb_spec (stageOf oauthConn) "COMPLETE") as [Hs|Hs].
    + split; [reflexivity|]. intros conn [= <-]. auto.
    + destruct (utils_openInBrowser _ w) as [[u|e] w1];
        [|split; [reflexivity | discriminate]].
      destruct (prompt_promptOnce _ w1) as [[answer|e] w2];
        [|split; [reflexivity | discriminate]].
      destruct (devConnect_getConnection _ _ _ w2) as [[conn|e] w3];
        [|split; [reflexivity | discriminate]].
      split; [reflexivity|]. intros conn' [= <-]. right. split; [exact Hs|].
      apply in_or_app. right. right. right. left. reflexivity.
Qed.

(** The branch of [seedConnections] taken when no connection is
    eligible, in terms of its steps. *)
Lemma seedConnections_run fuelInstall projectId location oauthConn (w : W) :
  seedConnections fuelInstall projectId location oauthConn [] w =
  let log := ECore (ELogBullet "no connections exist") in
  match ensureSecretManagerAdminGrant projectId w with
  | (Returned _, w1, t1) =>
      let '(r, w2) := Math_random36 w1 in
      match ensureFullyInstalledConnection fuelInstall projectId location
              (generateConnectionId r) oauthConn w2 with
      | (Returned conn, w3, t2) =>
          (Returned [conn], w3, log :: t1 ++ EMathRandom r :: map ECore t2)
      | (Thrown e, w3, t2) => (Thrown e, w3, log :: t1 ++ EMathRandom r :: map ECore t2)
      | (OutOfFuel, w3, t2) => (OutOfFuel, w3, log :: t1 ++ EMathRandom r :: map ECore t2)
      end
  | (Thrown e, w1, t1) => (Thrown e, w1, log :: t1)
  | (OutOfFuel, w1, t1) => (OutOfFuel, w1, log :: t1)
  end%list.
Proof.
  unfold seedConnections. cbn [length Nat.eqb].
  rewrite bindF_run, lift_run. unfold logBullet at 1, emit at 1. rewrite bindF_run.
  destruct (ensureSecretManagerAdminGrant projectId w) as [[[[]|e|] w1] t1];
    try reflexivity.
  rewrite bindF_run. unfold random36 at 1.
  destruct (Math_random36 w1) as [r w2]. rewrite bindF_run, lift_run.
  destruct (ensureFullyInstalledConnection _ _ _ _ _ w2) as [[[conn|e|] w3] t2];
    try reflexivity.
  cbn [retF app map]. rewrite app_nil_r. reflexivity.
Qed.

Lemma coreOf_cons_core ev tr : coreOf (ECore ev :: tr) = ev :: coreOf tr.
Proof. reflexivity. Qed.

Lemma coreOf_cons_random r tr : coreOf (EMathRandom r :: tr) = coreOf tr.
Proof. reflexivity. Qed.

Lemma count_cons p ev tr :
  count p (ev :: tr) = (if p ev then 1 else 0) + count p tr.
Proof. unfold count. cbn [filter]. destruct (p ev); reflexivity. Qed.

(** X14. With eligible connections at hand [seedConnections] does
    nothing.  With none, it never creates a connection: once the role is
    in place, a sentinel that is [COMPLETE] becomes itself the one
    connection of the list, and nothing is fetched under the id that was
    generated; for a sentinel in any other stage the one connection is
    what the fetch under the generated id answered. *)
Theorem seedConnections_creates_nothing :
  forall fuelInstall projectId location oauthConn existingConns (w : W),
    let '(o, _, tr) :=
      seedConnections fuelInstall projectId location oauthConn existingConns w in
    count isCreate (coreOf tr) = 0
    /\ (existingConns <> [] -> o = Returned existingConns /\ tr = [])
    /\ (forall conns,
           existingConns = [] -> o = Returned conns ->
           (exists email roles,
               In (EServiceAccountHasRoles projectId email roles true (Resolved true)) tr
               \/ In (EAddServiceAccountToRoles projectId email roles true
                        (Resolved tt)) tr)
           /\ exists conn,
                conns = [conn]
                /\ ((stageOf oauthConn = "COMPLETE" /\ conn = oauthConn
                     /\ count isFetch (coreOf tr) = 0)
                    \/ (stageOf oauthConn <> "COMPLETE"
                        /\ exists r,
                             In (EMathRandom r) tr
                             /\ In (ECore (EGetConnection projectId location
                                             (generateConnectionId r) (Resolved conn)))
                                  tr))).
Proof.
  intros fuelInstall projectId location oauthConn existingConns w.
  destruct existingConns as [|c0 cs].
  2:{ cbn. split; [reflexivity|]. split; [auto|]. discriminate. }
  rewrite seedConnections_run. cbv zeta.
  pose proof (ensureSecretManagerAdminGrant_summary projectId w) as Hg.
  destruct (ensureSecretManagerAdminGrant projectId w) as [[[[]|e|] w1] t1];
    destruct Hg as (Hc & Hf & _ & _ & Hrole).
  2,3: rewrite coreOf_cons_core, count_cons, Hc;
       (split; [reflexivity|]); (split; [congruence | discriminate]).
  specialize (Hrole eq_refl). destruct Hrole as (email & roles & Hrole).
  destruct (Math_random36 w1) as [r w2].
  pose proof (ensureFullyInstalledConnection_summary fuelInstall projectId location
                (generateConnectionId r) oauthConn w2) as He.
  assert (forall t2,
             coreOf (ECore (ELogBullet "no connections exist")
                       :: t1 ++ EMathRandom r :: map ECore t2)%list
             = (ELogBullet "no connections exist" :: coreOf t1 ++ t2)%list) as Hcore.
  { intros t2. rewrite coreOf_cons_core, coreOf_app, coreOf_cons_random, coreOf_map.
    reflexivity. }
  destruct (ensureFullyInstalledConnection _ _ _ _ _ w2) as [[[conn|e|] w3] t2];
    destruct He as (Hc2 & He); rewrite Hcore, count_cons, count_app, Hc, Hc2;
    (split; [reflexivity|]); (split; [congruence|]); [|discriminate ..].
  intros conns _ [= <-]. split.
  - exists email, roles. destruct Hrole as [H|H]; [left|right];
      right; apply in_or_app; left; exact H.
  - exists conn. split; [reflexivity|].
    destruct (He conn eq_refl) as [(Hs & -> & ->) | (Hs & Hin)].
    + left. split; [exact Hs|]. split; [reflexivity|].
      rewrite count_cons, app_nil_r, Hf. reflexivity.
    + right. split; [exact Hs|]. exists r. split.
      * right. apply in_or_app. right. left. reflexivity.
      * right. apply in_or_app. right. right. apply in_map. exact Hin.
Qed.

Lemma createFullyInstalledConnection_creates_once fuel projectId location
    connectionId oauthConn (w : W) :
  count isCreate
    (snd (createFullyInstalledConnection fuel projectId location connectionId
            oauthConn w)) <= 1.
Proof.
  rewrite createFullyInstalledConnection_run, createConnection_run. cbv zeta.
  destruct (devConnect_createConnection _ _ _ _ w) as [[op|e] w1]; [|cbn; lia].
  destruct (poller_pollConnection _ w1) as [[conn|e] w2]; [|cbn; lia].
  pose proof (ensureFullyInstalledConnection_summary fuel projectId location
                connectionId conn w2) as He.
  destruct (ensureFullyInstalledConnection _ _ _ _ conn w2) as [[[conn'|e|] w3] t2];
    destruct He as (Hc & _); cbn [snd]; rewrite ?count_cons, ?count_app, Hc;
    cbn; lia.
Qed.

(** What one run of [promptRepositoryUri] adds to the counts. *)
Lemma promptRepositoryUri_summary projectId connections (w : W) :
  let '(o, _, tr) := promptRepositoryUri projectId connections w in
  count isCreate (coreOf tr) = 0
  /\ flowCount isRandom tr = 0
  /\ match o with
     | Returned (cloneUri, connection) =>
         flowCount isAutocomplete tr = 1
         /\ flowCount isAddChoice tr
            = (if String.eqb cloneUri ADD_CONN_CHOICE then 1 else 0)
         /\ answered projectId tr cloneUri connection
         /\ forall conn, connection = Some conn -> In conn connections
     | _ => flowCount isAutocomplete tr <= 1 /\ flowCount isAddChoice tr = 0
     end.
Proof.
  rewrite promptRepositoryUri_run. cbv zeta.
  pose proof (fetchAllRepositories_only_lists projectId connections w) as Hlist.
  pose proof (fetchAllRepositories_Returned projectId connections w) as Hret.
  destruct (fetchAllRepositories projectId connections w)
    as [[[[uris m]|e|] w1] t1]; cbn [snd fst] in *.
  2,3: rewrite coreOf_map, !flowCount_core by reflexivity;
       (split; [apply (count_none isListing); [exact Hlist|]
               | split; [reflexivity | split; [lia | reflexivity]]]);
       intros [] Hev; try discriminate; reflexivity.
  assert (count isCreate t1 = 0) as Hc.
  { apply (count_none isListing); [exact Hlist|].
    intros [] Hev; try discriminate; reflexivity. }
  destruct (Hret uris m w1 t1 eq_refl) as (_ & _ & _ & Hval).
  destruct (prompt_promptOnceAutocomplete _ _ uris w1) as [[cloneUri|e] w2];
    rewrite coreOf_app, coreOf_map, !flowCount_app, !flowCount_core by reflexivity;
    cbn [coreOf flat_map app]; rewrite app_nil_r.
  - split; [exact Hc|]. split; [reflexivity|]. split; [reflexivity|].
    split; [unfold flowCount; cbn; destruct (String.eqb cloneUri ADD_CONN_CHOICE);
            reflexivity|].
    split.
    + split.
      * do 3 eexists. apply in_or_app. right. left. reflexivity.
      * intros conn Hl. apply Hval in Hl.
        destruct Hl as (_ & p & l & i & repos & Hp & Hin & Hu).
        exists p, l, i, repos. split; [exact Hp|]. split; [|exact Hu].
        apply in_or_app. left. apply in_map. exact Hin.
    + intros conn Hl. apply Hval in Hl. apply Hl.
  - split; [exact Hc|]. split; [reflexivity|]. split; [cbn; lia | reflexivity].
Qed.

(** One pass of the selection loop. *)
Lemma selectionPass_summary fuelInstall projectId location oauthConn prev
    existingConns (w : W) :
  let requested := if addRequested prev then 1 else 0 in
  let '(o, _, tr) :=
    selectionPass fuelInstall projectId location oauthConn prev existingConns w in
  flowCount isRandom tr <= requested
  /\ count isCreate (coreOf tr) <= flowCount isRandom tr
  /\ match o with
     | Returned (conns, (cloneUri, connection)) =>
         flowCount isRandom tr = requested
         /\ flowCount isAutocomplete tr = 1
         /\ flowCount isAddChoice tr
            = (if String.eqb cloneUri ADD_CONN_CHOICE then 1 else 0)
         /\ (exists added,
                conns = (existingConns ++ added)%list /\ length added = requested)
         /\ answered projectId tr cloneUri connection
         /\ forall conn, connection = Some conn -> In conn conns
     | _ => flowCount isAutocomplete tr <= 1 /\ flowCount isAddChoice tr = 0
     end.
Proof.
  cbv zeta. unfold selectionPass. fold (addRequested prev). rewrite bindF_run.
  destruct (addRequested prev).
  - rewrite bindF_run. unfold random36 at 1.
    destruct (Math_random36 w) as [r w1]. rewrite bindF_run, lift_run.
    pose proof (createFullyInstalledConnection_creates_once fuelInstall projectId
                  location (generateConnectionId r) oauthConn w1) as Hc.
    destruct (createFullyInstalledConnection _ _ _ _ _ w1) as [[[conn|e|] w2] t1];
      cbn [snd] in Hc.
    2,3: cbn [app]; rewrite coreOf_cons_random, coreOf_map;
         change (EMathRandom r :: map ECore t1)
           with ([EMathRandom r] ++ map ECore t1)%list;
         rewrite !flowCount_app, !flowCount_core by reflexivity;
         cbn; repeat split; lia.
    cbn [retF]. rewrite app_nil_r. rewrite bindF_run.
    pose proof (promptRepositoryUri_summary projectId (existingConns ++ [conn]) w2)
      as Hp.
    destruct (promptRepositoryUri projectId (existingConns ++ [conn])%list w2)
      as [[o w3] t2].
    destruct Hp as (Hp1 & Hp2 & Hp3).
    assert (forall t3,
               flowCount isRandom (([EMathRandom r] ++ map ECore t1) ++ t2 ++ t3) 
               = 1 + flowCount isRandom t3
               /\ count isCreate (coreOf (([EMathRandom r] ++ map ECore t1) ++ t2 ++ t3))
                  = count isCreate t1 + count isCreate (coreOf t3)
               /\ flowCount isAutocomplete (([EMathRandom r] ++ map ECore t1) ++ t2 ++ t3)
                  = flowCount isAutocomplete t2 + flowCount isAutocomplete t3
               /\ flowCount isAddChoice (([EMathRandom r] ++ map ECore t1) ++ t2 ++ t3)
                  = flowCount isAddChoice t2 + flowCount isAddChoice t3)%list as Hsum.
    { intros t3. rewrite !coreOf_app, coreOf_map, !count_app, !flowCount_app,
        !flowCount_core, Hp1, Hp2 by reflexivity. cbn. repeat split; lia. }
    destruct o as [[uri c]|e|].
    + cbn [retF]. destruct (Hsum []) as (H1 & H2 & H3 & H4).
      rewrite !app_nil_r in *. destruct Hp3 as (Ha & Hb & Hans & Hin).
      rewrite H1, H2, H3, H4, Ha, Hb. cbn [Nat.add flowCount filter length coreOf flat_map count].
      split; [lia|]. split; [lia|]. split; [lia|]. split; [lia|].
      split; [lia|]. split; [exists [conn]; split; reflexivity|].
      split; [apply answered_app_l; exact Hans | exact Hin].
    + destruct (Hsum []) as (H1 & H2 & H3 & H4).
      rewrite !app_nil_r in *. destruct Hp3 as (Ha & Hb).
      rewrite H1, H2, H3, H4, Hb. cbn. repeat split; lia.
    + destruct (Hsum []) as (H1 & H2 & H3 & H4).
      rewrite !app_nil_r in *. destruct Hp3 as (Ha & Hb).
      rewrite H1, H2, H3, H4, Hb. cbn. repeat split; lia.
  - cbn [retF app]. rewrite bindF_run.
    pose proof (promptRepositoryUri_summary projectId existingConns w) as Hp.
    destruct (promptRepositoryUri projectId existingConns w) as [[o w3] t2].
    destruct Hp as (Hp1 & Hp2 & Hp3).
    destruct o as [[uri c]|e|]; cbn [retF]; rewrite ?app_nil_r.
    + destruct Hp3 as (Ha & Hb & Hans & Hin). rewrite Hp1, Hp2, Ha, Hb.
      split; [lia|]. split; [lia|]. split; [lia|]. split; [lia|].
      split; [lia|]. split; [exists []; rewrite app_nil_r; split; reflexivity|].
      split; [exact Hans | exact Hin].
    + rewrite Hp1, Hp2. repeat split; try lia; apply Hp3.
    + rewrite Hp1, Hp2. repeat split; try lia; apply Hp3.
Qed.

(** The selection loop from any pass on. *)
Lemma selection_loop fuelInstall projectId location oauthConn :
  forall fuelSelect prev existingConns (w : W),
    let requested := if addRequested prev then 1 else 0 in
    let '(o, _, tr) :=
      doWhile fuelSelect (selectionPass fuelInstall projectId location oauthConn)
        (fun selection => String.eqb (fst selection) ADD_CONN_CHOICE)
        prev existingConns w in
    flowCount isRandom tr <= requested + flowCount isAddChoice tr
    /\ count isCreate (coreOf tr) <= flowCount isRandom tr
    /\ flowCount isAutocomplete tr <= S (flowCount isAddChoice tr)
    /\ forall conns cloneUri connection,
         o = Returned (conns, (cloneUri, connection)) ->
         cloneUri <> ADD_CONN_CHOICE
         /\ (exists added,
                conns = (existingConns ++ added)%list
                /\ length added = requested + flowCount isAddChoice tr)
         /\ flowCount isRandom tr = requested + flowCount isAddChoice tr
         /\ flowCount isAutocomplete tr = S (flowCount isAddChoice tr)
         /\ answered projectId tr cloneUri connection
         /\ forall conn, connection = Some conn -> In conn conns.
Proof.
  induction fuelSelect as [|n IH]; intros prev existingConns w; cbv zeta.
  - cbn. split; [lia|]. split; [lia|]. split; [lia | discriminate].
  - cbn [doWhile]. rewrite bindF_run.
    pose proof (selectionPass_summary fuelInstall projectId location oauthConn prev
                  existingConns w) as Hp. cbv zeta in Hp.
    destruct (selectionPass _ _ _ _ prev existingConns w) as [[o w1] t1].
    destruct Hp as (Hr & Hc & Hp).
    destruct o as [[conns1 [uri c]]|e|].
    2,3: destruct Hp as (Ha & Hb);
         (split; [lia|]); (split; [lia|]); (split; [lia | discriminate]).
    destruct Hp as (Hr1 & Ha & Hb & (added1 & -> & Hlen1) & Hans1 & Hin1).
    cbn [snd fst]. destruct (String.eqb_spec uri ADD_CONN_CHOICE) as [->|Hne].
    + specialize (IH (Some (ADD_CONN_CHOICE, c)) (existingConns ++ added1)%list w1).
      cbv zeta in IH. cbn [addRequested] in IH. rewrite String.eqb_refl in IH.
      destruct (doWhile n _ _ _ _ w1) as [[o2 w2] t2].
      destruct IH as (Hr2 & Hc2 & Ha2 & IH).
      rewrite coreOf_app, count_app, !flowCount_app.
      split; [lia|]. split; [lia|]. split; [lia|].
      intros conns uri' c' ->.
      destruct (IH conns uri' c' eq_refl)
        as (Hne & (added2 & -> & Hlen2) & Hr3 & Ha3 & Hans & Hin).
      split; [exact Hne|]. split.
      { exists (added1 ++ added2)%list. rewrite app_assoc, length_app.
        split; [reflexivity | lia]. }
      split; [lia|]. split; [lia|].
      split; [apply answered_app_l; exact Hans | exact Hin].
    + cbn [retF]. rewrite app_nil_r.
      split; [lia|]. split; [lia|]. split; [lia|].
      intros conns uri' c' [= <- <- <-].
      split; [exact Hne|]. split.
      { exists added1. split; [reflexivity | lia]. }
      split; [lia|]. split; [lia|]. split; [exact Hans1 | exact Hin1].
Qed.

(** X15. In every run of the selection loop a connection is created only
    after the user asked for one: create calls never outnumber the
    answers [ADD_CONN_CHOICE], and the user is asked once more than that
    at most.  A run that returns was asked exactly once more; its answer
    is not [ADD_CONN_CHOICE]; the list of connections it ends with is the
    list it started from followed by one connection per such answer; and
    a connection returned with the answer is in that list and listed the
    answer in this run. *)
Theorem selectRepository_adds_on_request :
  forall fuelInstall fuelSelect projectId location oauthConn existingConns (w : W),
    let '(o, _, tr) :=
      selectRepository fuelInstall fuelSelect projectId location oauthConn
        existingConns w in
    count isCreate (coreOf tr) <= flowCount isAddChoice tr
    /\ flowCount isAutocomplete tr <= S (flowCount isAddChoice tr)
    /\ forall conns cloneUri connection,
         o = Returned (conns, (cloneUri, connection)) ->
         cloneUri <> ADD_CONN_CHOICE
         /\ (exists added,
                conns = (existingConns ++ added)%list
                /\ length added = flowCount isAddChoice tr)
         /\ flowCount isAutocomplete tr = S (flowCount isAddChoice tr)
         /\ answered projectId tr cloneUri connection
         /\ forall conn, connection = Some conn -> In conn conns.
Proof.
  intros fuelInstall fuelSelect projectId location oauthConn existingConns w.
  unfold selectRepository.
  pose proof (selection_loop fuelInstall projectId location oauthConn fuelSelect None
                existingConns w) as H. cbv zeta in H. cbn [addRequested] in H.
  destruct (doWhile fuelSelect _ _ None existingConns w) as [[o w1] tr].
  destruct H as (Hr & Hc & Ha & H).
  split; [lia|]. split; [exact Ha|].
  intros conns uri c ->.
  destruct (H conns uri c eq_refl) as (Hne & Hadd & _ & Ha' & Hans & Hin). auto.
Qed.

End SelectionFacts.
(** * The orchestration: linking the chosen repository *)

Lemma coreOf_In ev tr : In ev (coreOf tr) <-> In (ECore ev) tr.
Proof.
  unfold coreOf. rewrite in_flat_map. split.
  - intros (x & Hx & Hev). destruct x; cbn in Hev; try contradiction.
    destruct Hev as [->|[]]. exact Hx.
  - intros H. exists (ECore ev). split; [exact H | left; reflexivity].
Qed.

Section LinkFacts.

Context {W : Type} {env : Collaborators W} {flow : FlowCollaborators W}.

(** [linkSelected] on a connection with a well-formed name calls the
    provisioners only. *)
Lemma linkSelected_run projectId location cloneUri connection p l connectionId
    (w : W) :
  parseConnectionName (Connection.name connection) = Some (mkParts p l connectionId) ->
  linkSelected projectId location (cloneUri, Some connection) w =
  lift (getOrCreateConnection projectId location connectionId
          (Some (mkGitHubConfig (credentialOf connection)
                   (installationIdOf connection))) ;;
        repo <- getOrCreateRepository projectId location connectionId cloneUri ;;
        emit (ELogSuccess "Successfully linked GitHub repository at remote URI") ;;
        emit (ELogSuccess (TAB ++ cloneUri)) ;;
        ret repo) w.
Proof.
  intros Hp. unfold linkSelected. cbn [fst snd]. rewrite Hp.
  unfold bindF, lift, bind.
  destruct (getOrCreateConnection _ _ _ _ w) as [[[c|e|] w1] t1]; try reflexivity.
  destruct (getOrCreateRepository _ _ _ _ w1) as [[[repo|e|] w2] t2];
    cbn; rewrite ?map_app, ?app_nil_r; reflexivity.
Qed.

(** The provisioner calls of [linkSelected]. *)
Lemma linkSelected_calls projectId location cloneUri connectionId githubConfig
    (w : W) :
  let '(o, _, tr) :=
    (getOrCreateConnection projectId location connectionId githubConfig ;;
     repo <- getOrCreateRepository projectId location connectionId cloneUri ;;
     emit (ELogSuccess "Successfully linked GitHub repository at remote URI") ;;
     emit (ELogSuccess (TAB ++ cloneUri)) ;;
     ret repo) w in
  (exists r rest, tr = EGetConnection projectId location connectionId r :: rest)
  /\ (forall p' l' c' config r,
         In (ECreateConnection p' l' c' config r) tr ->
         p' = projectId /\ l' = location /\ c' = connectionId /\ config = githubConfig)
  /\ (forall p' l' c' repositoryId r,
         In (EGetGitRepositoryLink p' l' c' repositoryId r) tr ->
         p' = projectId /\ l' = location /\ c' = connectionId
         /\ generateRepositoryId cloneUri = Some repositoryId)
  /\ (forall p' l' c' repositoryId uri r,
         In (ECreateGitRepositoryLink p' l' c' repositoryId uri r) tr ->
         p' = projectId /\ l' = location /\ c' = connectionId /\ uri = cloneUri
         /\ generateRepositoryId cloneUri = Some repositoryId)
  /\ (forall repo,
         o = Returned repo ->
         In (ELogSuccess (TAB ++ cloneUri)) tr
         /\ exists repositoryId,
              generateRepositoryId cloneUri = Some repositoryId
              /\ (In (EGetGitRepositoryLink projectId location connectionId
                        repositoryId (Resolved repo)) tr
                  \/ exists op options,
                       In (ECreateGitRepositoryLink projectId location connectionId
                             repositoryId cloneUri (Resolved op)) tr
                       /\ In (EPollRepository options (Resolved repo)) tr)).
Proof.
  rewrite bind_run, getOrCreateConnection_run. cbv zeta.
  assert (forall (c : Connection) (w1 : W) t1,
             (exists r rest, t1 = EGetConnection projectId location connectionId r :: rest) ->
             (forall p' l' c' config r,
                 In (ECreateConnection p' l' c' config r) t1 ->
                 p' = projectId /\ l' = location /\ c' = connectionId
                 /\ config = githubConfig) ->
             (forall p' l' c' repositoryId r,
                 ~ In (EGetGitRepositoryLink p' l' c' repositoryId r) t1) ->
             (forall p' l' c' repositoryId uri r,
                 ~ In (ECreateGitRepositoryLink p' l' c' repositoryId uri r) t1) ->
             let '(o, _, t2) :=
               (repo <- getOrCreateRepository projectId location connectionId cloneUri ;;
                emit (ELogSuccess "Successfully linked GitHub repository at remote URI") ;;
                emit (ELogSuccess (TAB ++ cloneUri)) ;;
                ret repo) w1 in
             let tr := (t1 ++ t2)%list in
             (exists r rest, tr = EGetConnection projectId location connectionId r :: rest)
             /\ (forall p' l' c' config r,
                    In (ECreateConnection p' l' c' config r) tr ->
                    p' = projectId /\ l' = location /\ c' = connectionId
                    /\ config = githubConfig)
             /\ (forall p' l' c' repositoryId r,
                    In (EGetGitRepositoryLink p' l' c' repositoryId r) tr ->
                    p' = projectId /\ l' = location /\ c' = connectionId
                    /\ generateRepositoryId cloneUri = Some repositoryId)
             /\ (forall p' l' c' repositoryId uri r,
                    In (ECreateGitRepositoryLink p' l' c' repositoryId uri r) tr ->
                    p' = projectId /\ l' = location /\ c' = connectionId
                    /\ uri = cloneUri
                    /\ generateRepositoryId cloneUri = Some repositoryId)
             /\ (forall repo,
                    o = Returned repo ->
                    In (ELogSuccess (TAB ++ cloneUri)) tr
                    /\ exists repositoryId,
                         generateRepositoryId cloneUri = Some repositoryId
                         /\ (In (EGetGitRepositoryLink projectId location connectionId
                                   repositoryId (Resolved repo)) tr
                             \/ exists op options,
                                  In (ECreateGitRepositoryLink projectId location
                                        connectionId repositoryId cloneUri
                                        (Resolved op)) tr
                                  /\ In (EPollRepository options (Resolved repo)) tr)))
    as Hrepo.
  { intros c w1 t1 (r0 & rest & ->) Hcreate Hnoget Hnocreate.
    rewrite bind_run.
    assert (forall (o : Outcome GitRepositoryLink) t2,
               (forall p' l' c' config r, ~ In (ECreateConnection p' l' c' config r) t2) ->
               (forall p' l' c' repositoryId r,
                   In (EGetGitRepositoryLink p' l' c' repositoryId r) t2 ->
                   p' = projectId /\ l' = location /\ c' = connectionId
                   /\ generateRepositoryId cloneUri = Some repositoryId) ->
               (forall p' l' c' repositoryId uri r,
                   In (ECreateGitRepositoryLink p' l' c' repositoryId uri r) t2 ->
                   p' = projectId /\ l' = location /\ c' = connectionId
                   /\ uri = cloneUri
                   /\ generateRepositoryId cloneUri = Some repositoryId) ->
               (exists r rest',
                   ((EGetConnection projectId location connectionId r0 :: rest) ++ t2)%list
                   = EGetConnection projectId location connectionId r :: rest')
               /\ (forall p' l' c' config r,
                      In (ECreateConnection p' l' c' config r)
                        ((EGetConnection projectId location connectionId r0 :: rest)
                           ++ t2)%list ->
                      p' = projectId /\ l' = location /\ c' = connectionId
                      /\ config = githubConfig)
               /\ (forall p' l' c' repositoryId r,
                      In (EGetGitRepositoryLink p' l' c' repositoryId r)
                        ((EGetConnection projectId location connectionId r0 :: rest)
                           ++ t2)%list ->
                      p' = projectId /\ l' = location /\ c' = connectionId
                      /\ generateRepositoryId cloneUri = Some repositoryId)
               /\ (forall p' l' c' repositoryId uri r,
                      In (ECreateGitRepositoryLink p' l' c' repositoryId uri r)
                        ((EGetConnection projectId location connectionId r0 :: rest)
                           ++ t2)%list ->
                      p' = projectId /\ l' = location /\ c' = connectionId
                      /\ uri = cloneUri
                      /\ generateRepositoryId cloneUri = Some repositoryId)) as Hparts.
    { intros o t2 H1 H2 H3. split; [do 2 eexists; reflexivity|].
      split; [|split].
      - intros p' l' c' config r Hin. apply in_app_or in Hin.
        destruct Hin as [Hin|Hin]; [eapply Hcreate; exact Hin|].
        exfalso. eapply H1; exact Hin.
      - intros p' l' c' rid r Hin. apply in_app_or in Hin.
        destruct Hin as [Hin|Hin]; [|eapply H2; exact Hin].
        exfalso. eapply Hnoget; exact Hin.
      - intros p' l' c' rid uri r Hin. apply in_app_or in Hin.
        destruct Hin as [Hin|Hin]; [|eapply H3; exact Hin].
        exfalso. eapply Hnocreate; exact Hin. }
    destruct (generateRepositoryId cloneUri) as [repositoryId|] eqn:Hid.
    2:{ unfold getOrCreateRepository. rewrite generateRepositoryId_truthy, Hid.
        cbn [throw]. cbv zeta.
        destruct (Hparts (Thrown TypeError) []) as (P1 & P2 & P3 & P4);
          [intros * [] ..|].
        split; [exact P1|]. split; [exact P2|]. split; [exact P3|].
        split; [exact P4 | discriminate]. }
    rewrite (getOrCreateRepository_run _ _ _ _ repositoryId w1 Hid). cbv zeta.
    destruct (devConnect_getGitRepositoryLink _ _ _ _ w1) as [[repo|err] w2].
    - cbn [bind emit ret app]. cbv zeta.
      match goal with
      | |- context [(rest ++ ?b)%list] =>
          destruct (Hparts (Returned repo) b) as (P1 & P2 & P3 & P4)
      end; [unfold not; solve_log ..|].
      split; [exact P1|]. split; [exact P2|]. split; [exact P3|]. split; [exact P4|].
      intros repo' [= <-]. split.
      + right. apply in_or_app. right. right. right. left. reflexivity.
      + exists repositoryId. split; [reflexivity|]. left.
        right. apply in_or_app. right. left. reflexivity.
    - destruct (statusIs err 404).
      2:{ cbn [app].
          match goal with
          | |- context [(rest ++ ?b)%list] =>
              destruct (Hparts (Thrown err) b) as (P1 & P2 & P3 & P4)
          end; [unfold not; solve_log ..|].
          split; [exact P1|]. split; [exact P2|]. split; [exact P3|].
          split; [exact P4 | discriminate]. }
      destruct (devConnect_createGitRepositoryLink _ _ _ _ _ w2) as [[op|e] w3].
      2:{ cbn [app].
          match goal with
          | |- context [(rest ++ ?b)%list] =>
              destruct (Hparts (Thrown e) b) as (P1 & P2 & P3 & P4)
          end; [unfold not; solve_log ..|].
          split; [exact P1|]. split; [exact P2|]. split; [exact P3|].
          split; [exact P4 | discriminate]. }
      destruct (poller_pollRepository _ w3) as [[repo|e] w4].
      2:{ cbn [app].
          match goal with
          | |- context [(rest ++ ?b)%list] =>
              destruct (Hparts (Thrown e) b) as (P1 & P2 & P3 & P4)
          end; [unfold not; solve_log ..|].
          split; [exact P1|]. split; [exact P2|]. split; [exact P3|].
          split; [exact P4 | discriminate]. }
      cbn [bind emit ret app]. cbv zeta.
      match goal with
      | |- context [(rest ++ ?b)%list] =>
          destruct (Hparts (Returned repo) b) as (P1 & P2 & P3 & P4)
      end; [unfold not; solve_log ..|].
      split; [exact P1|]. split; [exact P2|]. split; [exact P3|]. split; [exact P4|].
      intros repo' [= <-]. split.
      + right. apply in_or_app. right. do 4 right. left. reflexivity.
      + exists repositoryId. split; [reflexivity|]. right.
        eexists op, _. split; right; apply in_or_app; right.
        * right. left. reflexivity.
        * right. right. left. reflexivity. }
  destruct (devConnect_getConnection projectId location connectionId w)
    as [[conn|err] w1].
  - match goal with
    | |- context [(?t1 ++ _)%list] => pose proof (Hrepo conn w1 t1) as Hr
    end.
    destruct (bind (getOrCreateRepository _ _ _ _) _ w1) as [[o w2] t2].
    apply Hr; [eauto | unfold not; solve_log ..].
  - destruct (statusIs err 404); [|cbv zeta; split; [eauto | solve_log; congruence]].
    destruct (devConnect_createConnection _ _ _ _ w1) as [[op|e] w2];
      [|cbv zeta; split; [eauto | solve_log; congruence]].
    destruct (poller_pollConnection _ w2) as [[conn|e] w3];
      [|cbv zeta; split; [eauto | solve_log; congruence]].
    match goal with
    | |- context [(?t1 ++ _)%list] => pose proof (Hrepo conn w3 t1) as Hr
    end.
    destruct (bind (getOrCreateRepository _ _ _ _) _ w3) as [[o w4] t2].
    apply Hr; [eauto | unfold not; solve_log ..].
Qed.

(** X16. [linkSelected] works in the location of the backend, whatever
    the location in the name of the selected connection: its first call
    fetches the connection of the same id there; a connection is created
    only there, under that id and with the credential and installation
    id of the selected connection; the link is fetched and created only
    under that connection and the id derived from the clone URI.  A run
    that returns logged the clone URI and returns the link it fetched,
    or the one it polled after creating it for that clone URI. *)
Theorem linkSelected_in_backend_location :
  forall projectId location cloneUri connection p l connectionId (w : W),
    parseConnectionName (Connection.name connection)
    = Some (mkParts p l connectionId) ->
    let '(o, _, tr) :=
      linkSelected projectId location (cloneUri, Some connection) w in
    (exists r rest,
        coreOf tr = EGetConnection projectId location connectionId r :: rest)
    /\ (forall p' l' c' config r,
           In (ECreateConnection p' l' c' config r) (coreOf tr) ->
           p' = projectId /\ l' = location /\ c' = connectionId
           /\ config = Some (mkGitHubConfig (credentialOf connection)
                               (installationIdOf connection)))
    /\ (forall p' l' c' repositoryId r,
           In (EGetGitRepositoryLink p' l' c' repositoryId r) (coreOf tr) ->
           p' = projectId /\ l' = location /\ c' = connectionId
           /\ generateRepositoryId cloneUri = Some repositoryId)
    /\ (forall p' l' c' repositoryId uri r,
           In (ECreateGitRepositoryLink p' l' c' repositoryId uri r) (coreOf tr) ->
           p' = projectId /\ l' = location /\ c' = connectionId /\ uri = cloneUri
           /\ generateRepositoryId cloneUri = Some repositoryId)
    /\ (forall repo,
           o = Returned repo ->
           In (ELogSuccess (TAB ++ cloneUri)) (coreOf tr)
           /\ exists repositoryId,
                generateRepositoryId cloneUri = Some repositoryId
                /\ (In (EGetGitRepositoryLink projectId location connectionId
                          repositoryId (Resolved repo)) (coreOf tr)
                    \/ exists op options,
                         In (ECreateGitRepositoryLink projectId location connectionId
                               repositoryId cloneUri (Resolved op)) (coreOf tr)
                         /\ In (EPollRepository options (Resolved repo)) (coreOf tr))).
Proof.
  intros projectId location cloneUri connection p l connectionId w Hp.
  rewrite (linkSelected_run _ _ _ _ p l connectionId w Hp), lift_run.
  pose proof (linkSelected_calls projectId location cloneUri connectionId
                (Some (mkGitHubConfig (credentialOf connection)
                         (installationIdOf connection))) w) as H.
  destruct (bind (getOrCreateConnection _ _ _ _) _ w) as [[o w1] tr].
  rewrite coreOf_map. exact H.
Qed.

End LinkFacts.

(** A witness of [linkSelected_in_backend_location]: the selected
    connection lives in [europe-west1], the backend in [us-central1]. *)
Lemma linkSelected_in_backend_location_witness :
  let '(o, _, tr) :=
    linkSelected (env := stubbed (linkingStubs remoteConn (mockRepo "repo0")))
      "projectId" "us-central1"
      ("https://github.com/test/repo0.git", Some remoteConn) freshWorld in
  (exists r rest,
      coreOf tr
      = EGetConnection "projectId" "us-central1" "apphosting-github-conn-o82mvyr" r
          :: rest)
  /\ (forall p' l' c' config r,
         In (ECreateConnection p' l' c' config r) (coreOf tr) ->
         p' = "projectId" /\ l' = "us-central1"
         /\ c' = "apphosting-github-conn-o82mvyr"
         /\ config = Some (mkGitHubConfig (credentialOf remoteConn)
                             (installationIdOf remoteConn)))
  /\ (forall p' l' c' repositoryId r,
         In (EGetGitRepositoryLink p' l' c' repositoryId r) (coreOf tr) ->
         p' = "projectId" /\ l' = "us-central1"
         /\ c' = "apphosting-github-conn-o82mvyr"
         /\ generateRepositoryId "https://github.com/test/repo0.git"
            = Some repositoryId)
  /\ (forall p' l' c' repositoryId uri r,
         In (ECreateGitRepositoryLink p' l' c' repositoryId uri r) (coreOf tr) ->
         p' = "projectId" /\ l' = "us-central1"
         /\ c' = "apphosting-github-conn-o82mvyr"
         /\ uri = "https://github.com/test/repo0.git"
         /\ generateRepositoryId "https://github.com/test/repo0.git"
            = Some repositoryId)
  /\ (forall repo,
         o = Returned repo ->
         In (ELogSuccess (TAB ++ "https://github.com/test/repo0.git")) (coreOf tr)
         /\ exists repositoryId,
              generateRepositoryId "https://github.com/test/repo0.git"
              = Some repositoryId
              /\ (In (EGetGitRepositoryLink "projectId" "us-central1"
                        "apphosting-github-conn-o82mvyr" repositoryId
                        (Resolved repo)) (coreOf tr)
                  \/ exists op options,
                       In (ECreateGitRepositoryLink "projectId" "us-central1"
                             "apphosting-github-conn-o82mvyr" repositoryId
                             "https://github.com/test/repo0.git" (Resolved op))
                         (coreOf tr)
                       /\ In (EPollRepository options (Resolved repo)) (coreOf tr))).
Proof.
  apply (@linkSelected_in_backend_location StubWorld
           (stubbed (linkingStubs remoteConn (mockRepo "repo0")))
           "projectId" "us-central1" "https://github.com/test/repo0.git" remoteConn
           "projectId" "europe-west1" "apphosting-github-conn-o82mvyr" freshWorld).
  vm_compute. reflexivity.
Defined.
(** * The orchestration as a whole *)

Lemma flowCount_zero_In p tr ev :
  flowCount p tr = 0 -> In ev tr -> p ev = false.
Proof.
  unfold flowCount. induction tr as [|x tr IH]; cbn [filter In]; [intros _ []|].
  destruct (p x) eqn:Hx; cbn [length]; [discriminate|].
  intros H [<-|Hin]; auto.
Qed.

(** ** Runs without calls of a given kind *)

Section Silence.

Context {W : Type} (p : Event -> bool).

Lemma silent_ret {A} (a : A) : silent p (ret (W := W) a).
Proof. intros w. reflexivity. Qed.

Lemma silent_throw {A} e : silent p (throw (W := W) (A := A) e).
Proof. intros w. reflexivity. Qed.

Lemma silent_emit ev : p ev = false -> silent p (emit (W := W) ev).
Proof. intros H w. cbn [emit snd]. rewrite count_cons, H. reflexivity. Qed.

Lemma silent_call {A} (oracle : W -> Settled A * W) record :
  (forall r, p (record r) = false) -> silent p (call oracle record).
Proof.
  intros H w. unfold call. destruct (oracle w) as [[a|e] w1]; cbn [snd];
    rewrite count_cons, H; reflexivity.
Qed.

Lemma silent_bind {A B} (m : M W A) (f : A -> M W B) :
  silent p m -> (forall a, silent p (f a)) -> silent p (bind m f).
Proof.
  intros Hm Hf w. rewrite bind_run. specialize (Hm w).
  destruct (m w) as [[[a|e|] w1] t1]; cbn [snd] in *; try exact Hm.
  specialize (Hf a w1). destruct (f a w1) as [[o w2] t2]. cbn [snd] in *.
  rewrite count_app, Hm, Hf. reflexivity.
Qed.

Lemma silent_tryCatch {A} (m : M W A) handler :
  silent p m -> (forall e, silent p (handler e)) -> silent p (tryCatch m handler).
Proof.
  intros Hm Hh w. unfold tryCatch. specialize (Hm w).
  destruct (m w) as [[[a|e|] w1] t1]; cbn [snd] in *; try exact Hm.
  specialize (Hh e w1). destruct (handler e w1) as [[o w2] t2]. cbn [snd] in *.
  rewrite count_app, Hm, Hh. reflexivity.
Qed.

Lemma silent_while {S A} fuel (cond : S -> bool) (body : S -> M W (Flow S A)) :
  (forall s, silent p (body s)) -> forall s, silent p (while fuel cond body s).
Proof.
  intros Hb. induction fuel as [|n IH]; intros s; cbn [while];
    destruct (cond s); try (intros w; reflexivity).
  apply silent_bind; [apply Hb|].
  intros [s'|a]; [apply IH | apply silent_ret].
Qed.

Lemma silent_forOf {X S} (xs : list X) (body : X -> S -> M W S) :
  (forall x s, silent p (body x s)) -> forall s, silent p (forOf xs body s).
Proof.
  intros Hb. induction xs as [|x xs IH]; intros s; cbn [forOf].
  - apply silent_ret.
  - apply silent_bind; [apply Hb | intros s'; apply IH].
Qed.

End Silence.

Ltac silence :=
  repeat (intros;
          first
            [ apply silent_ret
            | apply silent_throw
            | apply silent_emit; reflexivity
            | apply silent_call; intros; reflexivity
            | apply silent_bind
            | apply silent_tryCatch
            | apply silent_while
            | apply silent_forOf
            | progress cbv zeta
            | match goal with
              | |- silent _ (match ?x with _ => _ end) => destruct x
              end ]).

Lemma flowCount_cons p ev tr :
  flowCount p (ev :: tr) = (if p ev then 1 else 0) + flowCount p tr.
Proof. unfold flowCount. cbn [filter]. destruct (p ev); reflexivity. Qed.

Lemma flowCount_coreOf p tr : flowCount (core p) tr = count p (coreOf tr).
Proof.
  induction tr as [|ev tr IH]; [reflexivity|].
  rewrite flowCount_cons, IH. destruct ev; try reflexivity.
  rewrite coreOf_cons_core, count_cons. reflexivity.
Qed.

Section SilenceF.

Context {W : Type} (p : FlowEvent -> bool).

Lemma silentF_ret {A} (a : A) : silentF p (retF (W := W) a).
Proof. intros w. reflexivity. Qed.

Lemma silentF_throw {A} e : silentF p (throwF (W := W) (A := A) e).
Proof. intros w. reflexivity. Qed.

Lemma silentF_call {A} (oracle : W -> Settled A * W) record :
  (forall r, p (record r) = false) -> silentF p (callF oracle record).
Proof.
  intros H w. unfold callF. destruct (oracle w) as [[a|e] w1]; cbn [snd];
    rewrite flowCount_cons, H; reflexivity.
Qed.

Lemma silentF_lift {A} (m : M W A) :
  silent (fun ev => p (ECore ev)) m -> silentF p (lift m).
Proof.
  intros H w. rewrite lift_run. specialize (H w).
  destruct (m w) as [[o w1] tr]. cbn [snd] in *.
  unfold flowCount, count in *. induction tr as [|ev tr IH]; [reflexivity|].
  cbn [map filter] in *. destruct (p (ECore ev)); [discriminate | auto].
Qed.

Lemma silentF_lift_other {A} (m : M W A) :
  (forall ev, p (ECore ev) = false) -> silentF p (lift m).
Proof.
  intros H w. rewrite lift_run. destruct (m w) as [[o w1] tr]. cbn [snd].
  apply flowCount_core. exact H.
Qed.

Lemma silentF_bind {A B} (m : F W A) (f : A -> F W B) :
  silentF p m -> (forall a, silentF p (f a)) -> silentF p (bindF m f).
Proof.
  intros Hm Hf w. rewrite bindF_run. specialize (Hm w).
  destruct (m w) as [[[a|e|] w1] t1]; cbn [snd] in *; try exact Hm.
  specialize (Hf a w1). destruct (f a w1) as [[o w2] t2]. cbn [snd] in *.
  rewrite flowCount_app, Hm, Hf. reflexivity.
Qed.

Lemma silentF_doWhile {S R} fuel (body : option R -> S -> F W (S * R)) cond :
  (forall prev s, silentF p (body prev s)) ->
  forall prev s, silentF p (doWhile fuel body cond prev s).
Proof.
  intros Hb. induction fuel as [|n IH]; intros prev s; cbn [doWhile];
    [intros w; reflexivity|].
  apply silentF_bind; [apply Hb|].
  intros sr. destruct (cond (snd sr)); [apply IH | apply silentF_ret].
Qed.

End SilenceF.

Ltac silenceF :=
  repeat (intros;
          first
            [ apply silentF_ret
            | apply silentF_throw
            | apply silentF_call; intros; reflexivity
            | apply silentF_lift_other; intros; reflexivity
            | apply silentF_bind
            | apply silentF_doWhile
            | progress cbv zeta
            | match goal with
              | |- silentF _ (match ?x with _ => _ end) => destruct x
              end ]).

Section OrchestratorFacts.

Context {W : Type} {env : Collaborators W} {flow : FlowCollaborators W}.

(** [linkGitHubRepository] in terms of its steps. *)
Lemma linkGitHubRepository_run fuelOauth fuelInstall fuelSelect projectId location
    (w : W) :
  linkGitHubRepository fuelOauth fuelInstall fuelSelect projectId location w =
  match lift (logBullet (clc_bold (clc_yellow "===" ++ " Set up a GitHub connection")) ;;
              oauthConn <- getOrCreateOauthConnection fuelOauth projectId location ;;
              logBullet ("debug: oauthConnection: " ++ JSON_stringify oauthConn) ;;
              existingConns <- listAppHostingConnections projectId ;;
              ret (oauthConn, existingConns)) w with
  | (Returned (oauthConn, existingConns), w1, t0) =>
      match seedConnections fuelInstall projectId location oauthConn existingConns
              w1 with
      | (Returned conns, w2, t1) =>
          match selectRepository fuelInstall fuelSelect projectId location oauthConn
                  conns w2 with
          | (Returned selected, w3, t2) =>
              let '(o, w4, t3) := linkSelected projectId location (snd selected) w3 in
              (o, w4, t0 ++ t1 ++ t2 ++ t3)
          | (Thrown e, w3, t2) => (Thrown e, w3, t0 ++ t1 ++ t2)
          | (OutOfFuel, w3, t2) => (OutOfFuel, w3, t0 ++ t1 ++ t2)
          end
      | (Thrown e, w2, t1) => (Thrown e, w2, t0 ++ t1)
      | (OutOfFuel, w2, t1) => (OutOfFuel, w2, t0 ++ t1)
      end
  | (Thrown e, w1, t0) => (Thrown e, w1, t0)
  | (OutOfFuel, w1, t0) => (OutOfFuel, w1, t0)
  end%list.
Proof.
  unfold linkGitHubRepository, bindF, lift, bind, logBullet, emit, ret.
  destruct (getOrCreateOauthConnection fuelOauth projectId location w)
    as [[[oauthConn|e|] w0] ta]; try reflexivity.
  destruct (listAppHostingConnections projectId w0) as [[[existing|e|] w1] tb];
    try (rewrite ?map_app, ?app_nil_r; reflexivity).
  destruct (seedConnections _ _ _ _ existing w1) as [[[conns|e|] w2] t1];
    try (rewrite ?map_app, ?app_nil_r, <- ?app_assoc; reflexivity).
  destruct (selectRepository _ _ _ _ _ conns w2) as [[[selected|e|] w3] t2];
    try (rewrite ?map_app, ?app_nil_r, <- ?app_assoc; reflexivity).
  destruct (linkSelected _ _ _ w3) as [[o w4] t3].
  rewrite ?map_app, ?app_nil_r, <- ?app_assoc. reflexivity.
Qed.

(** The authorisation and the listing of connections never touch
    repositories. *)
Lemma getOrCreateOauthConnection_no_repository fuel projectId location :
  silent isRepositoryCall (getOrCreateOauthConnection fuel projectId location).
Proof.
  unfold getOrCreateOauthConnection, getOrCreateConnection, getConnection,
    createConnection, logBullet, promptOnce.
  silence.
Qed.

Lemma listAppHostingConnections_no_repository projectId :
  silent isRepositoryCall (listAppHostingConnections projectId).
Proof. unfold listAppHostingConnections. silence. Qed.

Lemma ensureFullyInstalledConnection_no_repository fuel projectId location
    connectionId oauthConn :
  silent isRepositoryCall
    (ensureFullyInstalledConnection fuel projectId location connectionId oauthConn).
Proof.
  unfold ensureFullyInstalledConnection, getConnection, logBullet, promptOnce.
  silence.
Qed.

Lemma random36_silent p :
  (forall r, p (EMathRandom r) = false) -> silentF p (random36 (W := W)).
Proof.
  intros H w. unfold random36. destruct (Math_random36 w) as [r w1]. cbn [snd].
  rewrite flowCount_cons, H. reflexivity.
Qed.

(** Choosing and linking make no call for the grant. *)
Lemma selectRepository_no_grant fuelInstall fuelSelect projectId location oauthConn
    existingConns :
  silentF isGrantCall
    (selectRepository fuelInstall fuelSelect projectId location oauthConn
       existingConns).
Proof.
  unfold selectRepository. apply silentF_doWhile. intros prev s.
  unfold selectionPass, promptRepositoryUri.
  apply silentF_bind.
  - destruct (match prev with Some _ => _ | None => _ end); [|apply silentF_ret].
    apply silentF_bind; [apply random36_silent; reflexivity|]. silenceF.
  - silenceF.
Qed.

Lemma linkSelected_no_grant projectId location selection :
  silentF isGrantCall (linkSelected projectId location selection).
Proof. unfold linkSelected. silenceF. Qed.

(** What a declined grant means for [ensureSecretManagerAdminGrant]. *)
Lemma ensureSecretManagerAdminGrant_declined projectId (w : W) :
  let '(o, _, tr) := ensureSecretManagerAdminGrant projectId w in
  flowCount isAutocomplete tr = 0
  /\ flowCount isRandom tr = 0
  /\ count isRepositoryCall (coreOf tr) = 0
  /\ forall q,
       In (EPromptConfirm q (Resolved false)) tr ->
       o = Thrown (FirebaseError
                     "Insufficient IAM permissions to create a new connection to GitHub")
       /\ flowCount isAddRole tr = 0.
Proof.
  unfold ensureSecretManagerAdminGrant.
  unfold bindF, callF, lift, logBullet, emit, retF, throwF.
  destruct (getProjectNumber projectId w) as [[n|e] w1]; [|solve_flow_log].
  destruct (rm_serviceAccountHasRoles _ _ _ _ w1) as [[[|]|e] w2];
    [solve_flow_log| |solve_flow_log].
  destruct (prompt_promptOnceConfirm _ w2) as [[[|]|e] w3];
    [|solve_flow_log|solve_flow_log].
  cbn [negb].
  destruct (rm_addServiceAccountToRoles _ _ _ _ w3) as [[[]|e] w4]; solve_flow_log.
Qed.

(** The same for [seedConnections]. *)
Lemma seedConnections_declined fuelInstall projectId location oauthConn
    existingConns (w : W) :
  let '(o, _, tr) :=
    seedConnections fuelInstall projectId location oauthConn existingConns w in
  flowCount isAutocomplete tr = 0
  /\ count isRepositoryCall (coreOf tr) = 0
  /\ forall q,
       In (EPromptConfirm q (Resolved false)) tr ->
       o = Thrown (FirebaseError
                     "Insufficient IAM permissions to create a new connection to GitHub")
       /\ flowCount isAddRole tr = 0
       /\ flowCount isRandom tr = 0.
Proof.
  destruct existingConns as [|c0 cs].
  2:{ cbn. split; [reflexivity|]. split; [reflexivity|]. intros q []. }
  rewrite seedConnections_run. cbv zeta.
  pose proof (ensureSecretManagerAdminGrant_declined projectId w) as Hg.
  destruct (ensureSecretManagerAdminGrant projectId w) as [[[[]|e|] w1] t1];
    destruct Hg as (Ha & Hr & Hc & Hd).
  2,3: cbv beta iota;
       (split; [rewrite flowCount_cons, Ha; reflexivity|]);
       (split; [rewrite coreOf_cons_core, count_cons, Hc; reflexivity|]);
       intros q [Hq|Hq]; [discriminate|];
       destruct (Hd q Hq) as (Ho & Hadd); rewrite !flowCount_cons, Hadd, Hr;
       (split; [congruence|]); split; reflexivity.
  destruct (Math_random36 w1) as [r w2].
  pose proof (ensureFullyInstalledConnection_no_repository fuelInstall projectId
                location (generateConnectionId r) oauthConn w2) as He.
  assert (forall (o : Outcome (list Connection)) t2,
             count isRepositoryCall t2 = 0 ->
             let tr := (ECore (ELogBullet "no connections exist")
                          :: t1 ++ EMathRandom r :: map ECore t2)%list in
             flowCount isAutocomplete tr = 0
             /\ count isRepositoryCall (coreOf tr) = 0
             /\ forall q,
                  In (EPromptConfirm q (Resolved false)) tr ->
                  o = Thrown (FirebaseError
                                "Insufficient IAM permissions to create a new connection to GitHub")
                  /\ flowCount isAddRole tr = 0
                  /\ flowCount isRandom tr = 0) as Hall.
  { intros o t2 H2 tr. subst tr.
    rewrite coreOf_cons_core, coreOf_app, coreOf_cons_random, coreOf_map.
    rewrite count_cons, count_app, Hc, H2.
    rewrite flowCount_cons, flowCount_app, flowCount_cons, flowCount_core, Ha
      by reflexivity.
    split; [reflexivity|]. split; [reflexivity|].
    intros q [Hq|Hq]; [discriminate|]. apply in_app_or in Hq.
    destruct Hq as [Hq|[Hq|Hq]]; [|discriminate|].
    - destruct (Hd q Hq) as (Hq' & _). discriminate.
    - apply in_map_iff in Hq. destruct Hq as (ev & Hev & _). discriminate. }
  destruct (ensureFullyInstalledConnection _ _ _ _ _ w2) as [[o w3] t2].
  cbn [snd] in He. destruct o as [conn|e|]; apply Hall; exact He.
Qed.

(** X17. When the user declines the grant, [linkGitHubRepository] throws
    the [FirebaseError] of insufficient permissions, whatever the other
    collaborators answer: in that run no role is added, no connection id
    is drawn, the user is never asked for a repository, and no repository
    is listed, fetched, created or polled. *)
Theorem linkGitHubRepository_declined_grant :
  forall fuelOauth fuelInstall fuelSelect projectId location (w : W) o w' tr q,
    linkGitHubRepository fuelOauth fuelInstall fuelSelect projectId location w
    = (o, w', tr) ->
    In (EPromptConfirm q (Resolved false)) tr ->
    o = Thrown (FirebaseError
                  "Insufficient IAM permissions to create a new connection to GitHub")
    /\ flowCount isAddRole tr = 0
    /\ flowCount isRandom tr = 0
    /\ flowCount isAutocomplete tr = 0
    /\ count isRepositoryCall (coreOf tr) = 0.
Proof.
  intros fuelOauth fuelInstall fuelSelect projectId location w o w' tr q Hrun Hq.
  rewrite linkGitHubRepository_run, lift_run in Hrun.
  match type of Hrun with
  | context [?m w] =>
      match type of m with
      | M W (Connection * list Connection) =>
          assert (silent isRepositoryCall m) as Hsetup; [|specialize (Hsetup w)]
      end
  end.
  { unfold logBullet. apply silent_bind; [silence|]. intros _.
    apply silent_bind; [apply getOrCreateOauthConnection_no_repository|].
    intros oauthConn. apply silent_bind; [silence|]. intros _.
    apply silent_bind; [apply listAppHostingConnections_no_repository|]. silence. }
  match type of Hrun with
  | context [?m w] =>
      match type of m with
      | M W (Connection * list Connection) =>
          destruct (m w) as [[[[oauthConn existing]|e|] w0] t0]
      end
  end; cbn [snd] in Hsetup.
  2,3: injection Hrun as <- <- <-; apply in_map_iff in Hq;
       destruct Hq as (ev & Hev & _); discriminate.
  assert (forall ev, In ev (map ECore t0) -> isGrantCall ev = false) as H0.
  { intros ev Hin. apply in_map_iff in Hin. destruct Hin as (x & <- & _). reflexivity. }
  pose proof (seedConnections_declined fuelInstall projectId location oauthConn
                existing w0) as Hseed.
  destruct (seedConnections _ _ _ _ existing w0) as [[[conns|e|] w1] t1];
    destruct Hseed as (Ha1 & Hc1 & Hd1).
  - exfalso.
    pose proof (selectRepository_no_grant fuelInstall fuelSelect projectId location
                  oauthConn conns w1) as Hsel.
    destruct (selectRepository _ _ _ _ _ conns w1) as [[[selected|e|] w2] t2];
      cbn [snd] in Hsel.
    + pose proof (linkSelected_no_grant projectId location (snd selected) w2) as Hlink.
      destruct (linkSelected _ _ _ w2) as [[o3 w3] t3]. cbn [snd] in Hlink.
      injection Hrun as <- <- <-.
      apply in_app_or in Hq. destruct Hq as [Hq|Hq]; [apply H0 in Hq; discriminate|].
      apply in_app_or in Hq. destruct Hq as [Hq|Hq];
        [destruct (Hd1 q Hq) as (Hq' & _); discriminate|].
      apply in_app_or in Hq. destruct Hq as [Hq|Hq].
      * apply (flowCount_zero_In _ _ _ Hsel) in Hq. discriminate.
      * apply (flowCount_zero_In _ _ _ Hlink) in Hq. discriminate.
    + injection Hrun as <- <- <-.
      apply in_app_or in Hq. destruct Hq as [Hq|Hq]; [apply H0 in Hq; discriminate|].
      apply in_app_or in Hq. destruct Hq as [Hq|Hq];
        [destruct (Hd1 q Hq) as (Hq' & _); discriminate|].
      apply (flowCount_zero_In _ _ _ Hsel) in Hq. discriminate.
    + injection Hrun as <- <- <-.
      apply in_app_or in Hq. destruct Hq as [Hq|Hq]; [apply H0 in Hq; discriminate|].
      apply in_app_or in Hq. destruct Hq as [Hq|Hq];
        [destruct (Hd1 q Hq) as (Hq' & _); discriminate|].
      apply (flowCount_zero_In _ _ _ Hsel) in Hq. discriminate.
  - injection Hrun as <- <- <-.
    apply in_app_or in Hq. destruct Hq as [Hq|Hq]; [apply H0 in Hq; discriminate|].
    destruct (Hd1 q Hq) as (Ho & Hadd & Hrand).
    rewrite coreOf_app, coreOf_map, count_app, !flowCount_app,
      !flowCount_core by reflexivity.
    rewrite Hadd, Hrand, Ha1, Hc1, Hsetup.
    split; [congruence|]. auto.
  - injection Hrun as <- <- <-.
    apply in_app_or in Hq. destruct Hq as [Hq|Hq]; [apply H0 in Hq; discriminate|].
    destruct (Hd1 q Hq) as (Hq' & _). discriminate.
Qed.

(** X18. A run of [linkGitHubRepository] that returns a link returns the
    link of the repository the user chose: the last answer, which is not
    [ADD_CONN_CHOICE], was listed in this run by a connection with a
    well-formed name; the connection of that id was fetched in the
    location of the backend; the link returned is the one fetched there
    under the id derived from the chosen clone URI, or the one polled
    after it was created there for that clone URI; and the clone URI was
    logged as linked. *)
Theorem linkGitHubRepository_links_the_choice :
  forall fuelOauth fuelInstall fuelSelect projectId location (w : W) repo w' tr,
    linkGitHubRepository fuelOauth fuelInstall fuelSelect projectId location w
    = (Returned repo, w', tr) ->
    exists cloneUri connection p l connectionId repositoryId,
      cloneUri <> ADD_CONN_CHOICE
      /\ answered projectId tr cloneUri (Some connection)
      /\ parseConnectionName (Connection.name connection)
         = Some (mkParts p l connectionId)
      /\ generateRepositoryId cloneUri = Some repositoryId
      /\ (exists r, In (ECore (EGetConnection projectId location connectionId r)) tr)
      /\ (In (ECore (EGetGitRepositoryLink projectId location connectionId
                       repositoryId (Resolved repo))) tr
          \/ exists op options,
               In (ECore (ECreateGitRepositoryLink projectId location connectionId
                            repositoryId cloneUri (Resolved op))) tr
               /\ In (ECore (EPollRepository options (Resolved repo))) tr)
      /\ In (ECore (ELogSuccess (TAB ++ cloneUri))) tr.
Proof.
  intros fuelOauth fuelInstall fuelSelect projectId location w repo w' tr Hrun.
  rewrite linkGitHubRepository_run in Hrun.
  destruct (lift _ w) as [[[[oauthConn existing]|e|] w0] t0]; try discriminate.
  destruct (seedConnections _ _ _ _ existing w0) as [[[conns|e|] w1] t1];
    try discriminate.
  pose proof (selection_loop fuelInstall projectId location oauthConn fuelSelect None
                conns w1) as Hsel. cbv zeta in Hsel.
  unfold selectRepository in Hrun.
  destruct (doWhile fuelSelect _ _ None conns w1)
    as [[[[conns' [cloneUri c]]|e|] w2] t2]; try discriminate.
  destruct Hsel as (_ & _ & _ & Hsel).
  destruct (Hsel conns' cloneUri c eq_refl) as (Hne & _ & _ & _ & Hans & _).
  cbn [snd] in Hrun. destruct c as [connection|]; [|discriminate].
  destruct (parseConnectionName (Connection.name connection)) as [[p l i]|] eqn:Hp.
  2:{ unfold linkSelected in Hrun. cbn [fst snd] in Hrun. rewrite Hp in Hrun.
      discriminate. }
  rewrite (linkSelected_run _ _ _ _ p l i w2 Hp), lift_run in Hrun.
  pose proof (linkSelected_calls projectId location cloneUri i
                (Some (mkGitHubConfig (credentialOf connection)
                         (installationIdOf connection))) w2) as Hlink.
  destruct (bind (getOrCreateConnection _ _ _ _) _ w2) as [[o3 w3] t3].
  injection Hrun as -> <- <-.
  destruct Hlink as ((r & rest & ->) & _ & _ & _ & Hret).
  destruct (Hret repo eq_refl) as (Hlog & repositoryId & Hid & Hrepo).
  assert (forall ev,
             In ev (EGetConnection projectId location i r :: rest) ->
             In (ECore ev)
               (t0 ++ t1 ++ t2
                  ++ map ECore (EGetConnection projectId location i r :: rest))%list)
    as Hin.
  { intros ev H. apply in_or_app. right. apply in_or_app. right.
    apply in_or_app. right. apply in_map. exact H. }
  exists cloneUri, connection, p, l, i, repositoryId.
  split; [exact Hne|]. split.
  { apply answered_app_l, answered_app_l, answered_app_r. exact Hans. }
  split; [exact Hp|]. split; [exact Hid|]. split.
  { exists r. apply Hin. left. reflexivity. }
  split; [|apply Hin; exact Hlog].
  destruct Hrepo as [H|(op & options & H1 & H2)]; [left; apply Hin; exact H|].
  right. exists op, options. split; apply Hin; assumption.
Qed.

End OrchestratorFacts.

(** A witness of [linkGitHubRepository_declined_grant]: the sentinel is
    complete, the project has no eligible connection, the role is
    missing and the user declines. *)
Lemma linkGitHubRepository_declined_grant_witness :
  let '(o, _, tr) :=
    linkGitHubRepository (env := stubbed (projectStubs [] [] (mockRepo "repo0")))
      (flow := flowStubbed decliningStubs) 1 1 1 "projectId" "us-central1"
      freshWorld in
  o = Thrown (FirebaseError (env := stubbed (projectStubs [] [] (mockRepo "repo0")))
                "Insufficient IAM permissions to create a new connection to GitHub")
  /\ flowCount isAddRole tr = 0
  /\ flowCount isRandom tr = 0
  /\ flowCount isAutocomplete tr = 0
  /\ count isRepositoryCall (coreOf tr) = 0.
Proof.
  destruct (linkGitHubRepository
              (env := stubbed (projectStubs [] [] (mockRepo "repo0")))
              (flow := flowStubbed decliningStubs) 1 1 1 "projectId" "us-central1"
              freshWorld) as [[o w'] tr] eqn:Hrun.
  apply (@linkGitHubRepository_declined_grant StubWorld
           (stubbed (projectStubs [] [] (mockRepo "repo0")))
           (flowStubbed decliningStubs) 1 1 1 "projectId" "us-central1" freshWorld
           o w' tr
           (mkQuestion "confirm"
              "Grant the required role to the Developer Connect Service Agent?")
           Hrun).
  vm_compute in Hrun. injection Hrun as <- <- <-.
  do 9 right. left. reflexivity.
Defined.

(** A witness of [linkGitHubRepository_links_the_choice]: one eligible
    connection lists one repository, which the user picks at once. *)
Lemma linkGitHubRepository_links_the_choice_witness :
  exists cloneUri connection p l connectionId repositoryId,
    cloneUri <> ADD_CONN_CHOICE
    /\ answered "projectId"
         (snd (linkGitHubRepository
                 (env := stubbed (projectStubs
                                    [mockConn "apphosting-github-conn-o82mvyr"]
                                    [linkable "repo0"] (mockRepo "repo0")))
                 (flow := flowStubbed (choosingStubs "https://github.com/test/repo0.git"))
                 1 1 1 "projectId" "us-central1" freshWorld))
         cloneUri (Some connection)
    /\ parseConnectionName (Connection.name connection)
       = Some (mkParts p l connectionId)
    /\ generateRepositoryId cloneUri = Some repositoryId
    /\ (exists r,
          In (ECore (EGetConnection "projectId" "us-central1" connectionId r))
            (snd (linkGitHubRepository
                    (env := stubbed (projectStubs
                                       [mockConn "apphosting-github-conn-o82mvyr"]
                                       [linkable "repo0"] (mockRepo "repo0")))
                    (flow := flowStubbed
                               (choosingStubs "https://github.com/test/repo0.git"))
                    1 1 1 "projectId" "us-central1" freshWorld)))
    /\ cloneUri = "https://github.com/test/repo0.git".
Proof.
  destruct (@linkGitHubRepository_links_the_choice StubWorld
              (stubbed (projectStubs [mockConn "apphosting-github-conn-o82mvyr"]
                          [linkable "repo0"] (mockRepo "repo0")))
              (flowStubbed (choosingStubs "https://github.com/test/repo0.git"))
              1 1 1 "projectId" "us-central1" freshWorld (mockRepo "repo0")
              (mkWorld 2 1 1)
              (snd (linkGitHubRepository
                      (env := stubbed (projectStubs
                                         [mockConn "apphosting-github-conn-o82mvyr"]
                                         [linkable "repo0"] (mockRepo "repo0")))
                      (flow := flowStubbed
                                 (choosingStubs "https://github.com/test/repo0.git"))
                      1 1 1 "projectId" "us-central1" freshWorld)))
    as (cloneUri & connection & p & l & connectionId & repositoryId
        & H1 & H2 & H3 & H4 & H5 & H6 & H7).
  - vm_compute. reflexivity.
  - exists cloneUri, connection, p, l, connectionId, repositoryId.
    split; [exact H1|]. split; [exact H2|]. split; [exact H3|].
    split; [exact H4|]. split; [exact H5|].
    destruct H2 as ((name & message & uris & Hin) & _).
    vm_compute in Hin.
    repeat match type of Hin with
           | _ \/ _ => destruct Hin as [Hin|Hin]
           | False => contradiction
           | _ = _ => first [discriminate Hin | injection Hin as _ _ _ <-]
           end.
    reflexivity.
Defined.
